(** * Calendar-analog matching engine of AutoTS ([autots/tools/seasonal.py])

    A shallow embedding of the calendar feature encoder ([date_part],
    [create_datepart_components], [fourier_df], [fourier_series],
    [create_seasonality_feature]), of the distance metrics and of the two
    matching engines ([seasonal_window_match], [seasonal_independent_match]),
    and of the forecast index and the forecast constraints of
    [autots/models/base.py] ([create_forecast_index], [ModelObject],
    [apply_constraints]), followed by the properties of the specification
    that concern them.

    Conventions.
    - A float64 cell is an exact rational or one of the IEEE special values
      (type [num]); rounding is not modelled.
    - Arithmetic on cells is exact. The wrap-around of numpy's integer
      dtypes is not modelled: the one-hot frames that
      [create_datepart_components] builds with [dtype=np.uint8] or
      [np.uint16] wrap under [a - b] (0 - 1 = 255), so what is stated of the
      value of a score is stated of arrays that numpy holds as float64.
    - A [pd.DatetimeIndex] is the list of its int64 nanosecond stamps; the
      calendar attributes are computed from them ([DT]).
    - A [pd.DataFrame] is its column labels with its rows, and a tag telling
      what [to_numpy()] gives.
    - A Python exception is a [Raise] in the [result] monad.
    - [np.argsort], [np.argpartition], [np.partition] and the transcendental
      functions are library calls: they are taken through the interface
      [Numpy], constrained by the contract numpy documents for the three
      selection routines ([NumpySpec]). The other collaborators of the encoder
      (moon phase, polynomial expansion, holiday flags) are taken through the
      interface [Collaborators].
    - The random pickers [seasonal_int] and [random_datepart] take the
      answers of [random] from a list of draws.
    - The calls of [base.py] into pandas are taken through the interface
      [Base.Pandas]. *)

From Stdlib Require Import String Ascii.
From Stdlib Require Import ZArith QArith Qabs Qround List Bool Arith Lia Lqa Permutation DecimalString.
Import ListNotations.

Set Implicit Arguments.

(* ================================================================== *)
(** * Exceptions *)
(* ================================================================== *)

Inductive exn : Type :=
| ValueError
| IndexError
| TypeError
| ZeroDivisionError.

Inductive result (A : Type) : Type :=
| Ok (a : A)
| Raise (e : exn).

Arguments Ok {A} a.
Arguments Raise {A} e.

Definition bind {A B : Type} (m : result A) (f : A -> result B) : result B :=
  match m with
  | Ok a => f a
  | Raise e => Raise e
  end.

Notation "x <- m ;; k" := (bind m (fun x => k))
  (at level 61, m at next level, right associativity).

(* ================================================================== *)
(** * Numbers: float64 cells with exact finite part *)
(* ================================================================== *)

Inductive num : Type :=
| Fin (q : Q)
| PInf
| NInf
| NaN.

Definition Qltb (a b : Q) : bool := negb (Qle_bool b a).
Definition Qeqb (a b : Q) : bool := Qeq_bool a b.

Definition nneg (x : num) : num :=
  match x with
  | Fin q => Fin (- q)
  | PInf => NInf
  | NInf => PInf
  | NaN => NaN
  end.

Definition nabs (x : num) : num :=
  match x with
  | Fin q => Fin (Qabs q)
  | PInf | NInf => PInf
  | NaN => NaN
  end.

Definition nadd (x y : num) : num :=
  match x, y with
  | NaN, _ | _, NaN => NaN
  | Fin a, Fin b => Fin (a + b)
  | PInf, NInf | NInf, PInf => NaN
  | PInf, _ | _, PInf => PInf
  | NInf, _ | _, NInf => NInf
  end.

Definition nsub (x y : num) : num := nadd x (nneg y).

(** Sign of an infinite product or quotient with a finite factor [q]. *)
Definition signed_inf (positive : bool) : num := if positive then PInf else NInf.

Definition nmul (x y : num) : num :=
  match x, y with
  | NaN, _ | _, NaN => NaN
  | Fin a, Fin b => Fin (a * b)
  | Fin a, PInf | PInf, Fin a =>
      if Qeqb a 0 then NaN else signed_inf (Qltb 0 a)
  | Fin a, NInf | NInf, Fin a =>
      if Qeqb a 0 then NaN else signed_inf (Qltb a 0)
  | PInf, PInf | NInf, NInf => PInf
  | PInf, NInf | NInf, PInf => NInf
  end.

(** numpy's true division on float64: a zero divisor gives [inf] or [nan],
    never an exception. *)
Definition ndiv (x y : num) : num :=
  match x, y with
  | NaN, _ | _, NaN => NaN
  | Fin a, Fin b =>
      if Qeqb b 0 then
        (if Qeqb a 0 then NaN else signed_inf (Qltb 0 a))
      else Fin (a / b)
  | Fin _, PInf | Fin _, NInf => Fin 0
  | PInf, Fin b => signed_inf (Qle_bool 0 b)
  | NInf, Fin b => signed_inf (Qltb b 0)
  | _, _ => NaN
  end.

(** [np.maximum]: a NaN operand wins. *)
Definition nmax (x y : num) : num :=
  match x, y with
  | NaN, _ | _, NaN => NaN
  | PInf, _ | _, PInf => PInf
  | NInf, z | z, NInf => z
  | Fin a, Fin b => if Qle_bool a b then Fin b else Fin a
  end.

(** [x == 0] on a cell. *)
Definition nis_zero (x : num) : bool :=
  match x with
  | Fin q => Qeqb q 0
  | _ => false
  end.

(** The order numpy sorts float64 by: [a < b], with NaN after everything. *)
Definition num_lt (x y : num) : bool :=
  match x, y with
  | NaN, _ => false
  | _, NaN => true
  | _, NInf => false
  | NInf, _ => true
  | PInf, _ => false
  | _, PInf => true
  | Fin a, Fin b => Qltb a b
  end.

Definition num_le (x y : num) : bool := negb (num_lt y x).

(** Equality of cells up to the value of the rational. *)
Definition num_eqv (x y : num) : Prop :=
  match x, y with
  | Fin a, Fin b => a == b
  | PInf, PInf | NInf, NInf | NaN, NaN => True
  | _, _ => False
  end.

Definition is_fin (x : num) : Prop :=
  match x with Fin _ => True | _ => False end.

Definition nat_num (n : nat) : num := Fin (inject_Z (Z.of_nat n)).
Definition Z_num (z : Z) : num := Fin (inject_Z z).

Definition nsum (l : list num) : num := fold_right nadd (Fin 0) l.

(** [np.mean] along an axis: the sum over the number of items; an empty axis
    gives [0/0 = nan]. *)
Definition nmean (l : list num) : num := ndiv (nsum l) (nat_num (length l)).

(** [np.max] along a non-empty axis (numpy raises on an empty one; the
    callers check that before reducing). *)
Definition nmax_list (l : list num) : num :=
  match l with
  | [] => NaN
  | x :: l' => fold_left nmax l' x
  end.

(** Python's [int(x)] on a float: truncation toward zero. *)
Definition py_int (q : Q) : Z := Z.quot (Qnum q) (Zpos (Qden q)).

(* ================================================================== *)
(** * The numpy routines the engine calls *)
(* ================================================================== *)

(** The transcendental functions and the three selection routines of numpy.
    [argpartition] and [partition] receive a [kth] already checked against
    the bounds of the array (see [np_argpartition]). *)
Class Numpy : Type := {
  np_pi : Q;
  np_cos : Q -> Q;
  np_sin : Q -> Q;
  np_sqrt : Q -> Q;
  np_power : Q -> Q -> Q;
  argsort : list num -> list nat;
  argpartition : list num -> nat -> list nat;
  partition : list num -> nat -> list num
}.

(** [s[i]]. *)
Definition key (s : list num) (i : nat) : num := nth i s NaN.

(** [np.argsort(s)]: the indices that sort [s]; the default [kind] is
    "quicksort", for which numpy promises no order among equal items. *)
Definition argsort_spec (s : list num) (p : list nat) : Prop :=
  Permutation p (seq 0 (length s)) /\
  forall i j, (i < j < length s)%nat ->
    num_le (key s (nth i p 0%nat)) (key s (nth j p 0%nat)) = true.

(** [np.argpartition(s, kth)]: position [kth] holds the index it would hold
    in sorted order, no larger item before it, no smaller item after it;
    the order inside the two sides is undefined. *)
Definition argpartition_spec (s : list num) (kth : nat) (p : list nat) : Prop :=
  Permutation p (seq 0 (length s)) /\
  (forall i, (i < kth)%nat ->
    num_le (key s (nth i p 0%nat)) (key s (nth kth p 0%nat)) = true) /\
  (forall j, (kth < j < length s)%nat ->
    num_le (key s (nth kth p 0%nat)) (key s (nth j p 0%nat)) = true).

(** [np.partition(l, kth)]: the same on the values. *)
Definition partition_spec (l : list num) (kth : nat) (l' : list num) : Prop :=
  Permutation l' l /\
  (forall i, (i < kth)%nat -> num_le (nth i l' NaN) (nth kth l' NaN) = true) /\
  (forall j, (kth < j < length l)%nat ->
    num_le (nth kth l' NaN) (nth j l' NaN) = true).

Class NumpySpec (N : Numpy) : Prop := {
  argsort_ok : forall s, argsort_spec s (argsort s);
  argpartition_ok : forall s kth, (kth < length s)%nat ->
    argpartition_spec s kth (argpartition s kth);
  partition_ok : forall l kth, (kth < length l)%nat ->
    partition_spec l kth (partition l kth)
}.

Arguments argsort_ok {N NumpySpec} s.
Arguments argpartition_ok {N NumpySpec} s kth _.
Arguments partition_ok {N NumpySpec} l kth _.

(** [np.sqrt] / [x ** 0.5] on a cell. *)
Definition nsqrt `{Numpy} (x : num) : num :=
  match x with
  | Fin q => if Qltb q 0 then NaN else Fin (np_sqrt q)
  | PInf => PInf
  | NInf | NaN => NaN
  end.

(** [np.argpartition(s, kth)] with numpy's treatment of [kth]: a negative
    [kth] counts from the end, an out-of-bounds one raises. *)
Definition check_kth (n : nat) (kth : Z) : result nat :=
  let kth := if (kth <? 0)%Z then (kth + Z.of_nat n)%Z else kth in
  if ((0 <=? kth) && (kth <? Z.of_nat n))%Z then Ok (Z.to_nat kth)
  else Raise ValueError.

Definition np_argpartition `{Numpy} (s : list num) (kth : Z) : result (list nat) :=
  kth <- check_kth (length s) kth ;; Ok (argpartition s kth).

(* ================================================================== *)
(** * Python slices and array reshaping *)
(* ================================================================== *)

(** [l[:-n]]. *)
Definition slice_drop_last {A : Type} (n : nat) (l : list A) : list A :=
  if (n =? 0)%nat then [] else firstn (length l - n) l.

(** [l[-n:]]. *)
Definition slice_last {A : Type} (n : nat) (l : list A) : list A :=
  if (n =? 0)%nat then l else skipn (length l - n) l.

(** Column [j] of a list of rows. *)
Definition column (j : nat) (rows : list (list num)) : list num :=
  map (fun r => nth j r NaN) rows.

(** [rows.T] for an array of [ncols] columns. *)
Definition transpose (ncols : nat) (rows : list (list num)) : list (list num) :=
  map (fun j => column j rows) (seq 0 ncols).

Definition map2 {A B C : Type} (f : A -> B -> C) (a : list A) (b : list B) : list C :=
  map (fun ab => f (fst ab) (snd ab)) (combine a b).

(** Modelled from the spec: [autots.tools.window_functions.sliding_window_view]
    is not among the sources. Section 4.2: [count = rows - window_size + 1]
    overlapping windows, window [c] holding rows [c .. c + window_size - 1],
    the caller ensuring [window_size <= rows]. The window axis comes last,
    shape (count, features, window_size), which is what the caller's
    [temp - last_window.T] requires. A window that does not fit, or an empty
    one, is a shape error. *)
Definition sliding_window_view (x : list (list num)) (ncols window_size : nat)
  : result (list (list (list num))) :=
  if ((window_size =? 0) || (length x <? window_size))%nat then Raise ValueError
  else Ok (map (fun c => transpose ncols (firstn window_size (skipn c x)))
               (seq 0 (length x - window_size + 1))).

(* ================================================================== *)
(** * Distance metrics *)
(* ================================================================== *)

(** Each metric reduces one slice [a] of the candidate against the matching
    slice [b] of the reference along axis 2. *)
Section Metrics.
Context `{Numpy}.

(** [np.abs(a - b)]. *)
Definition abs_diff (a b : list num) : list num :=
  map2 (fun x y => nabs (nsub x y)) a b.

Definition mae (a b : list num) : num := nmean (abs_diff a b).

Definition canberra (a b : list num) : num :=
  let divisor := map2 (fun x y => nadd (nabs x) (nabs y)) a b in
  let divisor := map (fun d => if nis_zero d then Fin 1 else d) divisor in
  nmean (map2 ndiv (abs_diff a b) divisor).

Definition minkowski (a b : list num) : num :=
  nsqrt (nsum (map (fun d => nmul d d) (abs_diff a b))).

Definition euclidean (a b : list num) : num :=
  nsqrt (nsum (map (fun d => nmul d d) (map2 nsub a b))).

Definition chebyshev (a b : list num) : num := nmax_list (abs_diff a b).

(** [q = 0.85]; [int(ae.shape[2] * q)]. *)
Definition mqae_q : Q := 85 # 100.

Definition mqae_qi (F : nat) : nat :=
  let qi := Z.to_nat (py_int (inject_Z (Z.of_nat F) * mqae_q)) in
  if (1 <? qi)%nat then qi else 1%nat.

Definition mqae_vals (ae : list num) : list num :=
  if (length ae <=? 1)%nat then ae
  else
    let qi := mqae_qi (length ae) in
    firstn qi (partition ae qi).

Definition mqae (a b : list num) : num := nmean (mqae_vals (abs_diff a b)).

Definition mse (a b : list num) : num :=
  nmean (map (fun d => nmul d d) (map2 nsub a b)).

Inductive metric : Type :=
| Mae | Canberra | Minkowski | Euclidean | Chebyshev | Mqae | Mse.

Definition metric_of_name (distance_metric : string) : option metric :=
  if String.eqb distance_metric "mae" then Some Mae
  else if String.eqb distance_metric "canberra" then Some Canberra
  else if String.eqb distance_metric "minkowski" then Some Minkowski
  else if String.eqb distance_metric "euclidean" then Some Euclidean
  else if String.eqb distance_metric "chebyshev" then Some Chebyshev
  else if String.eqb distance_metric "mqae" then Some Mqae
  else if String.eqb distance_metric "mse" then Some Mse
  else None.

Definition metric_fun (m : metric) : list num -> list num -> num :=
  match m with
  | Mae => mae
  | Canberra => canberra
  | Minkowski => minkowski
  | Euclidean => euclidean
  | Chebyshev => chebyshev
  | Mqae => mqae
  | Mse => mse
  end.

(** The [if distance_metric == ... else raise ValueError] chain, for a
    reduced axis of length [axis_len]: [np.max] has no identity and raises
    on an empty axis. *)
Definition select_metric (distance_metric : string) (axis_len : nat)
  : result (list num -> list num -> num) :=
  match metric_of_name distance_metric with
  | None => Raise ValueError
  | Some Chebyshev =>
      if (axis_len =? 0)%nat then Raise ValueError else Ok chebyshev
  | Some m => Ok (metric_fun m)
  end.
End Metrics.

(* ================================================================== *)
(** * Data frames *)
(* ================================================================== *)

(** What [to_numpy()] of the object is: a 2-D numeric array, a 2-D boolean
    array (the [is_*] flags), or the 1-D array of a [pd.Series]. *)
Inductive layout : Type :=
| Table
| BoolTable
| IndexSeries.

(** A data frame: the column labels, the rows and the layout. *)
Record DataFrame : Type := {
  columns : list string;
  values : list (list num);
  layout_of : layout
}.

Definition ncols (df : DataFrame) : nat := length (columns df).

(** Every row has one cell per column. *)
Definition rectangular (df : DataFrame) : Prop :=
  Forall (fun r => length r = ncols df) (values df).

(** [array[nan_array] = np.inf] for a boolean row mask: the masked rows are
    overwritten; pandas rejects a mask of the wrong length. *)
Definition set_rows_inf (array : DataFrame) (nan_array : list bool) : result DataFrame :=
  if (length nan_array =? length (values array))%nat then
    Ok {| columns := columns array;
          values := map2 (fun (masked : bool) r => if masked then map (fun _ => PInf) r else r)
                         nan_array (values array);
          layout_of := layout_of array |}
  else Raise ValueError.

(* ================================================================== *)
(** * Strings *)
(* ================================================================== *)

Definition str_Z (z : Z) : string := NilZero.string_of_int (Z.to_int z).
Definition str_nat (n : nat) : string := str_Z (Z.of_nat n).

(** Python's [sub in s]. *)
Fixpoint is_substring (sub s : string) : bool :=
  if String.prefix sub s then true
  else match s with
       | EmptyString => false
       | String _ s' => is_substring sub s'
       end.

(** Python's [s.replace(old, new)] for a non-empty [old]; [skip] counts the
    characters of a match still to be dropped. *)
Fixpoint replace_from (old new : string) (skip : nat) (s : string) : string :=
  match s with
  | EmptyString => EmptyString
  | String c s' =>
      match skip with
      | S k => replace_from old new k s'
      | O =>
          if String.prefix old s
          then (new ++ replace_from old new (String.length old - 1) s')%string
          else String c (replace_from old new 0 s')
      end
  end.

Definition replace (old new s : string) : string := replace_from old new 0 s.

(** Python's [x in names] for a list of strings. *)
Definition str_in (x : string) (names : list string) : bool :=
  existsb (String.eqb x) names.

(* ================================================================== *)
(** * Timestamps *)
(* ================================================================== *)

(** A timestamp is its number of nanoseconds since 1970-01-01T00:00, the
    value pandas stores; the calendar attributes are those of the proleptic
    Gregorian calendar. *)
Module DT.
Local Open Scope Z_scope.

Definition ns_per_second : Z := 1000000000.
Definition ns_per_minute : Z := 60 * ns_per_second.
Definition ns_per_hour : Z := 3600 * ns_per_second.
Definition ns_per_day : Z := 86400 * ns_per_second.

(** Whole days since 1970-01-01, and the [.days] of a timedelta. *)
Definition days (ts : Z) : Z := ts / ns_per_day.
Definition hour (ts : Z) : Z := (ts mod ns_per_day) / ns_per_hour.
Definition minute (ts : Z) : Z := (ts mod ns_per_hour) / ns_per_minute.

(** Date of a day number: (year, month, day). *)
Definition civil (d : Z) : Z * Z * Z :=
  let z := d + 719468 in
  let era := z / 146097 in
  let doe := z - era * 146097 in
  let yoe := (doe - doe / 1460 + doe / 36524 - doe / 146096) / 365 in
  let doy := doe - (365 * yoe + yoe / 4 - yoe / 100) in
  let mp := (5 * doy + 2) / 153 in
  let dd := doy - (153 * mp + 2) / 5 + 1 in
  let m := if mp <? 10 then mp + 3 else mp - 9 in
  let y := yoe + era * 400 + (if m <=? 2 then 1 else 0) in
  (y, m, dd).

(** Day number of a date. *)
Definition day_number (y m d : Z) : Z :=
  let y := if m <=? 2 then y - 1 else y in
  let era := y / 400 in
  let yoe := y - era * 400 in
  let doy := (153 * (if 2 <? m then m - 3 else m + 9) + 2) / 5 + d - 1 in
  let doe := yoe * 365 + yoe / 4 - yoe / 100 + doy in
  era * 146097 + doe - 719468.

Definition year (ts : Z) : Z := fst (fst (civil (days ts))).
Definition month (ts : Z) : Z := snd (fst (civil (days ts))).
Definition day (ts : Z) : Z := snd (civil (days ts)).
(** Monday is 0. *)
Definition weekday (ts : Z) : Z := (days ts + 3) mod 7.
Definition quarter (ts : Z) : Z := (month ts - 1) / 3 + 1.
Definition dayofyear (ts : Z) : Z := days ts - day_number (year ts) 1 1 + 1.
Definition is_leap_year (y : Z) : bool :=
  ((y mod 4 =? 0) && negb (y mod 100 =? 0)) || (y mod 400 =? 0).
Definition daysinmonth (ts : Z) : Z :=
  let m := month ts in
  if m =? 2 then (if is_leap_year (year ts) then 29 else 28)
  else if (m =? 4) || (m =? 6) || (m =? 9) || (m =? 11) then 30 else 31.
Definition is_month_start (ts : Z) : bool := day ts =? 1.
Definition is_month_end (ts : Z) : bool := day ts =? daysinmonth ts.
Definition is_quarter_start (ts : Z) : bool :=
  is_month_start ts && ((month ts - 1) mod 3 =? 0).
Definition is_quarter_end (ts : Z) : bool :=
  is_month_end ts && (month ts mod 3 =? 0).
Definition is_year_end (ts : Z) : bool := (month ts =? 12) && (day ts =? 31).

(** ISO 8601 week number ([isocalendar().week]). *)
Definition weeks_in_year (y : Z) : Z :=
  let p := fun y => (y + y / 4 - y / 100 + y / 400) mod 7 in
  if (p y =? 4) || (p (y - 1) =? 3) then 53 else 52.
Definition isoweek (ts : Z) : Z :=
  let w := (dayofyear ts - (weekday ts + 1) + 10) / 7 in
  if w <? 1 then weeks_in_year (year ts - 1)
  else if weeks_in_year (year ts) <? w then 1 else w.

(** [to_julian_date()]. *)
Definition to_julian_date (ts : Z) : Q :=
  (inject_Z ts / inject_Z ns_per_day + (24405875 # 10))%Q.

(** [pd.Timestamp] of a date, at midnight. *)
Definition timestamp (y m d : Z) : Z := day_number y m d * ns_per_day.

(** [pd.date_range(start, periods=n, freq='D')]. *)
Definition date_range (start : Z) (n : nat) : list Z :=
  map (fun i => start + Z.of_nat i * ns_per_day) (seq 0 n).

(** [DTindex.min()] and [DTindex.max()] of a non-empty index. *)
Definition min (DTindex : list Z) : Z :=
  match DTindex with
  | [] => 0
  | ts :: l => fold_left Z.min l ts
  end.
Definition max (DTindex : list Z) : Z :=
  match DTindex with
  | [] => 0
  | ts :: l => fold_left Z.max l ts
  end.
End DT.

(* ================================================================== *)
(** * Calendar feature encoder *)
(* ================================================================== *)

(** The external collaborators of the encoder: the rendering of a Python
    float by [str], [autots.tools.lunar.moon_phase],
    [pd.DataFrame(PolynomialFeatures(degree, include_bias=False).fit_transform(df))]
    on a 2-D frame (the 1-D case is in [date_part_finish]) and
    [pd.concat([df, holiday_flag(DTindex, country, ...)], axis=1,
    ignore_index=not set_index)]; both are taken to return. *)
Class Collaborators : Type := {
  float_repr : Q -> string;
  moon_phase : list Z -> list num;
  polynomial_features : nat -> DataFrame -> DataFrame;
  concat_holiday_flag : DataFrame -> list Z -> string -> bool -> DataFrame
}.

(** The [method] argument of [date_part]: a name, a number, or a list. *)
#[warnings="-register-all"] Inductive scheme : Type :=
| SStr (s : string)
| SInt (z : Z)
| SFloat (q : Q)
| SList (l : list scheme).

Definition date_part_methods : list string :=
  ["recurring"; "simple"; "expanded"; "simple_2"; "simple_3"; "lunar_phase";
   "simple_binarized"; "simple_binarized_poly"; "expanded_binarized";
   "common_fourier"; "common_fourier_rw"]%string.

Definition datepart_components : list string :=
  ["dayofweek"; "month"; "day"; "weekend"; "weekdayofmonth"; "hour";
   "daysinmonth"; "quarter"; "dayofyear"; "weekdaymonthofyear";
   "dayofmonthofyear"; "is_month_end"; "is_month_start"; "is_quarter_start";
   "is_quarter_end"; "days_from_epoch"]%string.

Definition origin_ts : Z := DT.timestamp 2030 1 1.

(** A column: its label and its cell for a timestamp. *)
Definition feature : Type := (string * (Z -> num))%type.

Definition frame_as (lay : layout) (cols : list feature) (DTindex : list Z) : DataFrame :=
  {| columns := map fst cols;
     values := map (fun ts => map (fun c => snd c ts) cols) DTindex;
     layout_of := lay |}.

Definition frame : list feature -> list Z -> DataFrame := frame_as Table.

Definition int_col (name : string) (f : Z -> Z) : feature :=
  (name, fun ts => Z_num (f ts)).
Definition flag_col (name : string) (f : Z -> bool) : feature :=
  (name, fun ts => if f ts then Fin 1 else Fin 0).
Definition float_col (name : string) (f : Z -> Q) : feature :=
  (name, fun ts => Fin (f ts)).

(** [list(range(a, b))]. *)
Definition range (a b : Z) : list Z :=
  map (fun i => (a + Z.of_nat i)%Z) (seq 0 (Z.to_nat (b - a))).

(** [pd.get_dummies] of [pd.Categorical(f(DTindex), categories=cats)]: one
    column per category of the fixed domain, labelled [prefix_category]; a
    value outside the domain has no category and sets no column. *)
Definition get_dummies (prefix : string) (cats : list Z) (f : Z -> Z) : list feature :=
  map (fun c => ((prefix ++ "_" ++ str_Z c)%string,
                 fun ts => if (f ts =? c)%Z then Fin 1 else Fin 0)) cats.

Definition get_dummies_str (prefix : string) (cats : list string) (f : Z -> string)
  : list feature :=
  map (fun c => ((prefix ++ "_" ++ c)%string,
                 fun ts => if String.eqb (f ts) c then Fin 1 else Fin 0)) cats.

(** [.unique()] and [~columns.duplicated()]: first occurrences, in order. *)
Fixpoint unique_from (seen l : list string) : list string :=
  match l with
  | [] => []
  | x :: l' =>
      if str_in x seen then unique_from seen l'
      else x :: unique_from (x :: seen) l'
  end.

Definition weekend (ts : Z) : bool := (4 <? DT.weekday ts)%Z.
Definition midyear (ts : Z) : bool :=
  ((74 <? DT.dayofyear ts) && (DT.dayofyear ts <? 258))%Z.
Definition weekdayofmonth (ts : Z) : Z := ((DT.day ts - 1) / 7 + 1)%Z.

(** [int(str(weekdayofmonth) + str(weekday))], capped at 50. *)
Definition monweek (ts : Z) : Z :=
  let v := (10 * weekdayofmonth ts + DT.weekday ts)%Z in
  if (v <=? 50)%Z then v else 50%Z.

Definition month_monweek (ts : Z) : string :=
  (str_Z (DT.month ts) ++ str_Z (monweek ts))%string.
Definition month_day (ts : Z) : string :=
  (str_Z (DT.month ts) ++ str_Z (DT.day ts))%string.

(** [pd.date_range("2020-01-01", "2021-01-01", freq='D')]. *)
Definition cat_index : list Z := DT.date_range (DT.timestamp 2020 1 1) 367.

(** [DataFrame.round(6)]: half to even on the sixth decimal. *)
Definition round_half_even (q : Q) : Z :=
  let f := Qfloor q in
  let r := q - inject_Z f in
  if Qltb r (1 # 2) then f
  else if Qltb (1 # 2) r then (f + 1)%Z
  else if Z.even f then f else (f + 1)%Z.

Definition round6 (x : num) : num :=
  match x with
  | Fin q => Fin (inject_Z (round_half_even (q * 1000000)) / 1000000)
  | _ => x
  end.

Section Encoder.
Context `{Numpy} `{Collaborators}.

Definition ncos (x : num) : num :=
  match x with Fin q => Fin (np_cos q) | _ => NaN end.
Definition nsin (x : num) : num :=
  match x with Fin q => Fin (np_sin q) | _ => NaN end.

(** One row of [fourier_series(t, p, n)]: the cos block, then the sin
    block, of [2 pi j / p * t] for [j = 1..n]. *)
Definition fourier_series_row (t p : num) (n : nat) : list num :=
  let x := map (fun j => nmul (ndiv (Fin (2 * np_pi * inject_Z (Z.of_nat j))) p) t)
               (seq 1 n) in
  map ncos x ++ map nsin x.

Definition fourier_series (t : list num) (p : num) (n : nat) : list (list num) :=
  map (fun ti => fourier_series_row ti p n) t.

(** [(DTindex - pd.Timestamp(origin_ts)).days]. *)
Definition days_from_origin (ts : Z) : num := Z_num (DT.days (ts - origin_ts)).

(** [fourier_df]; [label] is the rendering of [seasonality] in the column
    names. [history_days] is the [.days] of the span of the index, which is
    [nan] for an empty index. [seasonality / history_days] divides two Python
    numbers: a zero divisor raises. *)
Definition fourier_df (DTindex : list Z) (seasonality : Q) (label : string)
    (order : nat) (t : option (list num)) (history_days : option Z)
  : result DataFrame :=
  let history_days : num :=
    match history_days with
    | None =>
        match DTindex with
        | [] => NaN
        | _ => Z_num (DT.days (DT.max DTindex - DT.min DTindex))
        end
    | Some h => Z_num h
    end in
  let t :=
    match t with
    | None => map days_from_origin DTindex
    | Some t => t
    end in
  if nis_zero history_days then Raise ZeroDivisionError
  else
    Ok {| columns := map (fun x => ("seasonality" ++ label ++ "_" ++ str_nat x)%string)
                         (seq 0 (2 * order));
          values := fourier_series t (ndiv (Fin seasonality) history_days) order;
          layout_of := Table |}.

(** [create_datepart_components]: single date part one-hot flags. *)
Definition create_datepart_components (DTindex : list Z) (seasonality : string)
  : result DataFrame :=
  let dummies := get_dummies seasonality in
  if String.eqb seasonality "dayofweek" then
    Ok (frame (dummies (range 0 7) DT.weekday) DTindex)
  else if String.eqb seasonality "month" then
    Ok (frame (dummies (range 1 13) DT.month) DTindex)
  else if String.eqb seasonality "day" then
    Ok (frame (dummies (range 1 32) DT.day) DTindex)
  else if String.eqb seasonality "weekend" then
    Ok (frame [flag_col "weekend" weekend] DTindex)
  else if String.eqb seasonality "weekdayofmonth" then
    Ok (frame (dummies (range 1 6) weekdayofmonth) DTindex)
  else if String.eqb seasonality "weekdaymonthofyear" then
    let cats := unique_from [] (map month_monweek cat_index) in
    Ok (frame (get_dummies_str seasonality cats month_monweek) DTindex)
  else if String.eqb seasonality "dayofmonthofyear" then
    let cats := unique_from [] (map month_day cat_index) in
    Ok (frame (get_dummies_str seasonality cats month_day) DTindex)
  else if String.eqb seasonality "hour" then
    Ok (frame (dummies (range 1 25) DT.hour) DTindex)
  else if String.eqb seasonality "daysinmonth" then
    Ok (frame [int_col "daysinmonth" DT.daysinmonth] DTindex)
  else if String.eqb seasonality "quarter" then
    Ok (frame (dummies (range 1 5) DT.quarter) DTindex)
  else if String.eqb seasonality "dayofyear" then
    Ok (frame (dummies (range 1 367) DT.dayofyear) DTindex)
  else if String.eqb seasonality "is_month_end" then
    Ok (frame_as BoolTable [flag_col "is_month_end" DT.is_month_end] DTindex)
  else if String.eqb seasonality "is_month_start" then
    Ok (frame_as BoolTable [flag_col "is_month_start" DT.is_month_start] DTindex)
  else if String.eqb seasonality "is_quarter_start" then
    Ok (frame_as BoolTable [flag_col "is_quarter_start" DT.is_quarter_start] DTindex)
  else if String.eqb seasonality "is_quarter_end" then
    Ok (frame_as BoolTable [flag_col "is_quarter_end" DT.is_quarter_end] DTindex)
  else if String.eqb seasonality "days_from_epoch" then
    Ok (frame_as IndexSeries
          [int_col "0" (fun ts => DT.days (ts - DT.timestamp 2000 1 1))] DTindex)
  else Raise ValueError.

Definition month_dummies : list feature := get_dummies "month" (range 1 13) DT.month.
Definition weekday_dummies : list feature := get_dummies "weekday" (range 0 7) DT.weekday.
Definition epoch_julian : feature := float_col "epoch" DT.to_julian_date.

(** A block of [seasonal_list]: its number of columns and its rows. *)
Definition block : Type := (nat * (Z -> list num))%type.

Definition fourier_block (t : Z -> num) (p : Q) (n : nat) : block :=
  ((2 * n)%nat, fun ts => fourier_series_row (t ts) (Fin p) n).

(** Elementwise product of two blocks of the same width. *)
Definition block_product (f g : block) : block :=
  (fst f, fun ts => map2 nmul (snd f ts) (snd g ts)).

(** The "common_fourier" and "common_fourier_rw" branch. *)
Definition common_fourier (DTindex : list Z) (rw : bool) : DataFrame :=
  let DTmin := DT.min DTindex in
  let DTmax := DT.max DTindex in
  let seasonal_ratio : Q :=
    if (length DTindex <=? 1)%nat then 1
    else inject_Z (DT.days (DTmax - DTmin) + 1) / inject_Z (Z.of_nat (length DTindex)) in
  let t_hours := fun ts =>
    nadd (Z_num (DT.days (ts - origin_ts) * 24))
         (ndiv (Z_num (DT.minute (ts - origin_ts))) (Fin 60)) in
  let t := days_from_origin in
  let seasonal_list : list block :=
    if Qltb seasonal_ratio (75 # 100) then
      [fourier_block t_hours 8766 10;
       fourier_block t_hours 24 3;
       fourier_block t_hours 168 5;
       block_product (fourier_block t_hours 168 5) (fourier_block t_hours 24 5);
       block_product (fourier_block t_hours 168 3) (fourier_block t_hours 8766 3)]
    else if Qltb seasonal_ratio (35 # 10) then
      [fourier_block t (36525 # 100) 10;
       fourier_block t 7 3;
       block_product (fourier_block t 7 5) (fourier_block t (36525 # 100) 5)]
    else if Qltb seasonal_ratio 12 then
      [fourier_block t (36525 # 100) 10; fourier_block t 28 4]
    else if Qltb seasonal_ratio 182 then
      [fourier_block t (36525 # 100) 3; fourier_block t 1461 10]
    else
      [fourier_block t 1461 10] in
  let width := fold_right Nat.add 0%nat (map fst seasonal_list) in
  let epoch := fun ts =>
    Z_num (py_int (np_power (DT.to_julian_date ts) (65 # 100))) in
  {| columns :=
       map (fun x => ("seasonalitycommonfourier_" ++ str_nat x)%string) (seq 0 width)
       ++ (if rw then ["epoch"%string] else []);
     values :=
       map (fun ts =>
              map round6 (concat (map (fun b => snd b ts) seasonal_list))
              ++ (if rw then [epoch ts] else [])) DTindex;
     layout_of := Table |}.

Definition simple_cols : list feature :=
  [int_col "year" DT.year; int_col "month" DT.month;
   int_col "day" DT.day; int_col "weekday" DT.weekday].

Definition expanded_cols : list feature :=
  [int_col "hour" DT.hour; int_col "week" DT.isoweek;
   int_col "quarter" DT.quarter; int_col "dayofyear" DT.dayofyear;
   flag_col "midyear" midyear; flag_col "weekend" weekend;
   int_col "weekdayofmonth" weekdayofmonth;
   flag_col "month_end" DT.is_month_end; flag_col "month_start" DT.is_month_start;
   flag_col "quarter_end" DT.is_quarter_end; flag_col "year_end" DT.is_year_end;
   int_col "daysinmonth" DT.daysinmonth;
   int_col "epoch" (fun ts => (ts - 946684800000000000)%Z);
   flag_col "us_election_year" (fun ts => (DT.year ts mod 4 =? 0)%Z)].

(** The chain of branches of [date_part] for a name (lines 118-318). *)
Definition date_part_named (DTindex : list Z) (method : string) : result DataFrame :=
  if str_in method datepart_components then
    create_datepart_components DTindex method
  else if String.eqb method "recurring" then
    Ok (frame [int_col "month" DT.month; int_col "day" DT.day;
               int_col "weekday" DT.weekday; flag_col "weekend" weekend;
               int_col "hour" DT.hour; int_col "quarter" DT.quarter;
               flag_col "midyear" midyear] DTindex)
  else if str_in method ["simple_2"; "simple_2_poly"]%string then
    Ok (frame [int_col "month" DT.month; int_col "day" DT.day;
               int_col "weekday" DT.weekday; flag_col "weekend" weekend;
               float_col "epoch" (fun ts => inject_Z ts / 100000000000)] DTindex)
  else if str_in method ["simple_3"; "lunar_phase"]%string then
    let df := frame ([flag_col "weekend" weekend; int_col "quarter" DT.quarter;
                      epoch_julian] ++ month_dummies ++ weekday_dummies) DTindex in
    if String.eqb method "lunar_phase" then
      Ok {| columns := columns df ++ ["phase"%string];
            values := map2 (fun r ph => r ++ [ph]) (values df) (moon_phase DTindex);
            layout_of := Table |}
    else Ok df
  else if is_substring "simple_binarized" method then
    Ok (frame ([int_col "day" DT.day; flag_col "weekend" weekend; epoch_julian]
               ++ month_dummies ++ weekday_dummies) DTindex)
  else if is_substring method "expanded_binarized" then
    Ok (frame ([flag_col "weekend" weekend; int_col "quarter" DT.quarter; epoch_julian]
               ++ month_dummies ++ weekday_dummies
               ++ get_dummies "day" (range 1 32) DT.day
               ++ get_dummies "weekdayofmonth" (range 1 6) weekdayofmonth) DTindex)
  else if str_in method ["common_fourier"; "common_fourier_rw"]%string then
    Ok (common_fourier DTindex (String.eqb method "common_fourier_rw"))
  else
    (* method == "simple" *)
    if String.eqb method "expanded" then
      Ok (frame (simple_cols ++ expanded_cols) DTindex)
    else Ok (frame simple_cols DTindex).

(** The labels of [pd.concat(all_seas, axis=1)]: a frame brings its
    columns, a [pd.Series] without a name (the date part "days_from_epoch"
    of an index that has no name) gets the count of the unnamed series
    before it: 0, 1, ... *)
Fixpoint concat_labels (unnamed : nat) (all_seas : list DataFrame) : list string :=
  match all_seas with
  | [] => []
  | df :: rest =>
      match layout_of df with
      | IndexSeries => str_nat unnamed :: concat_labels (S unnamed) rest
      | _ => columns df ++ concat_labels unnamed rest
      end
  end.

(** [pd.concat(all_seas, axis=1)] of frames over the same index. *)
Definition concat_columns (n : nat) (all_seas : list DataFrame) : result DataFrame :=
  match all_seas with
  | [] => Raise ValueError
  | _ => Ok {| columns := concat_labels 0 all_seas;
               values := map (fun i => concat (map (fun df => nth i (values df) []) all_seas))
                             (seq 0 n);
               layout_of := Table |}
  end.

(** [df.loc[:, ~df.columns.duplicated()]]. *)
Definition drop_duplicated_columns (df : DataFrame) : DataFrame :=
  let keep := (fix go (seen : list string) (cols : list string) : list bool :=
                 match cols with
                 | [] => []
                 | c :: cols' => negb (str_in c seen) :: go (c :: seen) cols'
                 end) [] (columns df) in
  let pick := fun {A : Type} (l : list A) =>
    map snd (filter fst (combine keep l)) in
  {| columns := pick (columns df);
     values := map (fun r => pick r) (values df);
     layout_of := layout_of df |}.

(** Lines 320-344 of [date_part]: the polynomial expansion and the
    holiday flags. [PolynomialFeatures.fit_transform] wants a 2-D input and
    raises ValueError on the 1-D date part "days_from_epoch", which is still
    a [pd.Index] when it is handed over. *)
Definition date_part_finish (DTindex : list Z) (date_part_df : DataFrame)
    (set_index : bool) (polynomial_degree : option nat)
    (holiday_country : option string) (holiday_countries_used : bool)
  : result DataFrame :=
  date_part_df <-
    match polynomial_degree with
    | Some degree =>
        match layout_of date_part_df with
        | IndexSeries => Raise ValueError
        | _ =>
            let df := polynomial_features degree date_part_df in
            Ok {| columns := map (fun x => ("dp" ++ x)%string) (columns df);
                  values := values df;
                  layout_of := Table |}
        end
    | None => Ok date_part_df
    end ;;
  match holiday_country with
  | Some country =>
      if holiday_countries_used
      then Ok (concat_holiday_flag date_part_df DTindex country set_index)
      else Ok date_part_df
  | None => Ok date_part_df
  end.

(** [date_part]. A list recurses on its items and concatenates; a name
    holding "_poly" loses it and sets [polynomial_degree = 2]; then the
    chain on the kind of [method]. *)
Fixpoint date_part (DTindex : list Z) (method : scheme) (set_index : bool)
    (polynomial_degree : option nat) (holiday_country : option string)
    (holiday_countries_used : bool) {struct method} : result DataFrame :=
  let finish := fun df degree =>
    date_part_finish DTindex df set_index degree holiday_country
                     holiday_countries_used in
  match method with
  | SList l =>
      all_seas <-
        (fix each (l : list scheme) : result (list DataFrame) :=
           match l with
           | [] => Ok []
           | seas :: l' =>
               df <- date_part DTindex seas true None None true ;;
               dfs <- each l' ;;
               Ok (df :: dfs)
           end) l ;;
      date_part_df <- concat_columns (length DTindex) all_seas ;;
      finish (drop_duplicated_columns date_part_df) polynomial_degree
  | SInt z =>
      date_part_df <- fourier_df DTindex (inject_Z z) (str_Z z) 6 None None ;;
      finish date_part_df polynomial_degree
  | SFloat q =>
      date_part_df <- fourier_df DTindex q (float_repr q) 6 None None ;;
      finish date_part_df polynomial_degree
  | SStr name =>
      let '(name, polynomial_degree) :=
        if is_substring "_poly" name
        then (replace "_poly" "" name, Some 2%nat)
        else (name, polynomial_degree) in
      date_part_df <- date_part_named DTindex name ;;
      finish date_part_df polynomial_degree
  end.

(** What [create_seasonality_feature] hands back: a frame, or, on its last
    branch, an exception object that is returned and not raised. *)
Inductive returned : Type :=
| RFrame (df : DataFrame)
| RException (e : exn).

Definition create_seasonality_feature (DTindex : list Z) (t : list num)
    (seasonality : scheme) (history_days : option Z) : result returned :=
  match seasonality with
  | SInt z =>
      df <- fourier_df DTindex (inject_Z z) (str_Z z) 10 (Some t) history_days ;;
      Ok (RFrame df)
  | SFloat q =>
      df <- fourier_df DTindex q (float_repr q) 10 (Some t) history_days ;;
      Ok (RFrame df)
  | SStr name =>
      if str_in name datepart_components then
        df <- create_datepart_components DTindex name ;; Ok (RFrame df)
      else if str_in name date_part_methods then
        df <- date_part DTindex seasonality false None None true ;; Ok (RFrame df)
      else Ok (RException ValueError)
  | SList _ =>
      (* a list is in neither list of names *)
      Ok (RException ValueError)
  end.
End Encoder.

(* ================================================================== *)
(** * The matching engines, on encoded feature matrices *)
(* ================================================================== *)

Section Engines.
Context `{Numpy}.

Definition min_k : nat := 5.

(** [to_numpy()] of a [pd.Series] is 1-D: indexing it with two axes, or
    reducing it along axis 2, raises. *)
Definition check_2d (array : DataFrame) : result unit :=
  match layout_of array with
  | IndexSeries => Raise IndexError
  | _ => Ok tt
  end.

(** numpy has no subtraction on boolean arrays. *)
Definition check_numeric (array : DataFrame) : result unit :=
  match layout_of array with
  | BoolTable => Raise TypeError
  | _ => Ok tt
  end.

(** Top-k selector, lines 585-589 and 652-656: [np.argsort(scores)[:k]] or
    [np.argpartition(scores, k - 1)[:k]]. *)
Definition top_k (scores : list num) (k : nat) (full_sort : bool) : result (list nat) :=
  if full_sort then Ok (firstn k (argsort scores))
  else p <- np_argpartition scores (Z.of_nat k - 1) ;; Ok (firstn k p).

(** [np.where(test >= len(DTindex), -1, test)]. *)
Definition fill_over_end (len_DTindex : nat) (test : list (list Z)) : list (list Z) :=
  map (map (fun v => if (Z.of_nat len_DTindex <=? v)%Z then (-1)%Z else v)) test.

(** [arange(forecast_length)[..., None] + min_idx + window_size]. *)
Definition window_offsets (forecast_length window_size : nat) (min_idx : list nat)
  : list (list Z) :=
  map (fun step => map (fun c => Z.of_nat (step + c + window_size)) min_idx)
      (seq 0 forecast_length).

(** The scores of the window engine: each window of [temp], of shape
    (features, window_size), against [last_window.T], reduced along axis 2. *)
Definition window_scores (metric : list num -> list num -> num)
    (temp : list (list (list num))) (last_window_T : list (list num))
  : list (list num) :=
  map (fun window => map2 metric window last_window_T) temp.

(** [seasonal_window_match] from line 547 on; [array] is the encoded
    history and [len_DTindex] is [len(DTindex)]. *)
Definition seasonal_window_match_array
    (array : DataFrame) (len_DTindex k window_size forecast_length : nat)
    (distance_metric : string) (full_sort : bool)
  : result (list (list Z) * list (list num)) :=
  let n_tail :=
    if (min_k <? k)%nat then Nat.min window_size forecast_length
    else forecast_length in
  _ <- check_2d array ;;
  temp <- sliding_window_view (slice_drop_last n_tail (values array))
                              (ncols array) window_size ;;
  let last_window_T := transpose (ncols array) (slice_last window_size (values array)) in
  metric <- select_metric distance_metric window_size ;;
  _ <- check_numeric array ;;
  let scores := window_scores metric temp last_window_T in
  min_idx <- top_k (map nmean scores) k full_sort ;;
  let test := window_offsets forecast_length window_size min_idx in
  let test := if (min_k <? k)%nat then fill_over_end len_DTindex test else test in
  Ok (test, scores).

(** numpy broadcasting of the last axis of [a[:, None]] against [b]. *)
Definition broadcast_len (Fa Fb : nat) : result nat :=
  if (Fa =? Fb)%nat then Ok Fa
  else if (Fa =? 1)%nat then Ok Fb
  else if (Fb =? 1)%nat then Ok Fa
  else Raise ValueError.

Definition stretch (F : nat) (row : list num) : list num :=
  if (length row =? F)%nat then row else repeat (nth 0 row NaN) F.

(** The scores of the independent engine: [a[:, None]] against [b], reduced
    along axis 2, the feature axis. *)
Definition pairwise_scores (metric : list num -> list num -> num) (F : nat)
    (a b : list (list num)) : list (list num) :=
  map (fun row_a => map (fun row_b => metric (stretch F row_a) (stretch F row_b)) b) a.

(** [seasonal_independent_match] from line 615 on; [array] and
    [future_array] are the encoded history and future. *)
Definition seasonal_independent_match_array
    (array future_array : DataFrame) (len_DTindex k : nat)
    (distance_metric : string) (full_sort : bool) (nan_array : option (list bool))
  : result (list (list Z) * list (list num)) :=
  array <- match nan_array with
           | Some mask => set_rows_inf array mask
           | None => Ok array
           end ;;
  let a := values array in
  let b := values future_array in
  F <- broadcast_len (ncols array) (ncols future_array) ;;
  metric <- select_metric distance_metric F ;;
  _ <- check_2d array ;;
  _ <- check_numeric array ;;
  let scores := pairwise_scores metric F a b in
  (* argsort / argpartition along axis 0, one column per future row;
     [test = min_idx.T] *)
  min_idx_T <- (if full_sort then
                  Ok (map (fun f => firstn k (argsort (column f scores)))
                          (seq 0 (length b)))
                else
                  kth <- check_kth (length a) (Z.of_nat k - 1) ;;
                  Ok (map (fun f => firstn k (argpartition (column f scores) kth))
                          (seq 0 (length b)))) ;;
  let test := map (map Z.of_nat) min_idx_T in
  let test := if (min_k <? k)%nat then fill_over_end len_DTindex test else test in
  Ok (test, scores).

Context `{Collaborators}.

(** [seasonal_window_match]. *)
Definition seasonal_window_match
    (DTindex : list Z) (k window_size forecast_length : nat)
    (datepart_method : scheme) (distance_metric : string) (full_sort : bool)
  : result (list (list Z) * list (list num)) :=
  array <- date_part DTindex datepart_method true None None true ;;
  seasonal_window_match_array array (length DTindex) k window_size forecast_length
                              distance_metric full_sort.

(** [seasonal_independent_match]. *)
Definition seasonal_independent_match
    (DTindex DTindex_future : list Z) (k : nat)
    (datepart_method : scheme) (distance_metric : string) (full_sort : bool)
    (nan_array : option (list bool))
  : result (list (list Z) * list (list num)) :=
  array <- date_part DTindex datepart_method true None None true ;;
  array <- match nan_array with
           | Some mask => set_rows_inf array mask
           | None => Ok array
           end ;;
  future_array <- date_part DTindex_future datepart_method true None None true ;;
  seasonal_independent_match_array array future_array (length DTindex) k
                                   distance_metric full_sort None.
End Engines.

(* ================================================================== *)
(** * Two implementations of the numpy interface *)
(* ================================================================== *)

(** Insertion sort of indices; [before i j] decides whether the inserted
    index [i] goes in front of [j]. *)
Fixpoint insert_by {A : Type} (before : A -> A -> bool) (i : A) (l : list A) : list A :=
  match l with
  | [] => [i]
  | j :: l' => if before i j then i :: j :: l' else j :: insert_by before i l'
  end.

Definition sort_by {A : Type} (before : A -> A -> bool) (l : list A) : list A :=
  fold_right (insert_by before) [] l.

(** A stable argsort ([kind="stable"]): among equal items the smaller index
    comes first. *)
Definition argsort_stable (s : list num) : list nat :=
  sort_by (fun i j => num_le (key s i) (key s j)) (seq 0 (length s)).


Definition sort_values (l : list num) : list num := sort_by num_le l.

(** Rational stand-ins for the transcendental functions: Taylor polynomials
    and four Heron steps. No statement below depends on their accuracy. *)
Definition cos_approx (x : Q) : Q := 1 - x * x / 2 + x * x * x * x / 24.
Definition sin_approx (x : Q) : Q := x - x * x * x / 6.
Definition sqrt_approx (x : Q) : Q :=
  if Qeqb x 0 then 0
  else
    let step := fun r : Q => Qred ((r + x / r) / 2) in
    step (step (step (step x))).
Definition power_approx (x y : Q) : Q := 1 + y * (x - 1).

Definition numpy_stable : Numpy := {|
  np_pi := 3141592653589793 # 1000000000000000;
  np_cos := cos_approx;
  np_sin := sin_approx;
  np_sqrt := sqrt_approx;
  np_power := power_approx;
  argsort := argsort_stable;
  argpartition := fun s _ => argsort_stable s;
  partition := fun l _ => sort_values l
|}.

(** Collaborators that contribute nothing: no moon phase, no polynomial
    expansion, no holiday columns. *)
Definition no_collaborators : Collaborators := {|
  float_repr := fun q => (str_Z (Qnum q) ++ "/" ++ str_Z (Zpos (Qden q)))%string;
  moon_phase := fun DTindex => map (fun _ => Fin 0) DTindex;
  polynomial_features := fun _ df => df;
  concat_holiday_flag := fun df _ _ _ => df
|}.

(* ================================================================== *)
(** * Predicates used in the statements *)
(* ================================================================== *)

(** [l] is ordered by [R]: every item relates to all later ones. *)
Inductive ordered {A : Type} (R : A -> A -> Prop) : list A -> Prop :=
| ordered_nil : ordered R []
| ordered_cons : forall i l, Forall (R i) l -> ordered R l -> ordered R (i :: l).

(** [out] holds [k] distinct indices of [s], and no index left out scores
    less than one of them: the indices of [k] smallest scores. *)
Definition k_smallest (s : list num) (k : nat) (out : list nat) : Prop :=
  length out = k /\ NoDup out /\ Forall (fun i => (i < length s)%nat) out /\
  forall i j, In i out -> (j < length s)%nat -> ~ In j out ->
    num_le (key s i) (key s j) = true.

(** The scores are non-decreasing along [out]. *)
Definition score_ordered (s : list num) (out : list nat) : Prop :=
  ordered (fun i j => num_le (key s i) (key s j) = true) out.

(** Among equal scores the smaller original index comes first. *)
Definition ties_by_index (s : list num) (out : list nat) : Prop :=
  forall a b, (a < b < length out)%nat ->
    num_le (key s (nth b out 0%nat)) (key s (nth a out 0%nat)) = true ->
    (nth a out 0 < nth b out 0)%nat.

(** No score left out of [out] equals a score inside it. *)
Definition no_boundary_tie (s : list num) (out : list nat) : Prop :=
  forall i j, In i out -> (j < length s)%nat -> ~ In j out ->
    num_lt (key s i) (key s j) = true.

(** The full-sort selector as the specification words it: the [k] smallest
    scores, in non-decreasing order, ties in index order, for every index
    array that [np.argsort] may return. *)
Definition full_sort_stable_claim : Prop :=
  forall (s : list num) (p : list nat) (k : nat),
    argsort_spec s p -> (k <= length s)%nat ->
    k_smallest s k (firstn k p) /\ score_ordered s (firstn k p) /\
    ties_by_index s (firstn k p).

(** The two selectors as the specification words it: the same multiset of
    indices, for every pair of index arrays that [np.argsort] and
    [np.argpartition] may return. *)
Definition partial_equals_full_claim : Prop :=
  forall (s : list num) (psort ppart : list nat) (k : nat),
    (1 <= k <= length s)%nat ->
    argsort_spec s psort -> argpartition_spec s (k - 1) ppart ->
    Permutation (firstn k ppart) (firstn k psort).

(** A boolean check that [p] is a reordering of [0 .. n-1]. *)
Definition is_index_perm (n : nat) (p : list nat) : bool :=
  (length p =? n)%nat && forallb (fun i => existsb (Nat.eqb i) p) (seq 0 n).

(** The finite value of a cell, and sums of rationals. *)
Definition qval (x : num) : Q :=
  match x with Fin q => q | _ => 0 end.

Fixpoint Qsum (l : list Q) : Q :=
  match l with
  | [] => 0
  | x :: l' => x + Qsum l'
  end.

Definition Qlen {A : Type} (l : list A) : Q := inject_Z (Z.of_nat (length l)).

(** The part of [x - t] below zero. *)
Definition below (t x : Q) : Q := if Qle_bool x t then x - t else 0.

(** The trimmed mean as the specification words it: the mean of the lowest
    [ceil(0.85 F)] values, at least one. *)
Definition mean_lowest (keep : nat) (ae : list num) : num :=
  nmean (firstn keep (sort_values ae)).

Definition keep_ceil (F : nat) : nat :=
  Nat.max 1 (Z.to_nat (Qceiling (inject_Z (Z.of_nat F) * mqae_q))).

(** The same with the count the code computes, [int(0.85 F)]. *)
Definition keep_floor (F : nat) : nat :=
  Nat.max 1 (Z.to_nat (Qfloor (inject_Z (Z.of_nat F) * mqae_q))).

(** Two slices that a metric can reduce: finite, of the same non-zero
    length. *)
Definition reducible (a b : list num) : Prop :=
  length a = length b /\ (1 <= length a)%nat /\ Forall is_fin a /\ Forall is_fin b.

Definition mqae_ceil_claim : Prop :=
  forall (N : Numpy), NumpySpec N ->
  forall a b : list num,
    reducible a b ->
    num_eqv (mqae a b) (mean_lowest (keep_ceil (length a)) (abs_diff a b)).

(** All cells of a frame are finite. *)
Definition finite_frame (df : DataFrame) : Prop :=
  Forall (Forall is_fin) (values df).




(** A cell of an offset matrix is the sentinel or an index into the history. *)
Definition sentinel_or_index (len : nat) (v : Z) : Prop :=
  (v = -1 \/ 0 <= v < Z.of_nat len)%Z.

Definition index_in_history (len : nat) (v : Z) : Prop :=
  (0 <= v < Z.of_nat len)%Z.

(** The small-k half of the sentinel rule as the specification words it:
    with [k <= 5] some call returns an offset at or past the end of history. *)
Definition small_k_out_of_range_claim : Prop :=
  exists (N : Numpy) (_ : NumpySpec N) (array : DataFrame)
         (k window_size forecast_length : nat) (distance_metric : string)
         (full_sort : bool) (test : list (list Z)) (scores : list (list num)),
    (k <= min_k)%nat /\
    seasonal_window_match_array array (length (values array)) k window_size
                                forecast_length distance_metric full_sort
      = Ok (test, scores) /\
    Exists (Exists (fun v => (Z.of_nat (length (values array)) <= v)%Z)) test.

(** A history of eight rows with the single feature 0, 1, ..., 7. *)
Definition ramp8 : DataFrame :=
  {| columns := ["f"%string];
     values := map (fun i => [nat_num i]) (seq 0 8);
     layout_of := Table |}.





(** The scheme names the encoder enumerates. *)
Definition enumerated_names : list string := date_part_methods ++ datepart_components.

(** The failure rule as the specification words it: a name outside the
    enumeration raises a configuration error. *)
Definition unknown_name_raises_claim : Prop :=
  forall (N : Numpy) (C : Collaborators) (DTindex : list Z) (name : string),
    DTindex <> [] -> str_in name enumerated_names = false ->
    date_part DTindex (SStr name) true None None true = Raise ValueError.

(** A scheme that is a number. *)
Definition is_numeric (method : scheme) : Prop :=
  match method with
  | SInt _ | SFloat _ => True
  | _ => False
  end.

(** The score of a masked history row under each metric. *)
Definition masked_score (m : metric) : num :=
  match m with
  | Canberra => NaN
  | _ => PInf
  end.

(** The indices of the history rows that the mask leaves in. *)
Definition unmasked_rows (mask : list bool) : list nat :=
  filter (fun h => negb (nth h mask false)) (seq 0 (length mask)).

(** The mask rule as the specification words it: every masked row scores
    [+inf] against every future row, under every metric. *)
Definition masked_row_inf_claim : Prop :=
  forall (N : Numpy), NumpySpec N ->
  forall (array future_array : DataFrame) (k : nat) (distance_metric : string)
         (full_sort : bool) (mask : list bool)
         (test : list (list Z)) (scores : list (list num)),
    rectangular array -> rectangular future_array ->
    ncols array = ncols future_array -> (1 <= ncols array)%nat ->
    finite_frame array -> finite_frame future_array ->
    seasonal_independent_match_array array future_array (length (values array)) k
                                     distance_metric full_sort (Some mask)
      = Ok (test, scores) ->
    forall h j, nth h mask false = true ->
      (h < length (values array))%nat -> (j < length (values future_array))%nat ->
      nth j (nth h scores []) NaN = PInf.

(** Two history rows, the first one masked, and one future row. *)
Definition two_rows : DataFrame :=
  {| columns := ["f"%string]; values := [[Fin 1]; [Fin 2]]; layout_of := Table |}.

Definition one_row : DataFrame :=
  {| columns := ["f"%string]; values := [[Fin 1]]; layout_of := Table |}.




(* ================================================================== *)
(** * Predicates for the properties of the metrics and of the selection *)
(* ================================================================== *)

(** A finite cell between 0 and 1. *)
Definition in_unit_interval (x : num) : Prop :=
  exists q, x = Fin q /\ 0 <= q <= 1.

(** A finite cell that is not negative, and is zero exactly when [P] holds. *)
Definition zero_exactly_when (P : Prop) (x : num) : Prop :=
  exists q, x = Fin q /\ 0 <= q /\ (q == 0 <-> P).

(** The four metrics that are a mean or a maximum of per-feature terms which
    vanish only on equal features. *)
Definition separating (m : metric) : bool :=
  match m with
  | Mae | Canberra | Chebyshev | Mse => true
  | _ => false
  end.

(** A history and a future encoded by the same scheme into 2-D numeric
    arrays with at least one feature. *)
Definition aligned (array future_array : DataFrame) : Prop :=
  layout_of array = Table /\ ncols array = ncols future_array /\
  (1 <= ncols array)%nat.

(** The same, with every row complete and every cell finite. *)
Definition comparable (array future_array : DataFrame) : Prop :=
  aligned array future_array /\
  rectangular array /\ rectangular future_array /\
  finite_frame array /\ finite_frame future_array.

(** The row mask, when there is one, has one entry per history row. *)
Definition mask_fits (array : DataFrame) (nan_array : option (list bool)) : Prop :=
  match nan_array with
  | Some mask => length mask = length (values array)
  | None => True
  end.

(** Three history rows 1, 2, 3 with one feature, for the future row 2. *)
Definition three_rows : DataFrame :=
  {| columns := ["f"%string]; values := [[Fin 1]; [Fin 2]; [Fin 3]]; layout_of := Table |}.

Definition future_row : DataFrame :=
  {| columns := ["f"%string]; values := [[Fin 2]]; layout_of := Table |}.

(* ================================================================== *)
(** * Auxiliary definitions for the properties of the encoder *)
(* ================================================================== *)

(** The prefixes and the substrings of a string, the empty one included. *)
Fixpoint prefixes (s : string) : list string :=
  match s with
  | EmptyString => [EmptyString]
  | String c s' => EmptyString :: map (String c) (prefixes s')
  end.

Fixpoint substrings (s : string) : list string :=
  prefixes s ++ match s with
                | EmptyString => []
                | String _ s' => substrings s'
                end.

(** The frame of the "expanded_binarized" branch of [date_part]. *)
Definition expanded_binarized_cols : list feature :=
  [flag_col "weekend" weekend; int_col "quarter" DT.quarter; epoch_julian]
  ++ month_dummies ++ weekday_dummies
  ++ get_dummies "day" (range 1 32) DT.day
  ++ get_dummies "weekdayofmonth" (range 1 6) weekdayofmonth.

(** The frame of the "simple_binarized" branch of [date_part], the default
    scheme of [seasonal_independent_match]. Its "epoch" column is a float, so
    that numpy holds the whole array as float64. *)
Definition simple_binarized_cols : list feature :=
  [int_col "day" DT.day; flag_col "weekend" weekend; epoch_julian]
  ++ month_dummies ++ weekday_dummies.

(** The layout of what a branch of the encoder returns. *)
Definition layout_returned (r : result DataFrame) : layout :=
  match r with
  | Ok df => layout_of df
  | Raise _ => Table
  end.

(** What keeps a name out of every branch of [date_part] that comes before
    the test [method in "expanded_binarized"]. *)
Definition reaches_expanded_binarized (name : string) : bool :=
  negb (is_substring "_poly" name)
  && negb (str_in name datepart_components)
  && negb (String.eqb name "recurring")
  && negb (str_in name ["simple_2"; "simple_2_poly"]%string)
  && negb (str_in name ["simple_3"; "lunar_phase"]%string)
  && negb (is_substring "simple_binarized" name).

(** The mask [~columns.duplicated()] computed by [drop_duplicated_columns],
    and the selection it makes in a row. *)
Fixpoint first_occurrence_mask (seen cols : list string) : list bool :=
  match cols with
  | [] => []
  | c :: cols' => negb (str_in c seen) :: first_occurrence_mask (c :: seen) cols'
  end.

Definition pick_mask {A : Type} (keep : list bool) (l : list A) : list A :=
  map snd (filter fst (combine keep l)).

(** Days of each month in a leap year. *)
Definition mdays_leap (m : Z) : Z :=
  nth (Z.to_nat (m - 1)) [31; 29; 31; 30; 31; 30; 31; 31; 30; 31; 30; 31]%Z 0%Z.

(** A one-hot row: a single cell is 1 and the others are 0. *)
Definition one_hot (r : list num) : Prop :=
  exists i, (i < length r)%nat /\
            forall j, (j < length r)%nat ->
                      nth j r NaN = if (j =? i)%nat then Fin 1 else Fin 0.

(** The one-hot date parts whose category domain covers every timestamp. *)
Definition covering_components : list string :=
  ["dayofweek"; "month"; "day"; "weekdayofmonth"; "quarter"; "dayofyear";
   "weekdaymonthofyear"; "dayofmonthofyear"]%string.

(** A block of the Fourier features whose rows have the announced width. *)
Definition well_sized `{Numpy} (b : block) : Prop :=
  forall ts, length (snd b ts) = fst b.

(** The widths of the "common_fourier" frame, from the hourly branch to the
    yearly one. *)
Definition common_fourier_widths : list nat := [52; 36; 28; 26; 20]%nat.

(* ================================================================== *)
(** * The random pickers *)
(* ================================================================== *)

(** The calls to [random] are answered from a list of draws, one natural
    number per call: [random.choices(population, weights)[0]] (all weights
    are positive) and [random.choice(population)] take the item at the draw
    modulo the size of the population, [random.randint(a, b)] takes [a] plus
    the draw modulo [b - a + 1]. A run that needs more draws than the list
    holds, or more calls than [fuel], gives [None]. *)
Definition choose {A : Type} (population : list A) (default : A) (draw : nat) : A :=
  nth (draw mod length population) population default.

Definition randint (a b : Z) (draw : nat) : Z :=
  (a + Z.of_nat draw mod (b - a + 1))%Z.

(** The keys of [prob_dict] in [seasonal_int]. *)
Definition seasonal_lags : list Z :=
  [-1; 1; 2; 4; 7; 10; 12; 24; 28; 60; 96; 168; 364; 1440; 420; 52; 84]%Z.

(** [while lag > 30: lag = seasonal_int(...)], for at most [n] rounds. *)
Fixpoint while_over (call : list nat -> option (Z * list nat)) (n : nat)
    (lag : Z) (draws : list nat) {struct n} : option (Z * list nat) :=
  if (30 <? lag)%Z then
    match n with
    | O => None
    | S n' =>
        match call draws with
        | None => None
        | Some (lag', draws') => while_over call n' lag' draws'
        end
    end
  else Some (lag, draws).

(** [seasonal_int]. *)
Fixpoint seasonal_int (fuel : nat) (include_one small very_small : bool)
    (draws : list nat) {struct fuel} : option (Z * list nat) :=
  match fuel with
  | O => None
  | S fuel' =>
      match draws with
      | [] => None
      | d :: draws =>
          let lag := choose seasonal_lags 0%Z d in
          let first :=
            if (lag =? -1)%Z then
              match draws with
              | [] => None
              | d' :: draws' => Some (randint 2 100 d', draws')
              end
            else Some (lag, draws) in
          match first with
          | None => None
          | Some (lag, draws) =>
              let second :=
                if negb include_one && (lag =? 1)%Z
                then seasonal_int fuel' include_one small very_small draws
                else Some (lag, draws) in
              match second with
              | None => None
              | Some (lag, draws) =>
                  let lag := if small then (if (lag <? 364)%Z then lag else 364%Z) else lag in
                  if very_small then
                    while_over (seasonal_int fuel' include_one false very_small)
                               fuel' lag draws
                  else Some (lag, draws)
              end
          end
      end
  end.

(** What the arguments of [seasonal_int] promise of its result. *)
Definition lag_within (include_one small very_small : bool) (lag : Z) : Prop :=
  (1 <= lag <= 1440)%Z /\
  (include_one = false -> (2 <= lag)%Z) /\
  (small = true -> (lag <= 364)%Z) /\
  (very_small = true -> (lag <= 30)%Z).

(** The options of [random_datepart], "other" included. *)
Definition datepart_options : list scheme :=
  [SStr "recurring"; SStr "simple"; SStr "expanded"; SStr "simple_2";
   SStr "simple_binarized"; SStr "expanded_binarized"; SStr "common_fourier";
   SStr "common_fourier_rw"; SStr "simple_poly";
   SList [SInt 7; SFloat (36525 # 100)];
   SList [SStr "dayofweek"; SFloat (36525 # 100)];
   SList [SStr "weekdayofmonth"; SStr "common_fourier"];
   SStr "other"].

Definition comp_opts : list scheme :=
  map SStr datepart_components ++ [SInt 7; SFloat (36525 # 100); SInt 12].

Definition is_other (s : scheme) : bool :=
  match s with
  | SStr name => String.eqb name "other"
  | _ => false
  end.

(** [random_datepart]; its argument [method] is not used. *)
Definition random_datepart (draws : list nat) : option (scheme * list nat) :=
  match draws with
  | [] => None
  | d :: draws =>
      let seasonalities := choose datepart_options (SStr "other") d in
      if is_other seasonalities then
        match draws with
        | [] => None
        | d1 :: draws =>
            let predefined := choose [true; false] true d1 in
            if predefined then
              match draws with
              | [] => None
              | d2 :: draws =>
                  Some (SList [SStr (choose date_part_methods "simple"%string d2)], draws)
              end
            else
              match draws with
              | d2 :: d3 :: draws =>
                  Some (SList [choose comp_opts (SInt 7) d2; choose comp_opts (SInt 7) d3],
                        draws)
              | _ => None
              end
        end
      else Some (seasonalities, draws)
  end.

(** A scheme that is a name or a number, and a scheme that [random_datepart]
    may return: such an item, or a non-empty list of them. *)
Definition flat_scheme (s : scheme) : Prop :=
  match s with
  | SList _ => False
  | _ => True
  end.

Definition drawable (s : scheme) : Prop :=
  is_other s = false /\
  (flat_scheme s \/ exists l, s = SList l /\ l <> [] /\ Forall flat_scheme l).

(* ================================================================== *)
(** * Forecast index and constraints ([autots/models/base.py]) *)
(* ================================================================== *)

Module Base.

(** The exceptions of this file: [AttributeError] is what Python raises for
    a method of [None] and for an attribute that was never assigned. *)
Inductive exn : Type :=
| ValueError
| AttributeError.

Inductive outcome (A : Type) : Type :=
| Return (a : A)
| Throw (e : exn).

Arguments Return {A} a.
Arguments Throw {A} e.

Definition and_then {A B : Type} (m : outcome A) (f : A -> outcome B) : outcome B :=
  match m with
  | Return a => f a
  | Throw e => Throw e
  end.

Notation "x <~ m ;; k" := (and_then m (fun x => k))
  (at level 61, m at next level, right associativity).

(** [lower_constraint] and [upper_constraint]: a float, or an array (or a
    [pd.Series]) with one entry per series. *)
Inductive bound : Type :=
| Float (x : num)
| Array (l : list num).

(** The calls into pandas and [autots.tools.shaping]. The statistics of the
    training frame have one cell per column; the training frame is taken to
    have the columns of the forecast, so that a [pd.Series] of thresholds
    meets the forecast column by column. *)
Class Pandas : Type := {
  (** [pd.date_range(freq=, start=, periods=)] *)
  date_range : string -> Z -> Z -> outcome (list Z);
  (** [infer_frequency(df.index)] *)
  infer_frequency : list Z -> string;
  (** [df.std(axis=0)], [df.mean(axis=0)], [df.min(axis=0)], [df.max(axis=0)] *)
  df_std : DataFrame -> list num;
  df_mean : DataFrame -> list num;
  df_min : DataFrame -> list num;
  df_max : DataFrame -> list num;
  (** [df.quantile(q, axis=0)] *)
  df_quantile : DataFrame -> bound -> outcome bound
}.

(** What is used of [pd.date_range]: with the daily frequency it counts
    [periods] days from [start], [start] included. *)
Class PandasSpec (P : Pandas) : Prop := {
  date_range_daily : forall start periods,
    (0 <= periods)%Z ->
    date_range "D" start periods = Return (DT.date_range start (Z.to_nat periods))
}.

(** ** [create_forecast_index] *)

Definition create_forecast_index `{Pandas} (frequency : string) (forecast_length : Z)
    (train_last_date : Z) (last_date : option Z) : outcome (list Z) :=
  if String.eqb frequency "infer" then Throw ValueError
  else
    idx <~ date_range frequency
             (match last_date with None => train_last_date | Some d => d end)
             (forecast_length + 1) ;;
    Return (tl idx).

(** ** [ModelObject] *)

(** A training frame: its [DatetimeIndex] and its columns. *)
Record Training : Type := {
  index : list Z;
  data : DataFrame
}.

(** The attributes that [basic_profile], [fit_data] and
    [create_forecast_index] read or assign; [None] is an attribute that has
    not been assigned yet. The clock ([startTime]) is left out. *)
Record ModelObject : Type := {
  name : string;
  frequency : string;
  train_shape : option (nat * nat);
  column_names : option (list string);
  train_last_date : option Z;
  regressor_train : option DataFrame
}.

(** [ModelObject(name, frequency)]. *)
Definition init (name frequency : string) : ModelObject :=
  {| name := name; frequency := frequency; train_shape := None; column_names := None;
     train_last_date := None; regressor_train := None |}.

(** [self.basic_profile(df)]: the object after the call. *)
Definition basic_profile `{Pandas} (self : ModelObject) (df : Training) : outcome ModelObject :=
  let shape := (length (index df), ncols (data df)) in
  if ((fst shape =? 0) || (snd shape =? 0))%nat then Throw ValueError
  else
    Return {| name := name self;
              frequency := if String.eqb (frequency self) "infer"
                           then infer_frequency (index df) else frequency self;
              train_shape := Some shape;
              column_names := Some (columns (data df));
              train_last_date := Some (last (index df) 0%Z);
              regressor_train := regressor_train self |}.

(** [self.create_forecast_index(forecast_length, last_date)]: the arguments
    of the call, [self.train_last_date] among them, are evaluated first. *)
Definition self_create_forecast_index `{Pandas} (self : ModelObject) (forecast_length : Z)
    (last_date : option Z) : outcome (list Z) :=
  match train_last_date self with
  | None => Throw AttributeError
  | Some d => create_forecast_index (frequency self) forecast_length d last_date
  end.

(** [self.fit_data(df, future_regressor)]. *)
Definition fit_data `{Pandas} (self : ModelObject) (df : Training)
    (future_regressor : option DataFrame) : outcome ModelObject :=
  self <~ basic_profile self df ;;
  Return (match future_regressor with
          | Some _ =>
              {| name := name self; frequency := frequency self;
                 train_shape := train_shape self; column_names := column_names self;
                 train_last_date := train_last_date self;
                 regressor_train := future_regressor |}
          | None => self
          end).

(** ** [apply_constraints] *)

(** [c * s] and [a - b], [a + b] on series of one training frame; an array
    of another length than the series is rejected. *)
Definition scale (c : bound) (s : list num) : outcome (list num) :=
  match c with
  | Float x => Return (map (nmul x) s)
  | Array l => if (length l =? length s)%nat then Return (map2 nmul l s) else Throw ValueError
  end.

(** The thresholds [train_min] and [train_max]; [None] stands for a name
    that is [None] or was not assigned, which is the case exactly when the
    constraint is [None]. *)
Definition thresholds `{Pandas} (constraint_method : string)
    (upper_constraint lower_constraint : option bound) (df_train : option DataFrame)
  : outcome (option bound * option bound) :=
  let spread (centre_min centre_max : DataFrame -> list num) :=
    match df_train with
    | None => Throw AttributeError
    | Some df =>
        let train_std := df_std df in
        train_min <~ match lower_constraint with
                     | None => Return None
                     | Some c => s <~ scale c train_std ;;
                                 Return (Some (Array (map2 nsub (centre_min df) s)))
                     end ;;
        train_max <~ match upper_constraint with
                     | None => Return None
                     | Some c => s <~ scale c train_std ;;
                                 Return (Some (Array (map2 nadd (centre_max df) s)))
                     end ;;
        Return (train_min, train_max)
    end in
  let quantile_of (c : option bound) :=
    match c with
    | None => Return None
    | Some q =>
        match df_train with
        | None => Throw AttributeError
        | Some df => t <~ df_quantile df q ;; Return (Some t)
        end
    end in
  if String.eqb constraint_method "stdev_min" then spread df_min df_max
  else if String.eqb constraint_method "stdev" then spread df_mean df_mean
  else if String.eqb constraint_method "absolute" then
    Return (lower_constraint, upper_constraint)
  else if String.eqb constraint_method "quantile" then
    train_min <~ quantile_of lower_constraint ;;
    train_max <~ quantile_of upper_constraint ;;
    Return (train_min, train_max)
  else Throw ValueError.

(** IEEE comparisons: false as soon as an operand is NaN. *)
Definition ge (x t : num) : bool :=
  match x, t with
  | NaN, _ | _, NaN => false
  | _, _ => negb (num_lt x t)
  end.

Definition le (x t : num) : bool := ge t x.

(** A cell under [clip(lower=t)] and [clip(upper=t)]: a missing cell stays
    missing, a missing threshold does not clip. *)
Definition clip_lower (t x : num) : num :=
  match x, t with
  | NaN, _ | _, NaN => x
  | _, _ => if num_lt x t then t else x
  end.

Definition clip_upper (t x : num) : num :=
  match x, t with
  | NaN, _ | _, NaN => x
  | _, _ => if num_lt t x then t else x
  end.

(** A cell under [where(x >= t, x + (t - x) * r)] and under
    [where(x <= t, x + (t - x) * r)]. *)
Definition where_ge (r : Q) (t x : num) : num :=
  if ge x t then x else nadd x (nmul (nsub t x) (Fin r)).

Definition where_le (r : Q) (t x : num) : num :=
  if le x t then x else nadd x (nmul (nsub t x) (Fin r)).

(** The threshold of each column: a float serves every column, an array
    must have one entry per column. *)
Definition per_column (df : DataFrame) (t : bound) : outcome (list num) :=
  match t with
  | Float x => Return (repeat x (ncols df))
  | Array l => if (length l =? ncols df)%nat then Return l else Throw ValueError
  end.

(** One adjustment of a frame, column by column; nothing is done for a
    constraint that is [None]. *)
Definition adjust (f : num -> num -> num) (t : option bound) (df : DataFrame)
  : outcome DataFrame :=
  match t with
  | None => Return df
  | Some t =>
      ts <~ per_column df t ;;
      Return {| columns := columns df;
                values := map (fun row => map2 f ts row) (values df);
                layout_of := layout_of df |}
  end.

Definition apply_constraints `{Pandas} (forecast lower_forecast upper_forecast : DataFrame)
    (constraint_method : string) (constraint_regularization : Q)
    (upper_constraint lower_constraint : option bound) (bounds : bool)
    (df_train : option DataFrame) : outcome (DataFrame * DataFrame * DataFrame) :=
  t <~ thresholds constraint_method upper_constraint lower_constraint df_train ;;
  let (train_min, train_max) := t in
  let (below, above) :=
    if Qeq_bool constraint_regularization 1 then (clip_lower, clip_upper)
    else (where_ge constraint_regularization, where_le constraint_regularization) in
  forecast <~ adjust below train_min forecast ;;
  forecast <~ adjust above train_max forecast ;;
  if bounds then
    lower_forecast <~ adjust below train_min lower_forecast ;;
    upper_forecast <~ adjust below train_min upper_forecast ;;
    lower_forecast <~ adjust above train_max lower_forecast ;;
    upper_forecast <~ adjust above train_max upper_forecast ;;
    Return (forecast, lower_forecast, upper_forecast)
  else Return (forecast, lower_forecast, upper_forecast).

(** An interface for examples: the daily frequency only, and a training
    frame summarised by its first row. *)
Definition pandas_daily : Pandas := {|
  date_range := fun freq start periods =>
    if (String.eqb freq "D" && (0 <=? periods)%Z)%bool
    then Return (DT.date_range start (Z.to_nat periods))
    else Throw ValueError;
  infer_frequency := fun _ => "D"%string;
  df_std := fun df => map (fun _ => Fin 0) (columns df);
  df_mean := fun df => hd [] (values df);
  df_min := fun df => hd [] (values df);
  df_max := fun df => hd [] (values df);
  df_quantile := fun df _ => Return (Array (hd [] (values df)))
|}.

End Base.

(** ** What the properties of [apply_constraints] are stated with *)

(** The value of a threshold at column [j]. *)
Definition bound_at (b : Base.bound) (j : nat) : num :=
  match b with
  | Base.Float x => x
  | Base.Array l => nth j l NaN
  end.

(** The threshold [b] suits the frame [df] and is the finite [t j] at each
    of its columns. *)
Definition threshold_values (df : DataFrame) (b : Base.bound) (t : nat -> Q) : Prop :=
  match b with
  | Base.Float _ => True
  | Base.Array l => length l = ncols df
  end /\
  forall j, (j < ncols df)%nat -> bound_at b j = Fin (t j).

(** [b] has the labels and the shape of [a], and each of its cells is
    related to the cell of [a] by [R], which is told the column. *)
Definition cells_related (R : nat -> num -> num -> Prop) (a b : DataFrame) : Prop :=
  columns b = columns a /\ layout_of b = layout_of a /\
  Forall2 (fun r r' => length r' = length r /\
                       forall j, (j < length r)%nat -> R j (nth j r NaN) (nth j r' NaN))
          (values a) (values b).

(** A cell [x'] that is [x] cut to the band from [lo] to [hi]: a missing
    cell stays missing; any other one, infinite ones included, ends finite
    and not above [hi], not below [lo] when the band is not empty, and
    unchanged when it was inside. *)
Definition clipped (lo hi : Q) (x x' : num) : Prop :=
  match x with
  | NaN => x' = NaN
  | _ => exists q, x' = Fin q /\ q <= hi /\ (lo <= hi -> lo <= q) /\
                   forall p, x = Fin p -> lo <= p <= hi -> x' = x
  end.




(** The frame [df] with [f (t j)] applied to the cells of column [j]. *)
Definition adjusted (f : num -> num -> num) (t : nat -> Q) (df : DataFrame) : DataFrame :=
  {| columns := columns df;
     values := map (fun row => map2 f (map (fun j => Fin (t j)) (seq 0 (ncols df))) row)
                   (values df);
     layout_of := layout_of df |}.

(* ================================================================== *)
(** * The order on cells *)
(* ================================================================== *)

Unset Implicit Arguments.

Lemma Qltb_true (a b : Q) : Qltb a b = true <-> a < b.
Proof.
  unfold Qltb. rewrite negb_true_iff, <- not_true_iff_false, Qle_bool_iff.
  split; [apply Qnot_le_lt | apply Qlt_not_le].
Qed.

Lemma Qltb_false (a b : Q) : Qltb a b = false <-> b <= a.
Proof.
  unfold Qltb. rewrite negb_false_iff. apply Qle_bool_iff.
Qed.

Lemma Qeqb_true (a b : Q) : Qeqb a b = true <-> a == b.
Proof. apply Qeq_bool_iff. Qed.

Lemma Qeqb_false (a b : Q) : Qeqb a b = false <-> ~ a == b.
Proof.
  unfold Qeqb. rewrite <- not_true_iff_false, Qeq_bool_iff. reflexivity.
Qed.

Lemma num_le_refl (x : num) : num_le x x = true.
Proof.
  unfold num_le. destruct x; simpl; trivial.
  apply negb_true_iff, Qltb_false, Qle_refl.
Qed.

Lemma num_le_total (x y : num) : num_le x y = true \/ num_le y x = true.
Proof.
  unfold num_le. destruct x as [a| | |], y as [b| | |]; simpl; auto.
  rewrite !negb_true_iff, !Qltb_false.
  destruct (Qlt_le_dec a b) as [Hlt | Hle]; [left; apply Qlt_le_weak, Hlt | right; exact Hle].
Qed.

Lemma num_le_trans (x y z : num) :
  num_le x y = true -> num_le y z = true -> num_le x z = true.
Proof.
  unfold num_le.
  destruct x as [a| | |], y as [b| | |], z as [c| | |]; simpl; try discriminate; auto.
  rewrite !negb_true_iff, !Qltb_false. intros H1 H2. eapply Qle_trans; eassumption.
Qed.

Lemma num_lt_le (x y : num) : num_lt x y = true -> num_le x y = true.
Proof.
  unfold num_le.
  destruct x as [a| | |], y as [b| | |]; simpl; try discriminate; auto.
  rewrite Qltb_true, negb_true_iff, Qltb_false. apply Qlt_le_weak.
Qed.

Lemma num_lt_not_le (x y : num) : num_lt x y = true -> num_le y x = false.
Proof. unfold num_le. intros ->. reflexivity. Qed.

(* ================================================================== *)
(** * Insertion sort meets the contract of [np.argsort] *)
(* ================================================================== *)

Section InsertionSort.
Variable A : Type.
Variable before : A -> A -> bool.
Variable R : A -> A -> Prop.
Hypothesis before_true : forall i j, before i j = true -> R i j.
Hypothesis before_false : forall i j, before i j = false -> R j i.
Hypothesis R_trans : forall i j k, R i j -> R j k -> R i k.

Lemma insert_by_perm (i : A) (l : list A) : Permutation (insert_by before i l) (i :: l).
Proof.
  induction l as [| j l IH]; simpl.
  - apply Permutation_refl.
  - destruct (before i j).
    + apply Permutation_refl.
    + apply Permutation_trans with (j :: i :: l).
      * apply perm_skip, IH.
      * apply perm_swap.
Qed.

Lemma sort_by_perm (l : list A) : Permutation (sort_by before l) l.
Proof.
  induction l as [| i l IH]; simpl.
  - apply perm_nil.
  - eapply Permutation_trans; [apply insert_by_perm | apply perm_skip, IH].
Qed.

Lemma insert_by_ordered (i : A) (l : list A) :
  ordered R l -> ordered R (insert_by before i l).
Proof.
  induction 1 as [| j l Hj Hl IH]; simpl.
  - constructor; [constructor | constructor].
  - destruct (before i j) eqn:E.
    + constructor; [| constructor; assumption].
      constructor; [apply before_true, E |].
      eapply Forall_impl; [| exact Hj]. intros k Hk.
      eapply R_trans; [apply before_true, E | exact Hk].
    + constructor; [| exact IH].
      eapply Permutation_Forall; [apply Permutation_sym, insert_by_perm |].
      constructor; [apply before_false, E | exact Hj].
Qed.

Lemma sort_by_ordered (l : list A) : ordered R (sort_by before l).
Proof.
  induction l as [| i l IH]; simpl; [constructor | apply insert_by_ordered, IH].
Qed.

Lemma ordered_nth (l : list A) (d : A) :
  ordered R l -> forall i j, (i < j < length l)%nat -> R (nth i l d) (nth j l d).
Proof.
  induction 1 as [| x l Hx Hl IH]; intros i j Hij; simpl in *; [lia |].
  destruct j as [| j]; [lia |].
  destruct i as [| i].
  - rewrite Forall_forall in Hx. apply Hx, nth_In. lia.
  - apply IH. lia.
Qed.
End InsertionSort.

Lemma numpy_stable_spec : NumpySpec numpy_stable.
Proof.
  assert (Hsort : forall s, argsort_spec s (argsort_stable s)).
  { intros s. unfold argsort_stable. split; [apply sort_by_perm |].
    intros i j Hij.
    apply ordered_nth with (R := fun a b => num_le (key s a) (key s b) = true)
                           (l := sort_by (fun a b => num_le (key s a) (key s b))
                                         (seq 0 (length s))).
    - apply sort_by_ordered.
      + trivial.
      + intros a b E. destruct (num_le_total (key s a) (key s b)); congruence.
      + intros a b c. apply num_le_trans.
    - rewrite (Permutation_length (sort_by_perm _ _ (seq 0 (length s)))), length_seq.
      exact Hij. }
  constructor.
  - exact Hsort.
  - intros s kth Hk. destruct (Hsort s) as [Hp Ho].
    split; [exact Hp | split]; intros; apply Ho; lia.
  - intros l kth Hk. simpl. unfold sort_values.
    assert (Ho : forall i j, (i < j < length l)%nat ->
              num_le (nth i (sort_by num_le l) NaN) (nth j (sort_by num_le l) NaN) = true).
    { intros i j Hij.
      apply ordered_nth with (R := fun a b => num_le a b = true).
      - apply sort_by_ordered.
        + trivial.
        + intros a b E. destruct (num_le_total a b); congruence.
        + intros a b c. apply num_le_trans.
      - rewrite (Permutation_length (sort_by_perm _ _ l)). exact Hij. }
    split; [apply sort_by_perm | split]; intros; apply Ho; lia.
Qed.


(* ================================================================== *)
(** * Top-k selection *)
(* ================================================================== *)

Lemma index_perm_facts (n : nat) (p : list nat) :
  Permutation p (seq 0 n) ->
  length p = n /\ NoDup p /\ forall i, In i p <-> (i < n)%nat.
Proof.
  intros Hp. split; [| split].
  - rewrite (Permutation_length Hp). apply length_seq.
  - eapply Permutation_NoDup; [apply Permutation_sym, Hp | apply seq_NoDup].
  - intros i. split; intros Hi.
    + apply (Permutation_in _ Hp), in_seq in Hi. lia.
    + apply (Permutation_in _ (Permutation_sym Hp)), in_seq. lia.
Qed.

Lemma In_firstn_nth {A : Type} (d : A) (p : list A) (k : nat) (i : A) :
  In i (firstn k p) -> exists a, (a < k)%nat /\ (a < length p)%nat /\ nth a p d = i.
Proof.
  revert k. induction p as [| x p IH]; intros [| k] Hi; simpl in *; try contradiction.
  destruct Hi as [-> | Hi].
  - exists 0%nat. repeat split; lia.
  - destruct (IH k Hi) as (a & Ha & Hl & Hn). exists (S a). repeat split; try lia.
    exact Hn.
Qed.

Lemma In_skipn_nth {A : Type} (d : A) (p : list A) (k : nat) (i : A) :
  In i (skipn k p) -> exists b, (k <= b)%nat /\ (b < length p)%nat /\ nth b p d = i.
Proof.
  revert k. induction p as [| x p IH]; intros [| k] Hi; simpl in *; try contradiction.
  - destruct Hi as [-> | Hi].
    + exists 0%nat. repeat split; lia.
    + destruct (In_nth _ _ d Hi) as (b & Hb & Hn).
      exists (S b). repeat split; try lia. exact Hn.
  - destruct (IH k Hi) as (b & Hb & Hl & Hn). exists (S b). repeat split; try lia.
    exact Hn.
Qed.

Lemma firstn_index_perm (n k : nat) (p : list nat) :
  Permutation p (seq 0 n) -> (k <= n)%nat ->
  length (firstn k p) = k /\ NoDup (firstn k p) /\
  Forall (fun i => (i < n)%nat) (firstn k p) /\
  forall j, (j < n)%nat -> ~ In j (firstn k p) -> In j (skipn k p).
Proof.
  intros Hp Hk. destruct (index_perm_facts _ _ Hp) as (Hlen & Hnd & Hin).
  repeat split.
  - rewrite length_firstn. lia.
  - rewrite <- (firstn_skipn k p) in Hnd. apply NoDup_app_remove_r in Hnd. exact Hnd.
  - apply Forall_forall. intros i Hi. apply Hin.
    rewrite <- (firstn_skipn k p). apply in_or_app. left. exact Hi.
  - intros j Hj Hnot. apply Hin in Hj. rewrite <- (firstn_skipn k p) in Hj.
    apply in_app_or in Hj. tauto.
Qed.

Lemma nth_ordered {A : Type} (R : A -> A -> Prop) (d : A) (l : list A) :
  (forall i j, (i < j < length l)%nat -> R (nth i l d) (nth j l d)) -> ordered R l.
Proof.
  induction l as [| x l IH]; intros H; constructor.
  - apply Forall_forall. intros y Hy.
    destruct (In_nth _ _ d Hy) as (j & Hj & <-).
    apply (H 0%nat (S j)). simpl. lia.
  - apply IH. intros i j Hij. apply (H (S i) (S j)). simpl. lia.
Qed.

Lemma nth_firstn_lt {A : Type} (k a : nat) (l : list A) (d : A) :
  (a < k)%nat -> nth a (firstn k l) d = nth a l d.
Proof.
  revert k a. induction l as [| x l IH]; intros k a H.
  - rewrite firstn_nil. reflexivity.
  - destruct k; [lia |]. destruct a; simpl; [reflexivity | apply IH; lia].
Qed.

Lemma argsort_firstn (s : list num) (p : list nat) (k : nat) :
  argsort_spec s p -> (k <= length s)%nat ->
  k_smallest s k (firstn k p) /\ score_ordered s (firstn k p).
Proof.
  intros [Hp Ho] Hk.
  destruct (firstn_index_perm _ _ _ Hp Hk) as (Hlen & Hnd & Hall & Hout).
  destruct (index_perm_facts _ _ Hp) as (Hlp & _ & _).
  split; [split; [exact Hlen | split; [exact Hnd | split; [exact Hall |]]] |].
  - intros i j Hi Hj Hnot.
    destruct (In_firstn_nth 0%nat _ _ _ Hi) as (a & Ha & _ & <-).
    destruct (In_skipn_nth 0%nat _ _ _ (Hout j Hj Hnot)) as (b & Hb & Hbl & <-).
    apply Ho. lia.
  - apply nth_ordered with (d := 0%nat). intros a b Hab.
    rewrite Hlen in Hab. rewrite !nth_firstn_lt by lia. apply Ho. lia.
Qed.

Lemma argpartition_firstn (s : list num) (p : list nat) (k : nat) :
  argpartition_spec s (k - 1) p -> (k <= length s)%nat ->
  k_smallest s k (firstn k p).
Proof.
  intros (Hp & Hlow & Hhigh) Hk.
  destruct (firstn_index_perm _ _ _ Hp Hk) as (Hlen & Hnd & Hall & Hout).
  destruct (index_perm_facts _ _ Hp) as (Hlp & _ & _).
  split; [exact Hlen | split; [exact Hnd | split; [exact Hall |]]].
  intros i j Hi Hj Hnot.
  destruct (In_firstn_nth 0%nat _ _ _ Hi) as (a & Ha & _ & <-).
  destruct (In_skipn_nth 0%nat _ _ _ (Hout j Hj Hnot)) as (b & Hb & Hbl & <-).
  apply num_le_trans with (key s (nth (k - 1) p 0%nat)).
  - destruct (Nat.eq_dec a (k - 1)) as [-> | Hne]; [apply num_le_refl | apply Hlow; lia].
  - apply Hhigh. lia.
Qed.

(** Two selections of the [k] smallest coincide as sets unless a score left
    out ties with one kept. *)
Lemma k_smallest_unique (s : list num) (k : nat) (A B : list nat) :
  k_smallest s k A -> k_smallest s k B -> no_boundary_tie s A -> Permutation B A.
Proof.
  intros (HlA & HndA & HallA & HA) (HlB & HndB & HallB & HB) Htie.
  apply NoDup_Permutation_bis; [exact HndB | lia |].
  intros j HjB.
  destruct (in_dec Nat.eq_dec j A) as [HjA | HjA]; [exact HjA | exfalso].
  destruct (Forall_Exists_dec (fun i => In i B) (fun i => in_dec Nat.eq_dec i B) A)
    as [Hall | Hex].
  - apply HjA. apply (@NoDup_length_incl _ A B HndA); [lia | | exact HjB].
    intros i Hi. rewrite Forall_forall in Hall. apply Hall, Hi.
  - apply Exists_exists in Hex. destruct Hex as (i & HiA & HiB).
    rewrite Forall_forall in HallA, HallB.
    assert (Hlt := Htie i j HiA (HallB j HjB) HjA).
    assert (Hle := HB j i HjB (HallA i HiA) HiB).
    apply num_lt_not_le in Hlt. congruence.
Qed.

Lemma is_index_perm_sound (n : nat) (p : list nat) :
  is_index_perm n p = true -> Permutation p (seq 0 n).
Proof.
  unfold is_index_perm. rewrite andb_true_iff, Nat.eqb_eq, forallb_forall.
  intros [Hlen Hall]. apply Permutation_sym.
  apply NoDup_Permutation_bis; [apply seq_NoDup | rewrite length_seq; lia |].
  intros i Hi. specialize (Hall i Hi). apply existsb_exists in Hall.
  destruct Hall as (x & Hx & E). apply Nat.eqb_eq in E. subst. exact Hx.
Qed.

Lemma check_kth_in_bounds (n : nat) (kth : Z) :
  (0 <= kth < Z.of_nat n)%Z -> check_kth n kth = Ok (Z.to_nat kth).
Proof.
  intros H. unfold check_kth.
  destruct (Z.ltb_spec kth 0); [lia |].
  destruct (Z.leb_spec 0 kth); [| lia].
  destruct (Z.ltb_spec kth (Z.of_nat n)); [reflexivity | lia].
Qed.

Lemma check_kth_negative (n : nat) (kth : Z) :
  (- Z.of_nat n <= kth < 0)%Z -> check_kth n kth = Ok (Z.to_nat (kth + Z.of_nat n)).
Proof.
  intros H. unfold check_kth.
  destruct (Z.ltb_spec kth 0); [| lia].
  destruct (Z.leb_spec 0 (kth + Z.of_nat n)); [| lia].
  destruct (Z.ltb_spec (kth + Z.of_nat n) (Z.of_nat n)); [reflexivity | lia].
Qed.

Lemma check_kth_out_of_bounds (n : nat) (kth : Z) :
  (Z.of_nat n <= kth \/ kth < - Z.of_nat n)%Z -> check_kth n kth = Raise ValueError.
Proof.
  intros H. unfold check_kth.
  destruct (Z.ltb_spec kth 0).
  - destruct (Z.leb_spec 0 (kth + Z.of_nat n)); [lia | reflexivity].
  - destruct (Z.leb_spec 0 kth); [| lia].
    destruct (Z.ltb_spec kth (Z.of_nat n)); [lia | reflexivity].
Qed.

Lemma ties_by_index_firstn (s : list num) (p : list nat) (k : nat) :
  ties_by_index s p -> ties_by_index s (firstn k p).
Proof.
  intros H a b Hab. rewrite length_firstn in Hab.
  rewrite !nth_firstn_lt by lia. apply H. lia.
Qed.

(** C3 (amended). For every score array and every [k] not exceeding the
    candidate count, the selector with [full_sort=true] returns [k] distinct
    indices of [k] smallest scores, ordered by non-decreasing score, whatever
    index array [np.argsort] returns within its contract. Candidates with
    equal scores come in index order when [np.argsort] itself orders ties by
    index, which its default kind does not promise. *)
Theorem top_k_full_sort_smallest_ordered
    (N : Numpy) (S : NumpySpec N) (scores : list num) (k : nat) :
  (k <= length scores)%nat ->
  exists out, top_k scores k true = Ok out /\
              k_smallest scores k out /\ score_ordered scores out /\
              (ties_by_index scores (argsort scores) -> ties_by_index scores out).
Proof.
  intros Hk. exists (firstn k (argsort scores)). split; [reflexivity |].
  destruct (argsort_firstn scores (argsort scores) k (argsort_ok scores) Hk) as [H1 H2].
  split; [exact H1 | split; [exact H2 | apply ties_by_index_firstn]].
Qed.

Lemma top_k_full_sort_smallest_ordered_witness :
  NumpySpec numpy_stable /\
  (2 <= length [Fin 3; Fin 1; Fin 2])%nat /\
  exists out, top_k (H := numpy_stable) [Fin 3; Fin 1; Fin 2] 2 true = Ok out /\
              k_smallest [Fin 3; Fin 1; Fin 2] 2 out /\
              score_ordered [Fin 3; Fin 1; Fin 2] out /\
              (ties_by_index [Fin 3; Fin 1; Fin 2]
                             (argsort (Numpy := numpy_stable) [Fin 3; Fin 1; Fin 2]) ->
               ties_by_index [Fin 3; Fin 1; Fin 2] out).
Proof.
  split; [exact numpy_stable_spec | split; [simpl; lia |]].
  apply (top_k_full_sort_smallest_ordered numpy_stable numpy_stable_spec).
  simpl; lia.
Defined.

(** C3 (counterexample). On 18 equal scores the index array
    [0, 15, 14, ..., 1, 16, 17] sorts the scores, so [np.argsort] may return
    it; its first three entries [0, 15, 14] list two candidates of equal score
    with the larger index first. *)
Lemma full_sort_ties_not_by_index : ~ full_sort_stable_claim.
Proof.
  intros Hclaim.
  pose (s := repeat (Fin 0) 18).
  pose (p := [0; 15; 14; 13; 12; 11; 10; 9; 8; 7; 6; 5; 4; 3; 2; 1; 16; 17]%nat).
  assert (Hkey : forall i, key s (nth i p 0%nat) = Fin 0).
  { intros i. do 18 (destruct i as [| i]; [reflexivity |]). destruct i; reflexivity. }
  assert (Hspec : argsort_spec s p).
  { split.
    - apply is_index_perm_sound. reflexivity.
    - intros i j _. rewrite !Hkey. reflexivity. }
  destruct (Hclaim s p 3%nat Hspec) as (_ & _ & Hties); [simpl; lia |].
  specialize (Hties 1%nat 2%nat). simpl in Hties.
  assert (15 < 14)%nat; [apply Hties; [lia | reflexivity] | lia].
Qed.

(** C7 (amended). For every non-empty score array and every [k] not
    exceeding the candidate count, both selectors return [k] distinct indices
    of [k] smallest scores; the two index multisets are equal whenever no
    score left out of the full-sort selection equals a score inside it. *)
Theorem top_k_partial_matches_full
    (N : Numpy) (S : NumpySpec N) (scores : list num) (k : nat) :
  (1 <= length scores)%nat -> (k <= length scores)%nat ->
  exists part full,
    top_k scores k false = Ok part /\ top_k scores k true = Ok full /\
    k_smallest scores k part /\ k_smallest scores k full /\
    (no_boundary_tie scores full -> Permutation part full).
Proof.
  intros Hn Hk.
  destruct (argsort_firstn scores (argsort scores) k (argsort_ok scores) Hk)
    as [Hfull _].
  assert (Hpart : exists kth, check_kth (length scores) (Z.of_nat k - 1) = Ok kth /\
                              (kth < length scores)%nat /\ (k = 0%nat \/ kth = (k - 1)%nat)).
  { destruct k as [| k].
    - exists (length scores - 1)%nat. split; [| split; [lia | left; reflexivity]].
      rewrite check_kth_negative by lia. f_equal. lia.
    - exists k. split; [| split; [lia | right; lia]].
      rewrite check_kth_in_bounds by lia. f_equal. lia. }
  destruct Hpart as (kth & Hck & Hlt & Hkth).
  exists (firstn k (argpartition scores kth)), (firstn k (argsort scores)).
  assert (Hp : k_smallest scores k (firstn k (argpartition scores kth))).
  { destruct Hkth as [-> | ->].
    - simpl. split; [reflexivity | split; [constructor | split; [constructor |]]].
      intros i j [].
    - apply argpartition_firstn; [apply argpartition_ok; lia | exact Hk]. }
  split; [| split; [reflexivity | split; [exact Hp | split; [exact Hfull |]]]].
  - unfold top_k, np_argpartition. rewrite Hck. reflexivity.
  - intros Htie. apply k_smallest_unique with (s := scores) (k := k); assumption.
Qed.

Lemma top_k_partial_matches_full_witness :
  NumpySpec numpy_stable /\
  (1 <= length [Fin 3; Fin 1; Fin 2])%nat /\ (2 <= length [Fin 3; Fin 1; Fin 2])%nat /\
  exists part full,
    top_k (H := numpy_stable) [Fin 3; Fin 1; Fin 2] 2 false = Ok part /\
    top_k (H := numpy_stable) [Fin 3; Fin 1; Fin 2] 2 true = Ok full /\
    k_smallest [Fin 3; Fin 1; Fin 2] 2 part /\
    k_smallest [Fin 3; Fin 1; Fin 2] 2 full /\
    (no_boundary_tie [Fin 3; Fin 1; Fin 2] full -> Permutation part full).
Proof.
  split; [exact numpy_stable_spec | split; [simpl; lia | split; [simpl; lia |]]].
  apply (top_k_partial_matches_full numpy_stable numpy_stable_spec); simpl; lia.
Defined.

(** C7 (counterexample). On the scores [1, 1, 0] with [k = 2], [np.argsort]
    may return [2, 0, 1] and [np.argpartition(scores, 1)] may return
    [2, 1, 0]: the selections {2, 0} and {2, 1} differ. *)
Lemma partial_selection_differs_on_ties : ~ partial_equals_full_claim.
Proof.
  intros Hclaim.
  pose (s := [Fin 1; Fin 1; Fin 0]).
  assert (Hsort : argsort_spec s [2; 0; 1]%nat).
  { split; [apply is_index_perm_sound; reflexivity |].
    intros i j Hij. simpl in Hij.
    destruct i as [| [| [| i]]]; destruct j as [| [| [| j]]]; try lia; reflexivity. }
  assert (Hpart : argpartition_spec s (2 - 1) [2; 1; 0]%nat).
  { split; [apply is_index_perm_sound; reflexivity | split].
    - intros i Hi. destruct i as [| i]; [reflexivity | simpl in Hi; lia].
    - intros j Hj. simpl in Hj. destruct j as [| [| [| j]]]; try lia; reflexivity. }
  assert (Hperm := Hclaim s _ _ 2%nat ltac:(simpl; lia) Hsort Hpart).
  simpl in Hperm.
  assert (Hin : In 1%nat [2; 0]%nat).
  { apply (Permutation_in _ Hperm). simpl. auto. }
  simpl in Hin. destruct Hin as [Hin | [Hin | []]]; discriminate.
Qed.

(* ---------------------------------------------------------------- *)
(** ** A stable sort orders ties by index *)





(* ================================================================== *)
(** * Sums and means of finite cells *)
(* ================================================================== *)

Ltac qsimpl := cbn [Qsum app map length].

Lemma Qsum_app (l1 l2 : list Q) : Qsum (l1 ++ l2) == Qsum l1 + Qsum l2.
Proof.
  induction l1 as [| x l1 IH]; qsimpl; lra.
Qed.

Lemma Qsum_perm (l1 l2 : list Q) : Permutation l1 l2 -> Qsum l1 == Qsum l2.
Proof.
  induction 1; qsimpl; lra.
Qed.

Lemma below_le_zero (t : Q) (l : list Q) : Qsum (map (below t) l) <= 0.
Proof.
  induction l as [| x l IH]; qsimpl; [lra |].
  unfold below at 1. destruct (Qle_bool x t) eqn:E; [apply Qle_bool_iff in E |]; lra.
Qed.

Lemma below_le_diff (t : Q) (l : list Q) :
  Qsum (map (below t) l) <= Qsum (map (fun x => x - t) l).
Proof.
  induction l as [| x l IH]; qsimpl; [lra |].
  unfold below at 1. destruct (Qle_bool x t) eqn:E; [lra |].
  apply not_true_iff_false in E. rewrite Qle_bool_iff in E. lra.
Qed.

Lemma below_low (t : Q) (l : list Q) :
  Forall (fun x => x <= t) l -> Qsum (map (below t) l) == Qsum (map (fun x => x - t) l).
Proof.
  induction 1 as [| x l Hx Hl IH]; qsimpl; [lra |].
  unfold below at 1. apply Qle_bool_iff in Hx. rewrite Hx. lra.
Qed.

Lemma below_high (t : Q) (l : list Q) :
  Forall (fun x => t <= x) l -> Qsum (map (below t) l) == 0.
Proof.
  induction 1 as [| x l Hx Hl IH]; qsimpl; [lra |].
  unfold below at 1. destruct (Qle_bool x t) eqn:E; [apply Qle_bool_iff in E |]; lra.
Qed.

Lemma diff_sums (t : Q) (l1 l2 : list Q) :
  length l1 = length l2 ->
  Qsum (map (fun x => x - t) l1) - Qsum (map (fun x => x - t) l2) == Qsum l1 - Qsum l2.
Proof.
  revert l2.
  induction l1 as [| x l1 IH]; intros [| y l2] H; try discriminate; qsimpl.
  - lra.
  - injection H as H. specialize (IH l2 H). lra.
Qed.

(** Of all selections of as many items, the one below a threshold has the
    least sum. *)
Lemma lower_sum_le (t : Q) (P R S S' : list Q) :
  Permutation (P ++ R) (S ++ S') -> length P = length S ->
  Forall (fun x => x <= t) P -> Forall (fun x => t <= x) R ->
  Qsum P <= Qsum S.
Proof.
  intros Hperm Hlen HP HR.
  assert (H1 := Qsum_perm _ _ (Permutation_map (below t) Hperm)).
  rewrite !map_app, !Qsum_app in H1.
  assert (H2 := below_low t P HP). assert (H3 := below_high t R HR).
  assert (H4 := below_le_zero t S'). assert (H5 := below_le_diff t S).
  assert (H6 := diff_sums t P S Hlen). lra.
Qed.

Lemma Qlen_cons {A : Type} (x : A) (l : list A) : Qlen (x :: l) == Qlen l + 1.
Proof.
  unfold Qlen. cbn [length]. rewrite Nat2Z.inj_succ, <- Z.add_1_r, inject_Z_plus.
  reflexivity.
Qed.

Lemma Qsum_le_len (t : Q) (l : list Q) :
  Forall (fun x => x <= t) l -> Qsum l <= Qlen l * t.
Proof.
  induction 1 as [| x l Hx Hl IH].
  - unfold Qlen. cbn [length Qsum]. change (inject_Z (Z.of_nat 0)) with 0. lra.
  - rewrite Qlen_cons. qsimpl. nra.
Qed.

Lemma Qsum_ge_len (t : Q) (l : list Q) :
  Forall (fun x => t <= x) l -> Qlen l * t <= Qsum l.
Proof.
  induction 1 as [| x l Hx Hl IH].
  - unfold Qlen. cbn [length Qsum]. change (inject_Z (Z.of_nat 0)) with 0. lra.
  - rewrite Qlen_cons. qsimpl. nra.
Qed.


Lemma Qlen_pos {A : Type} (l : list A) : (1 <= length l)%nat -> 0 < Qlen l.
Proof.
  intros H. unfold Qlen. change 0 with (inject_Z 0). rewrite <- Zlt_Qlt. lia.
Qed.


Lemma nsum_fin (l : list num) :
  Forall is_fin l -> nsum l = Fin (Qsum (map qval l)).
Proof.
  induction 1 as [| x l Hx Hl IH]; [reflexivity |].
  unfold nsum in *. cbn [fold_right map]. rewrite IH.
  destruct x; try contradiction. reflexivity.
Qed.

Lemma nmean_fin (l : list num) :
  Forall is_fin l -> (1 <= length l)%nat ->
  nmean l = Fin (Qsum (map qval l) / Qlen l).
Proof.
  intros Hf Hl. unfold nmean, nat_num. rewrite (nsum_fin l Hf). cbn [ndiv].
  assert (Hpos := Qlen_pos l Hl). fold (Qlen l).
  destruct (Qeqb (Qlen l) 0) eqn:E; [| reflexivity].
  apply Qeqb_true in E. lra.
Qed.

(* ================================================================== *)
(** * The trimmed metric [mqae] *)
(* ================================================================== *)

Lemma num_eqv_refl (x : num) : num_eqv x x.
Proof. destruct x; simpl; trivial. reflexivity. Qed.

Lemma num_le_fin (x y : num) :
  is_fin x -> is_fin y -> (num_le x y = true <-> qval x <= qval y).
Proof.
  destruct x, y; simpl; try contradiction. intros _ _.
  unfold num_le. simpl. rewrite negb_true_iff. apply Qltb_false.
Qed.

Lemma map2_length {A B C : Type} (f : A -> B -> C) (a : list A) (b : list B) :
  length (map2 f a b) = Nat.min (length a) (length b).
Proof. unfold map2. rewrite length_map. apply length_combine. Qed.

Lemma abs_diff_fin (a b : list num) :
  Forall is_fin a -> Forall is_fin b -> Forall is_fin (abs_diff a b).
Proof.
  intros Ha. revert b. unfold abs_diff, map2.
  induction Ha as [| x a Hx Ha IH]; intros b Hb; [constructor |].
  destruct Hb as [| y b Hy Hb]; [constructor |].
  cbn [combine map fst snd]. constructor; [| apply IH, Hb].
  destruct x, y; simpl in *; try contradiction. trivial.
Qed.

Lemma Forall_fin_perm (l l' : list num) :
  Permutation l' l -> Forall is_fin l -> Forall is_fin l'.
Proof.
  intros Hp Hf. eapply Permutation_Forall; [apply Permutation_sym, Hp | exact Hf].
Qed.

Lemma Forall_firstn {A : Type} (P : A -> Prop) (k : nat) (l : list A) :
  Forall P l -> Forall P (firstn k l).
Proof.
  intros H. apply Forall_forall. intros x Hx. rewrite Forall_forall in H.
  apply H. rewrite <- (firstn_skipn k l). apply in_or_app. left. exact Hx.
Qed.

(** What a partition around position [q] gives on finite cells: the first [q]
    values are below a threshold, the others above it. *)
Lemma partition_split (l l' : list num) (q : nat) :
  Forall is_fin l -> (q < length l)%nat -> partition_spec l q l' ->
  exists t,
    Forall (fun x => x <= t) (map qval (firstn q l')) /\
    Forall (fun x => t <= x) (map qval (skipn q l')) /\
    Permutation (map qval (firstn q l') ++ map qval (skipn q l')) (map qval l) /\
    length (firstn q l') = q /\ Forall is_fin l'.
Proof.
  intros Hf Hq (Hp & Hlow & Hhigh).
  assert (Hf' := Forall_fin_perm _ _ Hp Hf).
  assert (Hlen := Permutation_length Hp).
  assert (Hnth : forall i, (i < length l')%nat -> is_fin (nth i l' NaN)).
  { intros i Hi. rewrite Forall_forall in Hf'. apply Hf', nth_In, Hi. }
  exists (qval (nth q l' NaN)). repeat split.
  - apply Forall_forall. intros x Hx. apply in_map_iff in Hx.
    destruct Hx as (y & <- & Hy).
    destruct (In_firstn_nth NaN _ _ _ Hy) as (a & Ha & Hal & <-).
    apply num_le_fin; [apply Hnth; lia | apply Hnth; lia | apply Hlow, Ha].
  - apply Forall_forall. intros x Hx. apply in_map_iff in Hx.
    destruct Hx as (y & <- & Hy).
    destruct (In_skipn_nth NaN _ _ _ Hy) as (b & Hb & Hbl & <-).
    apply num_le_fin; [apply Hnth; lia | apply Hnth; lia |].
    destruct (Nat.eq_dec b q) as [-> | Hne]; [apply num_le_refl | apply Hhigh; lia].
  - rewrite <- map_app, firstn_skipn. apply Permutation_map, Hp.
  - rewrite length_firstn. lia.
  - exact Hf'.
Qed.

(** The sum of the first [q] values does not depend on which partition
    numpy returns. *)
Lemma partition_sums_agree (l l1 l2 : list num) (q : nat) :
  Forall is_fin l -> (q < length l)%nat ->
  partition_spec l q l1 -> partition_spec l q l2 ->
  Qsum (map qval (firstn q l1)) == Qsum (map qval (firstn q l2)).
Proof.
  intros Hf Hq H1 H2.
  destruct (partition_split l l1 q Hf Hq H1) as (t1 & Hlo1 & Hhi1 & Hp1 & Hl1 & _).
  destruct (partition_split l l2 q Hf Hq H2) as (t2 & Hlo2 & Hhi2 & Hp2 & Hl2 & _).
  apply Qle_antisym.
  - apply (lower_sum_le t1 _ (map qval (skipn q l1)) _ (map qval (skipn q l2)));
      [| rewrite !length_map; lia | assumption | assumption].
    eapply Permutation_trans; [exact Hp1 | apply Permutation_sym, Hp2].
  - apply (lower_sum_le t2 _ (map qval (skipn q l2)) _ (map qval (skipn q l1)));
      [| rewrite !length_map; lia | assumption | assumption].
    eapply Permutation_trans; [exact Hp2 | apply Permutation_sym, Hp1].
Qed.

Lemma mqae_qi_floor (F : nat) : mqae_qi F = keep_floor F.
Proof.
  unfold mqae_qi, keep_floor, py_int, mqae_q.
  cbn [Qmult Qnum Qden inject_Z Qfloor].
  rewrite Z.quot_div_nonneg by lia.
  destruct (Nat.ltb_spec 1 (Z.to_nat (Z.of_nat F * 85 / Z.pos (1 * 100)))); lia.
Qed.

Lemma mqae_qi_bounds (F : nat) : (2 <= F)%nat -> (1 <= mqae_qi F < F)%nat.
Proof.
  intros HF. unfold mqae_qi, py_int, mqae_q. cbn [Qmult Qnum Qden inject_Z].
  rewrite Z.quot_div_nonneg by lia.
  change (Z.pos (1 * 100)) with 100%Z.
  assert (0 <= Z.of_nat F * 85 / 100 < Z.of_nat F)%Z.
  { split; [apply Z.div_pos; lia | apply Z.div_lt_upper_bound; lia]. }
  destruct (Nat.ltb_spec 1 (Z.to_nat (Z.of_nat F * 85 / 100))); lia.
Qed.

Lemma Qlen_map {A B : Type} (f : A -> B) (l : list A) : Qlen (map f l) = Qlen l.
Proof. unfold Qlen. rewrite length_map. reflexivity. Qed.


(** The value of [mqae] on finite slices of length at least two. *)
Lemma mqae_trimmed (N : Numpy) (S : NumpySpec N) (ae : list num) :
  Forall is_fin ae -> (2 <= length ae)%nat ->
  exists P R t,
    mqae_vals ae = P /\ length P = mqae_qi (length ae) /\ Forall is_fin P /\
    Permutation (map qval P ++ R) (map qval ae) /\
    Forall (fun x => x <= t) (map qval P) /\ Forall (fun x => t <= x) R /\
    partition_spec ae (mqae_qi (length ae)) (partition ae (mqae_qi (length ae))).
Proof.
  intros Hf HF.
  destruct (mqae_qi_bounds (length ae) HF) as [Hq1 Hq2].
  assert (Hspec := partition_ok ae (mqae_qi (length ae)) Hq2).
  destruct (partition_split ae _ _ Hf Hq2 Hspec) as (t & Hlo & Hhi & Hp & Hl & Hf').
  exists (firstn (mqae_qi (length ae)) (partition ae (mqae_qi (length ae)))),
         (map qval (skipn (mqae_qi (length ae)) (partition ae (mqae_qi (length ae))))), t.
  split; [| split; [exact Hl | split; [apply Forall_firstn, Hf' |]]].
  - unfold mqae_vals. destruct (Nat.leb_spec (length ae) 1); [lia | reflexivity].
  - split; [exact Hp | split; [exact Hlo | split; [exact Hhi | exact Hspec]]].
Qed.

Lemma nth_map_in {A B : Type} (f : A -> B) (l : list A) (i : nat) (da : A) (db : B) :
  (i < length l)%nat -> nth i (map f l) db = f (nth i l da).
Proof.
  intros Hi. rewrite (nth_indep _ db (f da)) by (rewrite length_map; exact Hi).
  apply map_nth.
Qed.

Lemma stretch_same (F : nat) (row : list num) : length row = F -> stretch F row = row.
Proof.
  intros H. unfold stretch. rewrite H, Nat.eqb_refl. reflexivity.
Qed.






(** The value of [mqae] on one pair of slices. *)
Lemma mqae_slice_value (N : Numpy) (S : NumpySpec N) (a b : list num) :
  reducible a b ->
  num_eqv (mqae a b) (mean_lowest (keep_floor (length a)) (abs_diff a b)).
Proof.
  intros (Hab & Hlen & Ha & Hb).
  assert (Hf := abs_diff_fin a b Ha Hb).
  assert (HF : length (abs_diff a b) = length a).
  { unfold abs_diff. rewrite map2_length. lia. }
  rewrite <- HF. unfold mqae, mean_lowest. rewrite <- mqae_qi_floor.
  destruct (Nat.le_gt_cases (length (abs_diff a b)) 1) as [Hone | Htwo].
  - unfold mqae_vals. destruct (Nat.leb_spec (length (abs_diff a b)) 1); [| lia].
    destruct (abs_diff a b) as [| x [| y l]]; simpl in *; try lia.
    apply num_eqv_refl.
  - destruct (mqae_trimmed N S (abs_diff a b) Hf Htwo)
      as (P & R & t & HP & HlP & HfP & _ & _ & _ & Hspec).
    destruct (mqae_qi_bounds (length (abs_diff a b)) Htwo) as [Hq1 Hq2].
    assert (Hsorted := @partition_ok _ numpy_stable_spec (abs_diff a b) _ Hq2).
    cbn [partition numpy_stable] in Hsorted.
    destruct (partition_split _ _ _ Hf Hq2 Hsorted) as (_ & _ & _ & _ & HlS & HfS).
    assert (Hagree := partition_sums_agree _ _ _ _ Hf Hq2 Hspec Hsorted).
    rewrite HP.
    rewrite (nmean_fin P) by (assumption || lia).
    rewrite (nmean_fin (firstn _ (sort_values (abs_diff a b))))
      by (try apply Forall_firstn; assumption || lia).
    simpl. unfold Qlen. rewrite HlP, HlS. rewrite <- HP.
    unfold mqae_vals. destruct (Nat.leb_spec (length (abs_diff a b)) 1); [lia |].
    rewrite Hagree. reflexivity.
Qed.

(** C4 (amended). For every pair of broadcast-compatible finite arrays with
    reduced-axis length F >= 1, the [mqae] metric equals the mean of the
    lowest [max(1, floor(0.85 F))] absolute differences along that axis,
    whichever partition [np.partition] returns within its contract: on one
    pair of slices, and cell by cell of the scores of the independent engine,
    where the reduced axis is the feature axis. *)
Theorem mqae_mean_of_lowest_floor (N : Numpy) (S : NumpySpec N) :
  (forall a b : list num,
     reducible a b ->
     num_eqv (mqae a b) (mean_lowest (keep_floor (length a)) (abs_diff a b))) /\
  (forall (F : nat) (a b : list (list num)) (h j : nat),
     (1 <= F)%nat ->
     Forall (fun r => length r = F) a -> Forall (fun r => length r = F) b ->
     Forall (Forall is_fin) a -> Forall (Forall is_fin) b ->
     (h < length a)%nat -> (j < length b)%nat ->
     num_eqv (nth j (nth h (pairwise_scores mqae F a b) []) NaN)
             (mean_lowest (keep_floor F) (abs_diff (nth h a []) (nth j b [])))).
Proof.
  split; [exact (mqae_slice_value N S) |].
  intros F a b h j HF Hla Hlb Hfa Hfb Hh Hj. unfold pairwise_scores.
  rewrite Forall_forall in Hla, Hlb, Hfa, Hfb.
  assert (Ha := nth_In a [] Hh). assert (Hb := nth_In b [] Hj).
  rewrite (nth_map_in _ a h [] []) by exact Hh.
  rewrite (nth_map_in _ b j [] NaN) by exact Hj.
  rewrite !stretch_same by (apply Hla, Ha || apply Hlb, Hb).
  assert (Hred : reducible (nth h a []) (nth j b [])).
  { unfold reducible. rewrite (Hla _ Ha), (Hlb _ Hb).
    split; [reflexivity | split; [exact HF | split; [apply Hfa, Ha | apply Hfb, Hb]]]. }
  assert (E := mqae_slice_value N S _ _ Hred). rewrite (Hla _ Ha) in E. exact E.
Qed.

Lemma mqae_mean_of_lowest_floor_witness :
  NumpySpec numpy_stable /\
  reducible [Fin 0; Fin 1] [Fin 0; Fin 0] /\
  num_eqv (mqae (H := numpy_stable) [Fin 0; Fin 1] [Fin 0; Fin 0])
          (mean_lowest (keep_floor (length [Fin 0; Fin 1]))
                       (abs_diff [Fin 0; Fin 1] [Fin 0; Fin 0])).
Proof.
  assert (H : reducible [Fin 0; Fin 1] [Fin 0; Fin 0]).
  { split; [reflexivity | split; [simpl; lia | split; repeat constructor]]. }
  split; [exact numpy_stable_spec | split; [exact H |]].
  apply (proj1 (mqae_mean_of_lowest_floor numpy_stable numpy_stable_spec)). exact H.
Defined.

(** C4 (counterexample). For [a = [0, 1]] and [b = [0, 0]] (F = 2) the code
    keeps [int(1.7) = 1] value and returns 0; the mean of the lowest
    [ceil(1.7) = 2] values is 1/2. *)
Lemma mqae_keeps_floor_not_ceil : ~ mqae_ceil_claim.
Proof.
  intros Hclaim.
  assert (Hred : reducible [Fin 0; Fin 1] [Fin 0; Fin 0]).
  { split; [reflexivity | split; [simpl; lia | split; repeat constructor]]. }
  assert (H := Hclaim numpy_stable numpy_stable_spec [Fin 0; Fin 1] [Fin 0; Fin 0] Hred).
  vm_compute in H. discriminate H.
Qed.

(* ================================================================== *)
(** * The window match engine *)
(* ================================================================== *)

Lemma bind_ok {A B : Type} (m : result A) (f : A -> result B) (b : B) :
  bind m f = Ok b -> exists a, m = Ok a /\ f a = Ok b.
Proof.
  destruct m as [a | e]; simpl; [| discriminate]. intros H. exists a. auto.
Qed.

Lemma check_kth_ok (n : nat) (kth : Z) (r : nat) :
  check_kth n kth = Ok r -> (r < n)%nat.
Proof.
  unfold check_kth. intros H.
  destruct ((0 <=? (if (kth <? 0)%Z then (kth + Z.of_nat n)%Z else kth))%Z) eqn:E1;
    [| discriminate].
  destruct ((if (kth <? 0)%Z then (kth + Z.of_nat n)%Z else kth) <? Z.of_nat n)%Z eqn:E2;
    [| discriminate].
  simpl in H. injection H as <-. apply Z.leb_le in E1. apply Z.ltb_lt in E2. lia.
Qed.

(** The selector only returns indices of the score array. *)
Lemma top_k_in_range (N : Numpy) (S : NumpySpec N) (s : list num) (k : nat)
    (full_sort : bool) (out : list nat) :
  top_k s k full_sort = Ok out -> Forall (fun i => (i < length s)%nat) out.
Proof.
  unfold top_k, np_argpartition. intros H.
  assert (Hperm : forall p, Permutation p (seq 0 (length s)) ->
                            Forall (fun i => (i < length s)%nat) (firstn k p)).
  { intros p Hp. apply Forall_firstn. apply Forall_forall. intros i Hi.
    apply (index_perm_facts _ _ Hp), Hi. }
  destruct full_sort.
  - injection H as <-. apply Hperm, (argsort_ok s).
  - apply bind_ok in H. destruct H as (p & Hp & H). injection H as <-.
    apply bind_ok in Hp. destruct Hp as (kth & Hk & Hp). injection Hp as <-.
    apply Hperm, (argpartition_ok s kth), (check_kth_ok _ _ _ Hk).
Qed.

Lemma sliding_window_view_ok (x : list (list num)) (F ws : nat) (temp : list (list (list num))) :
  sliding_window_view x F ws = Ok temp ->
  (1 <= ws <= length x)%nat /\
  temp = map (fun c => transpose F (firstn ws (skipn c x))) (seq 0 (length x - ws + 1)).
Proof.
  unfold sliding_window_view. intros H.
  destruct (Nat.eqb_spec ws 0); [discriminate |].
  destruct (Nat.ltb_spec (length x) ws); [discriminate |].
  simpl in H. injection H as <-. split; [lia | reflexivity].
Qed.

(** What a successful call of the window engine computed. *)
Lemma seasonal_window_match_array_ok (N : Numpy) (array : DataFrame)
    (len k ws fl : nat) (name : string) (full_sort : bool)
    (test : list (list Z)) (scores : list (list num)) :
  seasonal_window_match_array array len k ws fl name full_sort = Ok (test, scores) ->
  let n_tail := if (min_k <? k)%nat then Nat.min ws fl else fl in
  let x := slice_drop_last n_tail (values array) in
  exists metric min_idx,
    (1 <= ws <= length x)%nat /\
    select_metric name ws = Ok metric /\
    scores = map (fun c => map2 metric (transpose (ncols array) (firstn ws (skipn c x)))
                                (transpose (ncols array) (slice_last ws (values array))))
                 (seq 0 (length x - ws + 1)) /\
    top_k (map nmean scores) k full_sort = Ok min_idx /\
    test = (if (min_k <? k)%nat
            then fill_over_end len (window_offsets fl ws min_idx)
            else window_offsets fl ws min_idx).
Proof.
  intros H n_tail x. unfold seasonal_window_match_array, window_scores in H.
  fold n_tail in H. fold x in H.
  apply bind_ok in H. destruct H as (_ & _ & H).
  apply bind_ok in H. destruct H as (temp & Htemp & H).
  apply bind_ok in H. destruct H as (metric & Hmetric & H).
  apply bind_ok in H. destruct H as (_ & _ & H).
  apply bind_ok in H. destruct H as (min_idx & Hidx & H).
  injection H as <- <-.
  apply sliding_window_view_ok in Htemp. destruct Htemp as [Hws ->].
  exists metric, min_idx. rewrite map_map.
  split; [exact Hws | split; [exact Hmetric | split; [reflexivity | split]]].
  - rewrite !map_map in Hidx. rewrite map_map. exact Hidx.
  - reflexivity.
Qed.


Lemma slice_drop_last_length {A : Type} (n : nat) (l : list A) :
  (1 <= length (slice_drop_last n l))%nat ->
  (1 <= n)%nat /\ (length (slice_drop_last n l) = length l - n)%nat.
Proof.
  unfold slice_drop_last. destruct (Nat.eqb_spec n 0); simpl; [lia |].
  rewrite length_firstn. lia.
Qed.

Lemma window_offsets_cells (fl ws : nat) (min_idx : list nat) (P : Z -> Prop) :
  (forall step c, (step < fl)%nat -> In c min_idx -> P (Z.of_nat (step + c + ws))) ->
  Forall (Forall P) (window_offsets fl ws min_idx).
Proof.
  intros H. unfold window_offsets. apply Forall_forall. intros row Hrow.
  apply in_map_iff in Hrow. destruct Hrow as (step & <- & Hstep).
  apply in_seq in Hstep. apply Forall_forall. intros v Hv.
  apply in_map_iff in Hv. destruct Hv as (c & <- & Hc). apply H; [lia | exact Hc].
Qed.

Lemma fill_over_end_cells (len : nat) (test : list (list Z)) :
  Forall (Forall (fun v => (0 <= v)%Z)) test ->
  Forall (Forall (sentinel_or_index len)) (fill_over_end len test).
Proof.
  intros H. unfold fill_over_end. apply Forall_forall. intros row Hrow.
  apply in_map_iff in Hrow. destruct Hrow as (r & <- & Hr).
  rewrite Forall_forall in H. specialize (H r Hr). rewrite Forall_forall in H.
  apply Forall_forall. intros v Hv. apply in_map_iff in Hv.
  destruct Hv as (u & <- & Hu). specialize (H u Hu). unfold sentinel_or_index.
  destruct (Z.leb_spec (Z.of_nat len) u); [left; reflexivity | right; lia].
Qed.

(** With [k <= 5] the candidate windows stop [forecast_length] rows before
    the end of history, so every projected offset lies inside it. *)
Lemma small_k_offsets_in_history (N : Numpy) (S : NumpySpec N) (array : DataFrame)
    (len k ws fl : nat) (name : string) (full_sort : bool)
    (test : list (list Z)) (scores : list (list num)) :
  (k <= min_k)%nat ->
  seasonal_window_match_array array len k ws fl name full_sort = Ok (test, scores) ->
  (exists min_idx, top_k (map nmean scores) k full_sort = Ok min_idx /\
                   test = window_offsets fl ws min_idx) /\
  Forall (Forall (index_in_history (length (values array)))) test.
Proof.
  intros Hk H. apply seasonal_window_match_array_ok in H.
  destruct H as (metric & min_idx & Hws & _ & Hscores & Hidx & Htest).
  destruct (Nat.ltb_spec min_k k) as [Hlt | _]; [lia |].
  subst test. split; [exists min_idx; split; [exact Hidx | reflexivity] |].
  assert (Hrange := top_k_in_range N S _ _ _ _ Hidx).
  rewrite Hscores, !length_map, length_seq in Hrange.
  destruct (slice_drop_last_length fl (values array)) as [Hfl Hlen]; [lia |].
  apply window_offsets_cells. intros step c Hstep Hc.
  rewrite Forall_forall in Hrange. specialize (Hrange c Hc).
  unfold index_in_history. lia.
Qed.

(** C5 (amended). In the window match engine, whenever [k > 5] every cell
    of the returned offset matrix is the sentinel -1 or an index strictly
    less than the history length [len(DTindex)]; whenever [k <= 5] no
    replacement is performed, and none is needed: the returned offsets are the
    unreplaced [candidate + window_size + step], all strictly less than the
    number of rows of the encoded history. *)
Theorem window_match_sentinel_rule (N : Numpy) (S : NumpySpec N) (array : DataFrame)
    (len k ws fl : nat) (name : string) (full_sort : bool)
    (test : list (list Z)) (scores : list (list num)) :
  seasonal_window_match_array array len k ws fl name full_sort = Ok (test, scores) ->
  ((min_k < k)%nat -> Forall (Forall (sentinel_or_index len)) test) /\
  ((k <= min_k)%nat ->
     (exists min_idx, top_k (map nmean scores) k full_sort = Ok min_idx /\
                      test = window_offsets fl ws min_idx) /\
     Forall (Forall (index_in_history (length (values array)))) test).
Proof.
  intros H. split.
  - intros Hk. apply seasonal_window_match_array_ok in H.
    destruct H as (metric & min_idx & _ & _ & _ & _ & Htest).
    destruct (Nat.ltb_spec min_k k) as [_ | Hle]; [| lia].
    subst test. apply fill_over_end_cells, window_offsets_cells.
    intros step c _ _. lia.
  - intros Hk. exact (small_k_offsets_in_history N S array len k ws fl name full_sort
                        test scores Hk H).
Qed.

(** C5 (counterexample). No call with [k <= 5] returns an offset at or past
    the end of history. *)
Lemma small_k_never_out_of_range : ~ small_k_out_of_range_claim.
Proof.
  intros (N & S & array & k & ws & fl & name & fs & test & scores & Hk & H & Hex).
  destruct (small_k_offsets_in_history N S array _ k ws fl name fs test scores Hk H)
    as [_ Hin].
  apply Exists_exists in Hex. destruct Hex as (row & Hrow & Hex).
  apply Exists_exists in Hex. destruct Hex as (v & Hv & Hge).
  rewrite Forall_forall in Hin. specialize (Hin row Hrow).
  rewrite Forall_forall in Hin. specialize (Hin v Hv).
  unfold index_in_history in Hin. lia.
Qed.

Lemma window_match_sentinel_rule_witness :
  let test := [[7; 6; 5; 4; 3; 2]; [-1; 7; 6; 5; 4; 3]; [-1; -1; 7; 6; 5; 4]]%Z in
  let scores := [[Fin 7]; [Fin 6]; [Fin 5]; [Fin 4]; [Fin 3]; [Fin 2]; [Fin 1]] in
  NumpySpec numpy_stable /\
  seasonal_window_match_array (H := numpy_stable) ramp8 8 6 1 3 "mae" true
    = Ok (test, scores) /\
  ((min_k < 6)%nat -> Forall (Forall (sentinel_or_index 8)) test) /\
  ((6 <= min_k)%nat ->
     (exists min_idx, top_k (H := numpy_stable) (map nmean scores) 6 true = Ok min_idx /\
                      test = window_offsets 3 1 min_idx) /\
     Forall (Forall (index_in_history (length (values ramp8)))) test).
Proof.
  intros test scores.
  split; [exact numpy_stable_spec | split; [vm_compute; reflexivity |]].
  apply (window_match_sentinel_rule numpy_stable numpy_stable_spec ramp8 8 6 1 3
           "mae" true test scores).
  vm_compute; reflexivity.
Defined.

(* ---------------------------------------------------------------- *)
(** ** Scores of the [mae] metric on finite windows *)



(** The mean of finite non-negative scores is zero only if all are. *)
Lemma nmean_nonneg (l : list num) :
  Forall (fun x => exists m, x = Fin m /\ 0 <= m) l -> (1 <= length l)%nat ->
  exists M, nmean l = Fin M /\ 0 <= M /\
            (M == 0 <-> Forall (fun x => qval x == 0) l).
Proof.
  intros Hl Hpos.
  assert (Hf : Forall is_fin l).
  { eapply Forall_impl; [| exact Hl]. intros x (m & -> & _). exact I. }
  assert (Hsum : 0 <= Qsum (map qval l) /\
                 (Qsum (map qval l) == 0 <-> Forall (fun x => qval x == 0) l)).
  { clear Hpos Hf. induction Hl as [| x l (m & -> & Hm) Hl IH].
    - cbn. split; [lra | split; [constructor | lra]].
    - destruct IH as [Hnn Hiff]. cbn [map Qsum qval]. split; [lra |]. split.
      + intros Hz. constructor; [simpl; lra | apply Hiff; lra].
      + intros H2. inversion H2 as [| ? ? Hx Hrest]; subst. simpl in Hx.
        apply Hiff in Hrest. lra. }
  destruct Hsum as [Hnn Hiff].
  rewrite nmean_fin by assumption.
  assert (Hq : 0 < Qlen l) by (apply Qlen_pos; lia).
  eexists. split; [reflexivity | split].
  - apply Qle_shift_div_l; [exact Hq | lra].
  - rewrite <- Hiff. split; intros Hz.
    + assert (E : Qsum (map qval l) == Qsum (map qval l) / Qlen l * Qlen l)
        by (field; lra).
      rewrite E, Hz. lra.
    + rewrite Hz. field. lra.
Qed.

















(* ================================================================== *)
(** * The calendar feature encoder *)
(* ================================================================== *)

Lemma hour_range (ts : Z) : (0 <= DT.hour ts <= 23)%Z.
Proof.
  unfold DT.hour, DT.ns_per_day, DT.ns_per_hour, DT.ns_per_second.
  assert (H := Z.mod_pos_bound ts (86400 * 1000000000) ltac:(lia)).
  split.
  - apply Z.div_pos; lia.
  - assert (ts mod (86400 * 1000000000) / (3600 * 1000000000) < 24)%Z; [| lia].
    apply Z.div_lt_upper_bound; lia.
Qed.

Lemma frame_row (cols : list feature) (DTindex : list Z) (i : nat) (ts : Z) :
  nth_error DTindex i = Some ts ->
  nth_error (values (frame cols DTindex)) i = Some (map (fun c => snd c ts) cols).
Proof.
  intros H. unfold frame, frame_as. cbn [values].
  rewrite nth_error_map, H. reflexivity.
Qed.

(** C9. For every non-empty timestamp sequence the scheme "hour" produces
    exactly the 24 one-hot columns hour_1 .. hour_24 of the fixed category
    domain 1..24; the hour of a timestamp lies in 0..23, and a timestamp
    whose hour is 0 encodes as an all-zero row. *)
Theorem hour_scheme_one_hot (N : Numpy) (C : Collaborators) (DTindex : list Z) :
  DTindex <> [] ->
  exists df,
    date_part DTindex (SStr "hour") true None None true = Ok df /\
    columns df = map (fun c => ("hour_" ++ str_Z c)%string) (range 1 25) /\
    ncols df = 24%nat /\
    length (values df) = length DTindex /\
    (forall i ts, nth_error DTindex i = Some ts ->
       (0 <= DT.hour ts <= 23)%Z /\
       nth_error (values df) i
       = Some (map (fun c => if (DT.hour ts =? c)%Z then Fin 1 else Fin 0) (range 1 25)) /\
       (DT.hour ts = 0%Z -> nth_error (values df) i = Some (repeat (Fin 0) 24))).
Proof.
  intros _. exists (frame (get_dummies "hour" (range 1 25) DT.hour) DTindex).
  split; [reflexivity | split; [reflexivity | split; [reflexivity | split]]].
  - unfold frame, frame_as. cbn [values]. apply length_map.
  - intros i ts Hts. split; [apply hour_range |].
    rewrite (frame_row _ _ _ _ Hts). unfold get_dummies. rewrite map_map. cbn [snd].
    split; [reflexivity |]. intros ->. reflexivity.
Qed.

Lemma hour_scheme_one_hot_witness :
  [DT.timestamp 2024 1 1; (DT.timestamp 2024 1 1 + DT.ns_per_hour)%Z] <> [] /\
  exists df,
    date_part (H := numpy_stable) (H0 := no_collaborators)
              [DT.timestamp 2024 1 1; (DT.timestamp 2024 1 1 + DT.ns_per_hour)%Z]
              (SStr "hour") true None None true = Ok df /\
    columns df = map (fun c => ("hour_" ++ str_Z c)%string) (range 1 25) /\
    ncols df = 24%nat /\
    length (values df) = 2%nat /\
    (forall i ts,
       nth_error [DT.timestamp 2024 1 1; (DT.timestamp 2024 1 1 + DT.ns_per_hour)%Z] i
       = Some ts ->
       (0 <= DT.hour ts <= 23)%Z /\
       nth_error (values df) i
       = Some (map (fun c => if (DT.hour ts =? c)%Z then Fin 1 else Fin 0) (range 1 25)) /\
       (DT.hour ts = 0%Z -> nth_error (values df) i = Some (repeat (Fin 0) 24))).
Proof.
  split; [discriminate |].
  apply (hour_scheme_one_hot numpy_stable no_collaborators). discriminate.
Defined.

Lemma fold_min_ordered (x : Z) (l : list Z) :
  Forall (Z.le x) l -> fold_left Z.min l x = x.
Proof.
  induction 1 as [| y l Hy Hl IH]; [reflexivity |].
  cbn [fold_left]. rewrite Z.min_l by exact Hy. exact IH.
Qed.

Lemma fold_max_ordered (x : Z) (l : list Z) :
  ordered Z.le (x :: l) -> fold_left Z.max l x = last (x :: l) 0%Z.
Proof.
  revert x. induction l as [| y l IH]; intros x H; [reflexivity |].
  inversion H as [| ? ? Hx Hl]; subst. inversion Hx as [| ? ? Hxy _]; subst.
  cbn [fold_left]. rewrite Z.max_r by exact Hxy. rewrite (IH y Hl). reflexivity.
Qed.

Lemma ordered_hd_le_last (x : Z) (l : list Z) :
  ordered Z.le (x :: l) -> (x <= last (x :: l) 0)%Z.
Proof.
  intros H. inversion H as [| ? ? Hx _]; subst.
  destruct l as [| y l]; [simpl; lia |].
  rewrite Forall_forall in Hx. apply Hx.
  change (last (x :: y :: l) 0%Z) with (last (y :: l) 0%Z).
  destruct (exists_last (l := y :: l) ltac:(discriminate)) as (l' & z & E).
  rewrite E, last_last. apply in_or_app. right. left. reflexivity.
Qed.

(** The history span of an increasing index that starts and ends on the same
    day is zero days. *)
Lemma same_day_span (DTindex : list Z) :
  DTindex <> [] -> ordered Z.le DTindex ->
  DT.days (hd 0%Z DTindex) = DT.days (last DTindex 0%Z) ->
  DT.days (DT.max DTindex - DT.min DTindex) = 0%Z.
Proof.
  intros Hne Hord Hday. destruct DTindex as [| x l]; [congruence |].
  assert (Hle := ordered_hd_le_last x l Hord).
  unfold DT.max, DT.min. rewrite (fold_max_ordered x l Hord).
  inversion Hord as [| ? ? Hx _]; subst. rewrite (fold_min_ordered x l Hx).
  cbn [hd] in Hday. revert Hday Hle. generalize (last (x :: l) 0%Z). intros y Hday Hle.
  unfold DT.days, DT.ns_per_day, DT.ns_per_second in *.
  assert (Hx1 := Z.div_mod x (86400 * 1000000000) ltac:(lia)).
  assert (Hy1 := Z.div_mod y (86400 * 1000000000) ltac:(lia)).
  assert (Hx2 := Z.mod_pos_bound x (86400 * 1000000000) ltac:(lia)).
  assert (Hy2 := Z.mod_pos_bound y (86400 * 1000000000) ltac:(lia)).
  apply Z.div_small. lia.
Qed.

(** The last steps of [date_part] return on every 2-D frame, and on every
    date part when no polynomial expansion is asked for. *)
Lemma date_part_finish_ok (C : Collaborators) (DTindex : list Z) (df : DataFrame)
    (set_index : bool) (polynomial_degree : option nat)
    (holiday_country : option string) (holiday_countries_used : bool) :
  layout_of df <> IndexSeries \/ polynomial_degree = None ->
  exists df', date_part_finish DTindex df set_index polynomial_degree holiday_country
                               holiday_countries_used = Ok df'.
Proof.
  intros H. unfold date_part_finish.
  assert (E : exists d,
            match polynomial_degree with
            | Some degree =>
                match layout_of df with
                | IndexSeries => Raise ValueError
                | _ =>
                    Ok {| columns := map (fun x => ("dp" ++ x)%string)
                                         (columns (polynomial_features degree df));
                          values := values (polynomial_features degree df);
                          layout_of := Table |}
                end
            | None => Ok df
            end = Ok d).
  { destruct polynomial_degree as [degree |]; [| eexists; reflexivity].
    destruct H as [H | H]; [| discriminate H].
    destruct (layout_of df); try (eexists; reflexivity). congruence. }
  destruct E as (d & ->). cbn [bind].
  destruct holiday_country; [destruct holiday_countries_used |]; eexists; reflexivity.
Qed.

Lemma date_part_finish_default (C : Collaborators) (DTindex : list Z) (df : DataFrame)
    (set_index holiday_countries_used : bool) :
  date_part_finish DTindex df set_index None None holiday_countries_used = Ok df.
Proof. reflexivity. Qed.

(** C10. For every increasing timestamp sequence whose first and last
    timestamps fall on the same day, in particular for every single
    timestamp, encoding with a numeric scheme raises ZeroDivisionError: the
    history span is 0 days and the period is divided by it. The
    "common_fourier" scheme returns a frame on a single timestamp. *)
Theorem numeric_scheme_same_day_raises (N : Numpy) (C : Collaborators)
    (DTindex : list Z) (method : scheme) (set_index : bool)
    (polynomial_degree : option nat) (holiday_country : option string)
    (holiday_countries_used : bool) :
  is_numeric method -> DTindex <> [] -> ordered Z.le DTindex ->
  DT.days (hd 0%Z DTindex) = DT.days (last DTindex 0%Z) ->
  date_part DTindex method set_index polynomial_degree holiday_country
            holiday_countries_used = Raise ZeroDivisionError /\
  (forall ts, date_part [ts] method set_index polynomial_degree holiday_country
                        holiday_countries_used = Raise ZeroDivisionError) /\
  (forall ts, exists df,
      date_part [ts] (SStr "common_fourier") set_index polynomial_degree
                holiday_country holiday_countries_used = Ok df).
Proof.
  intros Hnum Hne Hord Hday.
  assert (Hraise : forall index, index <> [] ->
            DT.days (DT.max index - DT.min index) = 0%Z ->
            date_part index method set_index polynomial_degree holiday_country
                      holiday_countries_used = Raise ZeroDivisionError).
  { intros index Hindex Hspan.
    destruct index as [| ts index]; [congruence |].
    destruct method as [name | z | q | l]; try contradiction;
      cbn [date_part]; unfold fourier_df; rewrite Hspan; reflexivity. }
  split; [apply Hraise; [| apply same_day_span]; assumption | split].
  - intros ts. apply Hraise; [discriminate |]. unfold DT.max, DT.min. cbn [fold_left].
    rewrite Z.sub_diag. reflexivity.
  - intros ts. cbn [date_part].
    change (is_substring "_poly" "common_fourier") with false. cbv iota.
    change (date_part_named [ts] "common_fourier") with (Ok (common_fourier [ts] false)).
    cbn [bind]. apply date_part_finish_ok. left. discriminate.
Qed.

Lemma numeric_scheme_same_day_raises_witness :
  let DTindex := [DT.timestamp 2024 1 1; (DT.timestamp 2024 1 1 + DT.ns_per_hour)%Z] in
  is_numeric (SInt 7) /\ DTindex <> [] /\ ordered Z.le DTindex /\
  DT.days (hd 0%Z DTindex) = DT.days (last DTindex 0%Z) /\
  date_part (H := numpy_stable) (H0 := no_collaborators) DTindex (SInt 7)
            true None None true = Raise ZeroDivisionError /\
  (forall ts, date_part (H := numpy_stable) (H0 := no_collaborators) [ts] (SInt 7)
                        true None None true = Raise ZeroDivisionError) /\
  (forall ts, exists df,
      date_part (H := numpy_stable) (H0 := no_collaborators) [ts]
                (SStr "common_fourier") true None None true = Ok df).
Proof.
  intros DTindex.
  assert (Hord : ordered Z.le DTindex).
  { repeat constructor. vm_compute. discriminate. }
  split; [exact I | split; [discriminate | split; [exact Hord | split; [reflexivity |]]]].
  apply (numeric_scheme_same_day_raises numpy_stable no_collaborators DTindex (SInt 7));
    [exact I | discriminate | exact Hord | reflexivity].
Defined.

Lemma str_in_false (x : string) (names : list string) :
  str_in x names = false -> forall y, In y names -> String.eqb x y = false.
Proof.
  unfold str_in. intros H y Hy.
  destruct (String.eqb x y) eqn:E; [| reflexivity].
  assert (Hex : existsb (String.eqb x) names = true)
    by (apply existsb_exists; exists y; auto).
  congruence.
Qed.

(** Every component named in [datepart_components] has its branch in
    [create_datepart_components]. *)
Lemma create_datepart_components_listed (DTindex : list Z) (name : string) :
  str_in name datepart_components = true ->
  exists df, create_datepart_components DTindex name = Ok df.
Proof.
  unfold str_in. intros H. apply existsb_exists in H.
  destruct H as (y & Hy & E). apply String.eqb_eq in E. subst y.
  unfold datepart_components in Hy. simpl in Hy.
  repeat (destruct Hy as [<- | Hy]; [eexists; reflexivity |]). contradiction.
Qed.

(** [date_part] has no failing branch for a name. *)
Lemma date_part_named_ok (N : Numpy) (C : Collaborators) (DTindex : list Z)
    (name : string) :
  exists df, date_part_named DTindex name = Ok df.
Proof.
  unfold date_part_named.
  destruct (str_in name datepart_components) eqn:E;
    [apply create_datepart_components_listed, E |].
  destruct (String.eqb name "recurring"); [eexists; reflexivity |].
  destruct (str_in name ["simple_2"; "simple_2_poly"]%string); [eexists; reflexivity |].
  destruct (str_in name ["simple_3"; "lunar_phase"]%string).
  { destruct (String.eqb name "lunar_phase"); eexists; reflexivity. }
  destruct (is_substring "simple_binarized" name); [eexists; reflexivity |].
  destruct (is_substring name "expanded_binarized"); [eexists; reflexivity |].
  destruct (str_in name ["common_fourier"; "common_fourier_rw"]%string);
    [eexists; reflexivity |].
  destruct (String.eqb name "expanded"); eexists; reflexivity.
Qed.

(** A name outside the enumeration that no substring test catches reaches
    the last branch. *)
Lemma date_part_named_default (N : Numpy) (C : Collaborators) (DTindex : list Z)
    (name : string) :
  str_in name enumerated_names = false ->
  is_substring "_poly" name = false ->
  is_substring "simple_binarized" name = false ->
  is_substring name "expanded_binarized" = false ->
  date_part_named DTindex name = Ok (frame simple_cols DTindex).
Proof.
  intros Henum Hpoly Hbin Hexp.
  unfold enumerated_names, str_in in Henum. rewrite existsb_app in Henum.
  apply orb_false_iff in Henum. destruct Henum as [Hm Hc].
  assert (Hne : forall y, In y date_part_methods -> String.eqb name y = false)
    by (apply str_in_false, Hm).
  assert (Hpoly2 : String.eqb name "simple_2_poly" = false).
  { destruct (String.eqb_spec name "simple_2_poly") as [-> | _]; [| reflexivity].
    vm_compute in Hpoly. discriminate Hpoly. }
  assert (H1 := Hne "recurring"%string ltac:(simpl; tauto)).
  assert (H2 := Hne "simple_2"%string ltac:(simpl; tauto)).
  assert (H3 := Hne "simple_3"%string ltac:(simpl; tauto)).
  assert (H4 := Hne "lunar_phase"%string ltac:(simpl; tauto)).
  assert (H5 := Hne "common_fourier"%string ltac:(simpl; tauto)).
  assert (H6 := Hne "common_fourier_rw"%string ltac:(simpl; tauto)).
  assert (H7 := Hne "expanded"%string ltac:(simpl; tauto)).
  unfold date_part_named, str_in. rewrite Hc. cbn [existsb].
  rewrite H1, H2, H3, H4, H5, H6, H7, Hpoly2, Hbin, Hexp. reflexivity.
Qed.

(** C1 (amended). For every non-empty timestamp sequence, [date_part]
    called with a string scheme name and its other arguments at their defaults
    raises no error when the name holds no "_poly": a name that is not
    enumerated silently produces a feature matrix, the default "simple" one
    (year, month, day, weekday) when the name neither contains
    "simple_binarized" nor is a substring of "expanded_binarized". The one
    error a name meets is the ValueError of the polynomial expansion, raised
    on the 1-D date part when the name holds "_poly" and is "days_from_epoch"
    without it. *)
Theorem date_part_name_outcomes (N : Numpy) (C : Collaborators)
    (DTindex : list Z) (name : string) :
  DTindex <> [] ->
  (is_substring "_poly" name = false ->
   forall set_index holiday_countries_used,
     exists df, date_part DTindex (SStr name) set_index None None
                          holiday_countries_used = Ok df) /\
  (str_in name enumerated_names = false ->
   is_substring "_poly" name = false ->
   is_substring "simple_binarized" name = false ->
   is_substring name "expanded_binarized" = false ->
   date_part DTindex (SStr name) true None None true = Ok (frame simple_cols DTindex)) /\
  (is_substring "_poly" name = true ->
   replace "_poly" "" name = "days_from_epoch"%string ->
   forall set_index polynomial_degree holiday_country holiday_countries_used,
     date_part DTindex (SStr name) set_index polynomial_degree holiday_country
               holiday_countries_used = Raise ValueError).
Proof.
  intros _. split; [| split].
  - intros Hpoly set_index holiday_countries_used. cbn [date_part]. rewrite Hpoly.
    destruct (date_part_named_ok N C DTindex name) as (df & ->).
    exists df. reflexivity.
  - intros Henum Hpoly Hbin Hexp. cbn [date_part]. rewrite Hpoly.
    rewrite (date_part_named_default N C DTindex name Henum Hpoly Hbin Hexp).
    reflexivity.
  - intros Hpoly Hname set_index polynomial_degree holiday_country holiday_countries_used.
    cbn [date_part]. rewrite Hpoly, Hname. reflexivity.
Qed.

Lemma date_part_name_outcomes_witness :
  [DT.timestamp 2024 1 1] <> [] /\
  str_in "foo" enumerated_names = false /\
  is_substring "_poly" "foo" = false /\
  is_substring "simple_binarized" "foo" = false /\
  is_substring "foo" "expanded_binarized" = false /\
  date_part (H := numpy_stable) (H0 := no_collaborators) [DT.timestamp 2024 1 1]
            (SStr "foo") true None None true
  = Ok (frame simple_cols [DT.timestamp 2024 1 1]) /\
  str_in "days_from_epoch_poly" enumerated_names = false /\
  is_substring "_poly" "days_from_epoch_poly" = true /\
  replace "_poly" "" "days_from_epoch_poly" = "days_from_epoch"%string /\
  date_part (H := numpy_stable) (H0 := no_collaborators) [DT.timestamp 2024 1 1]
            (SStr "days_from_epoch_poly") true None None true
  = Raise ValueError.
Proof.
  assert (Hne : [DT.timestamp 2024 1 1] <> []) by discriminate.
  split; [exact Hne |].
  do 4 (split; [reflexivity |]).
  split.
  { apply (proj1 (proj2 (date_part_name_outcomes numpy_stable no_collaborators
                           [DT.timestamp 2024 1 1] "foo" Hne))); reflexivity. }
  do 3 (split; [reflexivity |]).
  apply (proj2 (proj2 (date_part_name_outcomes numpy_stable no_collaborators
                         [DT.timestamp 2024 1 1] "days_from_epoch_poly" Hne)));
    reflexivity.
Defined.

(** C1 (counterexample). [date_part] on 2024-01-01 with the name "foo",
    which no list of schemes holds, returns the "simple" row
    (2024, 1, 1, 0) and raises nothing. *)
Lemma unknown_name_falls_through_to_simple : ~ unknown_name_raises_claim.
Proof.
  intros Hclaim.
  specialize (Hclaim numpy_stable no_collaborators [DT.timestamp 2024 1 1] "foo"%string
                     ltac:(discriminate) eq_refl).
  assert (E : date_part (H := numpy_stable) (H0 := no_collaborators)
                        [DT.timestamp 2024 1 1] (SStr "foo") true None None true
              = Ok {| columns := ["year"; "month"; "day"; "weekday"]%string;
                      values := [[Fin 2024; Fin 1; Fin 1; Fin 0]];
                      layout_of := Table |}) by (vm_compute; reflexivity).
  rewrite E in Hclaim. discriminate Hclaim.
Qed.

(* ================================================================== *)
(** * The independent match engine *)
(* ================================================================== *)

(* ---------------------------------------------------------------- *)
(** ** Metrics on a masked row *)

Lemma abs_diff_inf (F : nat) (b : list num) :
  length b = F -> Forall is_fin b -> abs_diff (repeat PInf F) b = repeat PInf F.
Proof.
  unfold abs_diff, map2. revert b.
  induction F as [| F IH]; intros [| y b] Hlen Hb; try discriminate; [reflexivity |].
  inversion Hb as [| ? ? Hy Hb']; subst. cbn [repeat combine map fst snd].
  rewrite IH by (simpl in Hlen; lia || assumption).
  destruct y; try contradiction. reflexivity.
Qed.

Lemma sub_inf (F : nat) (b : list num) :
  length b = F -> Forall is_fin b -> map2 nsub (repeat PInf F) b = repeat PInf F.
Proof.
  unfold map2. revert b.
  induction F as [| F IH]; intros [| y b] Hlen Hb; try discriminate; [reflexivity |].
  inversion Hb as [| ? ? Hy Hb']; subst. cbn [repeat combine map fst snd].
  rewrite IH by (simpl in Hlen; lia || assumption).
  destruct y; try contradiction. reflexivity.
Qed.

Lemma nsum_repeat_inf (F : nat) : (1 <= F)%nat -> nsum (repeat PInf F) = PInf.
Proof.
  unfold nsum. induction F as [| [| F] IH]; intros H; [lia | reflexivity |].
  cbn [repeat fold_right] in *. rewrite IH by lia. reflexivity.
Qed.

Lemma nsum_repeat_nan (F : nat) : (1 <= F)%nat -> nsum (repeat NaN F) = NaN.
Proof.
  unfold nsum. destruct F as [| F]; intros H; [lia | reflexivity].
Qed.

Lemma ndiv_inf_count (n : nat) : ndiv PInf (nat_num n) = PInf.
Proof.
  unfold nat_num. cbn [ndiv].
  replace (Qle_bool 0 (inject_Z (Z.of_nat n))) with true; [reflexivity |].
  symmetry. apply Qle_bool_iff. change 0 with (inject_Z 0). rewrite <- Zle_Qle. lia.
Qed.

Lemma nmean_repeat_inf (F : nat) : (1 <= F)%nat -> nmean (repeat PInf F) = PInf.
Proof.
  intros H. unfold nmean. rewrite nsum_repeat_inf by exact H. apply ndiv_inf_count.
Qed.

Lemma nmean_repeat_nan (F : nat) : (1 <= F)%nat -> nmean (repeat NaN F) = NaN.
Proof.
  intros H. unfold nmean. rewrite nsum_repeat_nan by exact H. reflexivity.
Qed.

Lemma nmax_list_repeat_inf (F : nat) : (1 <= F)%nat -> nmax_list (repeat PInf F) = PInf.
Proof.
  destruct F as [| F]; intros H; [lia |]. cbn [repeat nmax_list]. clear H.
  induction F as [| F IH]; [reflexivity | exact IH].
Qed.

Lemma map2_repeat {A B C : Type} (f : A -> B -> C) (x : A) (y : B) (n : nat) :
  map2 f (repeat x n) (repeat y n) = repeat (f x y) n.
Proof.
  unfold map2. induction n as [| n IH]; [reflexivity |].
  cbn [repeat combine map fst snd]. rewrite IH. reflexivity.
Qed.

Lemma firstn_of_repeat {A : Type} (x : A) (k n : nat) :
  firstn k (repeat x n) = repeat x (Nat.min k n).
Proof.
  revert n. induction k as [| k IH]; intros [| n]; try reflexivity.
  cbn [repeat firstn Nat.min]. rewrite IH. reflexivity.
Qed.

Lemma permutation_of_repeat {A : Type} (x : A) (n : nat) (l : list A) :
  Permutation l (repeat x n) -> l = repeat x n.
Proof.
  intros Hp.
  assert (Hn : length l = n) by (rewrite (Permutation_length Hp); apply repeat_length).
  rewrite <- Hn. apply Forall_eq_repeat. apply Forall_forall. intros y Hy.
  symmetry. apply (repeat_spec n x y). apply (Permutation_in _ Hp Hy).
Qed.

(** A masked row scores [+inf] against a finite row under every metric but
    canberra, where [inf / inf] is NaN. *)
Lemma metric_masked (N : Numpy) (S : NumpySpec N) (m : metric) (F : nat) (b : list num) :
  (1 <= F)%nat -> length b = F -> Forall is_fin b ->
  metric_fun m (repeat PInf F) b = masked_score m.
Proof.
  intros HF Hlen Hb.
  destruct m; cbn [metric_fun masked_score];
    unfold mae, canberra, minkowski, euclidean, chebyshev, mqae, mse.
  - rewrite abs_diff_inf by assumption. apply nmean_repeat_inf, HF.
  - rewrite abs_diff_inf by assumption.
    assert (E : map2 (fun x y => nadd (nabs x) (nabs y)) (repeat PInf F) b = repeat PInf F).
    { clear HF. revert b Hlen Hb. unfold map2.
      induction F as [| F IH]; intros [| y b] Hlen Hb; try discriminate; [reflexivity |].
      inversion Hb as [| ? ? Hy Hb']; subst. cbn [repeat combine map fst snd].
      rewrite IH by (simpl in Hlen; lia || assumption).
      destruct y; try contradiction. reflexivity. }
    rewrite E, map_repeat. cbn [nis_zero]. rewrite map2_repeat. cbn [ndiv].
    apply nmean_repeat_nan, HF.
  - rewrite abs_diff_inf by assumption. rewrite map_repeat. cbn [nmul].
    rewrite nsum_repeat_inf by exact HF. reflexivity.
  - rewrite sub_inf by assumption. rewrite map_repeat. cbn [nmul].
    rewrite nsum_repeat_inf by exact HF. reflexivity.
  - rewrite abs_diff_inf by assumption. apply nmax_list_repeat_inf, HF.
  - rewrite abs_diff_inf by assumption. unfold mqae_vals. rewrite repeat_length.
    destruct (Nat.leb_spec F 1) as [H1 | H2]; [apply nmean_repeat_inf, HF |].
    destruct (mqae_qi_bounds F H2) as [Hq1 Hq2].
    destruct (partition_ok (repeat PInf F) (mqae_qi F)) as (Hp & _);
      [rewrite repeat_length; exact Hq2 |].
    rewrite (permutation_of_repeat _ _ _ Hp), firstn_of_repeat.
    rewrite Nat.min_l by lia. apply nmean_repeat_inf, Hq1.
  - rewrite sub_inf by assumption. rewrite map_repeat. cbn [nmul].
    apply nmean_repeat_inf, HF.
Qed.

(* ---------------------------------------------------------------- *)
(** ** Metrics on finite rows *)

Lemma map2_fin (f : num -> num -> num) (a b : list num) :
  (forall x y, is_fin x -> is_fin y -> is_fin (f x y)) ->
  Forall is_fin a -> Forall is_fin b -> Forall is_fin (map2 f a b).
Proof.
  intros Hf Ha. revert b. unfold map2.
  induction Ha as [| x a Hx Ha IH]; intros b Hb; [constructor |].
  destruct Hb as [| y b Hy Hb]; [constructor |].
  cbn [combine map fst snd]. constructor; [apply Hf; assumption | apply IH, Hb].
Qed.

Lemma squares_fin (l : list num) :
  Forall is_fin l ->
  Forall is_fin (map (fun d => nmul d d) l) /\
  0 <= Qsum (map qval (map (fun d => nmul d d) l)).
Proof.
  induction 1 as [| x l Hx Hl [IH1 IH2]]; [split; [constructor | cbn; lra] |].
  destruct x as [q | | |]; try contradiction. cbn [map nmul qval Qsum].
  split; [constructor; [exact I | exact IH1] |]. nra.
Qed.

Lemma nsqrt_sum_fin (N : Numpy) (l : list num) :
  Forall is_fin l -> is_fin (nsqrt (nsum (map (fun d => nmul d d) l))).
Proof.
  intros Hl. destruct (squares_fin l Hl) as [Hf Hnn].
  rewrite (nsum_fin _ Hf). unfold nsqrt.
  destruct (Qltb (Qsum (map qval (map (fun d => nmul d d) l))) 0) eqn:E; [| exact I].
  apply Qltb_true in E. lra.
Qed.

Lemma nmean_is_fin (l : list num) :
  Forall is_fin l -> (1 <= length l)%nat -> is_fin (nmean l).
Proof.
  intros Hl Hn. rewrite nmean_fin by assumption. exact I.
Qed.

Lemma nmax_list_fin (l : list num) :
  Forall is_fin l -> (1 <= length l)%nat -> is_fin (nmax_list l).
Proof.
  intros Hl Hn. destruct Hl as [| x l Hx Hl]; [simpl in Hn; lia |].
  cbn [nmax_list]. clear Hn. revert x Hx.
  induction Hl as [| y l Hy Hl IH]; intros x Hx; [exact Hx |].
  cbn [fold_left]. apply IH.
  destruct x as [a | | |], y as [b | | |]; try contradiction.
  cbn [nmax]. destruct (Qle_bool a b); exact I.
Qed.

Lemma canberra_terms_fin (a b : list num) :
  Forall is_fin a -> Forall is_fin b ->
  Forall is_fin
    (map2 ndiv (abs_diff a b)
          (map (fun d => if nis_zero d then Fin 1 else d)
               (map2 (fun x y => nadd (nabs x) (nabs y)) a b))).
Proof.
  intros Ha. revert b. unfold abs_diff, map2.
  induction Ha as [| x a Hx Ha IH]; intros b Hb; [constructor |].
  destruct Hb as [| y b Hy Hb]; [constructor |].
  cbn [combine map fst snd]. constructor; [| apply IH, Hb].
  destruct x as [p | | |], y as [q | | |]; try contradiction.
  cbn [nabs nsub nneg nadd nis_zero].
  destruct (Qeqb (Qabs p + Qabs q) 0) eqn:E; cbn [ndiv].
  - change (Qeqb 1 0) with false. exact I.
  - rewrite E. exact I.
Qed.

(** On finite rows of equal, non-zero length every metric is finite. *)
Lemma metric_finite (N : Numpy) (S : NumpySpec N) (m : metric) (F : nat)
    (a b : list num) :
  (1 <= F)%nat -> length a = F -> length b = F ->
  Forall is_fin a -> Forall is_fin b ->
  is_fin (metric_fun m a b).
Proof.
  intros HF Hla Hlb Ha Hb.
  assert (Hae := abs_diff_fin a b Ha Hb).
  assert (Hlen : length (abs_diff a b) = F).
  { unfold abs_diff. rewrite map2_length. lia. }
  assert (Hsub : Forall is_fin (map2 nsub a b)).
  { apply map2_fin; try assumption.
    intros [p | | |] [q | | |]; try contradiction. intros _ _. exact I. }
  destruct m; cbn [metric_fun];
    unfold mae, canberra, minkowski, euclidean, chebyshev, mqae, mse.
  - apply nmean_is_fin; [exact Hae | lia].
  - apply nmean_is_fin; [apply canberra_terms_fin; assumption |].
    rewrite map2_length, length_map, map2_length. lia.
  - apply nsqrt_sum_fin, Hae.
  - apply nsqrt_sum_fin, Hsub.
  - apply nmax_list_fin; [exact Hae | lia].
  - destruct (Nat.le_gt_cases (length (abs_diff a b)) 1) as [Hone | Htwo].
    + unfold mqae_vals. destruct (Nat.leb_spec (length (abs_diff a b)) 1); [| lia].
      apply nmean_is_fin; [exact Hae | lia].
    + destruct (mqae_trimmed N S (abs_diff a b) Hae Htwo)
        as (P & R & t & -> & HlP & HfP & _).
      destruct (mqae_qi_bounds (length (abs_diff a b)) Htwo) as [Hq1 Hq2].
      apply nmean_is_fin; [exact HfP | lia].
  - apply nmean_is_fin; [apply (squares_fin _ Hsub) |].
    rewrite length_map, map2_length. lia.
Qed.

(* ---------------------------------------------------------------- *)
(** ** The scores and the selection of the independent engine *)

Lemma map2_nth {A B C : Type} (f : A -> B -> C) (a : list A) (b : list B)
    (h : nat) (da : A) (db : B) (dc : C) :
  (h < length a)%nat -> (h < length b)%nat ->
  nth h (map2 f a b) dc = f (nth h a da) (nth h b db).
Proof.
  unfold map2. revert b h.
  induction a as [| x a IH]; intros [| y b] [| h] Ha Hb; simpl in *; try lia.
  - reflexivity.
  - apply IH; lia.
Qed.

Lemma set_rows_inf_ok (array array' : DataFrame) (mask : list bool) :
  set_rows_inf array mask = Ok array' ->
  length mask = length (values array) /\
  ncols array' = ncols array /\ layout_of array' = layout_of array /\
  values array'
  = map2 (fun (masked : bool) r => if masked then map (fun _ => PInf) r else r)
         mask (values array).
Proof.
  unfold set_rows_inf. destruct (Nat.eqb_spec (length mask) (length (values array)));
    [| discriminate].
  intros H. injection H as <-. repeat split. exact e.
Qed.

(** What a successful call of the independent engine with a mask computed. *)
Lemma seasonal_independent_match_array_ok (N : Numpy) (array future_array : DataFrame)
    (len k : nat) (name : string) (full_sort : bool) (mask : list bool)
    (test : list (list Z)) (scores : list (list num)) :
  seasonal_independent_match_array array future_array len k name full_sort (Some mask)
    = Ok (test, scores) ->
  exists array' F metric min_idx_T,
    set_rows_inf array mask = Ok array' /\
    broadcast_len (ncols array') (ncols future_array) = Ok F /\
    select_metric name F = Ok metric /\
    scores = map (fun row_a =>
                    map (fun row_b => metric (stretch F row_a) (stretch F row_b))
                        (values future_array))
                 (values array') /\
    (if full_sort then
       Ok (map (fun f => firstn k (argsort (column f scores)))
               (seq 0 (length (values future_array))))
     else
       kth <- check_kth (length (values array')) (Z.of_nat k - 1) ;;
       Ok (map (fun f => firstn k (argpartition (column f scores) kth))
               (seq 0 (length (values future_array))))) = Ok min_idx_T /\
    test = (if (min_k <? k)%nat
            then fill_over_end len (map (map Z.of_nat) min_idx_T)
            else map (map Z.of_nat) min_idx_T).
Proof.
  unfold seasonal_independent_match_array, pairwise_scores. intros H.
  apply bind_ok in H. destruct H as (array' & Hmask & H).
  apply bind_ok in H. destruct H as (F & HF & H).
  apply bind_ok in H. destruct H as (metric & Hmetric & H).
  apply bind_ok in H. destruct H as (_ & _ & H).
  apply bind_ok in H. destruct H as (_ & _ & H).
  apply bind_ok in H. destruct H as (min_idx_T & Hidx & H).
  injection H as <- <-.
  exists array', F, metric, min_idx_T. repeat split; assumption.
Qed.

Lemma select_metric_ok (N : Numpy) (name : string) (F : nat)
    (metric : list num -> list num -> num) :
  select_metric name F = Ok metric ->
  exists m, metric_of_name name = Some m /\ metric = metric_fun m.
Proof.
  unfold select_metric. destruct (metric_of_name name) as [m |]; [| discriminate].
  intros H. exists m. split; [reflexivity |].
  destruct m; try (injection H as <-; reflexivity).
  destruct (F =? 0)%nat; [discriminate | injection H as <-; reflexivity].
Qed.

(** Each row of the selection lists [k] smallest scores of its column. *)
Lemma independent_selection (N : Numpy) (HS : NumpySpec N) (scores : list (list num))
    (n m k : nat) (full_sort : bool) (min_idx_T : list (list nat)) :
  length scores = n -> (k <= n)%nat ->
  (if full_sort then
     Ok (map (fun f => firstn k (argsort (column f scores))) (seq 0 m))
   else
     kth <- check_kth n (Z.of_nat k - 1) ;;
     Ok (map (fun f => firstn k (argpartition (column f scores) kth)) (seq 0 m)))
  = Ok min_idx_T ->
  Forall (fun out => exists f, (f < m)%nat /\ k_smallest (column f scores) k out)
         min_idx_T.
Proof.
  intros Hn Hk H.
  assert (Hcol : forall f, length (column f scores) = n).
  { intros f. unfold column. rewrite length_map. exact Hn. }
  destruct full_sort.
  - injection H as <-. apply Forall_forall. intros out Hout.
    apply in_map_iff in Hout. destruct Hout as (f & <- & Hf). apply in_seq in Hf.
    exists f. split; [lia |].
    apply argsort_firstn; [apply argsort_ok | rewrite Hcol; exact Hk].
  - apply bind_ok in H. destruct H as (kth & Hkth & H). injection H as <-.
    apply Forall_forall. intros out Hout.
    apply in_map_iff in Hout. destruct Hout as (f & <- & Hf). apply in_seq in Hf.
    exists f. split; [lia |].
    assert (Hlt := check_kth_ok _ _ _ Hkth).
    destruct k as [| k].
    + simpl. split; [reflexivity | split; [constructor | split; [constructor |]]].
      intros i j [].
    + rewrite check_kth_in_bounds in Hkth by lia.
      replace (Z.to_nat (Z.of_nat (S k) - 1)) with (S k - 1)%nat in Hkth by lia.
      injection Hkth as <-.
      apply argpartition_firstn; [| rewrite Hcol; exact Hk].
      apply argpartition_ok. rewrite Hcol. lia.
Qed.

(** A selection of [k] smallest scores holds no index that scores worse
    than each of [k] or more other indices. *)
Lemma worst_rows_not_selected (s : list num) (k : nat) (out U : list nat) (bad : nat) :
  k_smallest s k out -> NoDup U -> (k <= length U)%nat ->
  (forall u, In u U -> (u < length s)%nat /\ num_le (key s bad) (key s u) = false) ->
  ~ In bad out.
Proof.
  intros (Hlen & Hnd & Hall & Hlow) HU HkU Hworse Hbad.
  destruct (Forall_Exists_dec (fun u => In u out) (fun u => in_dec Nat.eq_dec u out) U)
    as [Hin | Hex].
  - rewrite Forall_forall in Hin.
    assert (Hincl : incl U (remove Nat.eq_dec bad out)).
    { intros u Hu. apply in_in_remove; [| apply Hin, Hu].
      intros ->. destruct (Hworse bad Hu) as [_ Hf].
      rewrite num_le_refl in Hf. discriminate Hf. }
    assert (H1 := NoDup_incl_length HU Hincl).
    assert (H2 := remove_length_lt Nat.eq_dec out bad Hbad). lia.
  - apply Exists_exists in Hex. destruct Hex as (u & Hu & Hnot).
    destruct (Hworse u Hu) as [Hlt Hf].
    rewrite (Hlow bad u Hbad Hlt Hnot) in Hf. discriminate Hf.
Qed.

Lemma key_column (f h : nat) (scores : list (list num)) :
  (h < length scores)%nat -> key (column f scores) h = nth f (nth h scores []) NaN.
Proof.
  intros Hh. unfold key, column.
  apply (nth_map_in (fun r => nth f r NaN) scores h [] NaN). exact Hh.
Qed.

Lemma unmasked_rows_facts (mask : list bool) :
  NoDup (unmasked_rows mask) /\
  forall u, In u (unmasked_rows mask) ->
            (u < length mask)%nat /\ nth u mask false = false.
Proof.
  unfold unmasked_rows. split; [apply NoDup_filter, seq_NoDup |].
  intros u Hu. apply filter_In in Hu. destruct Hu as [Hu Hm].
  apply in_seq in Hu. apply negb_true_iff in Hm. split; [lia | exact Hm].
Qed.

Lemma In_offsets_row (len k : nat) (min_idx_T : list (list nat)) (row : list Z) (h : nat) :
  In row (if (min_k <? k)%nat
          then fill_over_end len (map (map Z.of_nat) min_idx_T)
          else map (map Z.of_nat) min_idx_T) ->
  In (Z.of_nat h) row -> exists out, In out min_idx_T /\ In h out.
Proof.
  intros Hrow Hh. destruct (min_k <? k)%nat.
  - unfold fill_over_end in Hrow. rewrite map_map in Hrow.
    apply in_map_iff in Hrow. destruct Hrow as (out & <- & Hout).
    exists out. split; [exact Hout |]. rewrite map_map in Hh.
    apply in_map_iff in Hh. destruct Hh as (i & Hi & Hin).
    destruct (Z.of_nat len <=? Z.of_nat i)%Z; [lia |].
    apply Nat2Z.inj in Hi. subst i. exact Hin.
  - apply in_map_iff in Hrow. destruct Hrow as (out & <- & Hout).
    exists out. split; [exact Hout |].
    apply in_map_iff in Hh. destruct Hh as (i & Hi & Hin).
    apply Nat2Z.inj in Hi. subst i. exact Hin.
Qed.

(** The scores of the independent engine with a mask, cell by cell. *)
Lemma independent_scores (N : Numpy) (HS : NumpySpec N) (array future_array : DataFrame)
    (len k : nat) (name : string) (full_sort : bool) (mask : list bool)
    (test : list (list Z)) (scores : list (list num)) :
  rectangular array -> rectangular future_array ->
  ncols array = ncols future_array -> (1 <= ncols array)%nat ->
  finite_frame array -> finite_frame future_array ->
  seasonal_independent_match_array array future_array len k name full_sort (Some mask)
    = Ok (test, scores) ->
  exists m min_idx_T,
    metric_of_name name = Some m /\
    length mask = length (values array) /\
    length scores = length (values array) /\
    (forall h j, (h < length (values array))%nat ->
                 (j < length (values future_array))%nat ->
       nth j (nth h scores []) NaN
       = if nth h mask false then masked_score m
         else metric_fun m (nth h (values array) []) (nth j (values future_array) [])) /\
    (forall h j, (h < length (values array))%nat ->
                 (j < length (values future_array))%nat ->
       is_fin (metric_fun m (nth h (values array) []) (nth j (values future_array) []))) /\
    Forall (fun out => exists f, (f < length (values future_array))%nat /\
                                 (k <= length (values array) ->
                                  k_smallest (column f scores) k out)%nat) min_idx_T /\
    test = (if (min_k <? k)%nat
            then fill_over_end len (map (map Z.of_nat) min_idx_T)
            else map (map Z.of_nat) min_idx_T).
Proof.
  intros Hra Hrf Hcols HF Hfa Hff H.
  apply seasonal_independent_match_array_ok in H.
  destruct H as (array' & F & metric & min_idx_T & Hmask & Hb & Hmetric & Hscores & Hsel & Htest).
  apply set_rows_inf_ok in Hmask. destruct Hmask as (Hlm & Hnc & _ & Hvals).
  assert (HFeq : F = ncols array).
  { unfold broadcast_len in Hb. rewrite Hnc, <- Hcols, Nat.eqb_refl in Hb.
    injection Hb as <-. reflexivity. }
  apply select_metric_ok in Hmetric. destruct Hmetric as (m & Hm & ->).
  assert (Hlen' : length (values array') = length (values array)).
  { rewrite Hvals, map2_length. lia. }
  assert (Hls : length scores = length (values array)).
  { rewrite Hscores, length_map. exact Hlen'. }
  assert (Hrow_a : forall h, (h < length (values array))%nat ->
            length (nth h (values array) []) = F /\ Forall is_fin (nth h (values array) [])).
  { intros h Hh. unfold rectangular in Hra. unfold finite_frame in Hfa.
    rewrite Forall_forall in Hra, Hfa. rewrite HFeq.
    split; [apply Hra | apply Hfa]; apply nth_In, Hh. }
  assert (Hrow_b : forall j, (j < length (values future_array))%nat ->
            length (nth j (values future_array) []) = F /\
            Forall is_fin (nth j (values future_array) [])).
  { intros j Hj. unfold rectangular in Hrf. unfold finite_frame in Hff.
    rewrite Forall_forall in Hrf, Hff. rewrite HFeq, Hcols.
    split; [apply Hrf | apply Hff]; apply nth_In, Hj. }
  exists m, min_idx_T.
  split; [exact Hm | split; [exact Hlm | split; [exact Hls | split; [| split; [| split]]]]].
  - intros h j Hh Hj. destruct (Hrow_a h Hh) as [Hla Hfin_a].
    destruct (Hrow_b j Hj) as [Hlb Hfin_b].
    rewrite Hscores.
    rewrite (nth_map_in _ (values array') h [] []) by lia.
    rewrite (nth_map_in _ (values future_array) j [] NaN) by exact Hj.
    rewrite Hvals.
    rewrite (map2_nth _ mask (values array) h false [] []) by lia.
    rewrite (stretch_same F (nth j (values future_array) [])) by exact Hlb.
    destruct (nth h mask false).
    + rewrite map_const, Hla. rewrite stretch_same by apply repeat_length.
      apply (metric_masked N HS); [lia | exact Hlb | exact Hfin_b].
    + rewrite stretch_same by exact Hla. reflexivity.
  - intros h j Hh Hj. destruct (Hrow_a h Hh) as [Hla Hfin_a].
    destruct (Hrow_b j Hj) as [Hlb Hfin_b].
    apply (metric_finite N HS m F); (assumption || lia).
  - destruct (Nat.le_gt_cases k (length (values array))) as [Hk | Hk].
    + rewrite Hlen' in Hsel.
      assert (Hs := independent_selection N HS scores _ _ k full_sort min_idx_T Hls Hk Hsel).
      eapply Forall_impl; [| exact Hs]. intros out (f & Hf & Hks).
      exists f. split; [exact Hf | intros _; exact Hks].
    + rewrite Hlen' in Hsel. apply Forall_forall. intros out Hout.
      destruct full_sort.
      * injection Hsel as <-. apply in_map_iff in Hout.
        destruct Hout as (f & _ & Hf). apply in_seq in Hf.
        exists f. split; [lia | intros; lia].
      * apply bind_ok in Hsel. destruct Hsel as (kth & _ & Hsel). injection Hsel as <-.
        apply in_map_iff in Hout. destruct Hout as (f & _ & Hf). apply in_seq in Hf.
        exists f. split; [lia | intros; lia].
  - exact Htest.
Qed.

(** C6 (amended). In the independent match engine, on finite frames of the
    same width, each masked historical row receives against every future row
    the score [+inf] under mae, minkowski, euclidean, chebyshev, mqae and mse,
    and the score NaN under canberra; an unmasked row receives a finite
    score; so masked rows are never among the [k] selected matches whenever
    [k] does not exceed the number of unmasked rows. *)
Theorem independent_match_masked_rows (N : Numpy) (HS : NumpySpec N)
    (array future_array : DataFrame) (k : nat) (name : string) (full_sort : bool)
    (mask : list bool) (test : list (list Z)) (scores : list (list num)) :
  rectangular array -> rectangular future_array ->
  ncols array = ncols future_array -> (1 <= ncols array)%nat ->
  finite_frame array -> finite_frame future_array ->
  seasonal_independent_match_array array future_array (length (values array)) k
                                   name full_sort (Some mask)
    = Ok (test, scores) ->
  exists m,
    metric_of_name name = Some m /\
    (forall h j, (h < length (values array))%nat ->
                 (j < length (values future_array))%nat ->
       (nth h mask false = true -> nth j (nth h scores []) NaN = masked_score m) /\
       (nth h mask false = false -> is_fin (nth j (nth h scores []) NaN))) /\
    ((k <= length (unmasked_rows mask))%nat ->
     forall row h, In row test -> nth h mask false = true ->
                   (h < length (values array))%nat -> ~ In (Z.of_nat h) row).
Proof.
  intros Hra Hrf Hcols HF Hfa Hff H.
  destruct (independent_scores N HS array future_array _ k name full_sort mask test
              scores Hra Hrf Hcols HF Hfa Hff H)
    as (m & min_idx_T & Hm & Hlm & Hls & Hcell & Hfinite & Hsel & Htest).
  exists m. split; [exact Hm | split].
  - intros h j Hh Hj. rewrite (Hcell h j Hh Hj). split; intros ->.
    + reflexivity.
    + apply Hfinite; assumption.
  - intros Hk row h Hrow Hmasked Hh Hin.
    destruct (unmasked_rows_facts mask) as [Hnd HU].
    rewrite Htest in Hrow.
    destruct (In_offsets_row _ _ _ _ _ Hrow Hin) as (out & Hout & Hhout).
    rewrite Forall_forall in Hsel. destruct (Hsel out Hout) as (f & Hf & Hks).
    assert (Hkn : (k <= length (values array))%nat).
    { assert (Hle : (length (unmasked_rows mask) <= length mask)%nat).
      { unfold unmasked_rows.
        eapply Nat.le_trans; [apply filter_length_le | rewrite length_seq; lia]. }
      lia. }
    apply (worst_rows_not_selected (column f scores) k out (unmasked_rows mask) h
             (Hks Hkn) Hnd Hk); [| exact Hhout].
    intros u Hu. destruct (HU u Hu) as [Hul Hum].
    assert (Hcl : length (column f scores) = length (values array)).
    { unfold column. rewrite length_map. exact Hls. }
    split; [lia |].
    rewrite !key_column by lia.
    rewrite (Hcell h f Hh Hf), Hmasked. rewrite (Hcell u f ltac:(lia) Hf), Hum.
    assert (Hfin := Hfinite u f ltac:(lia) Hf).
    destruct (metric_fun m (nth u (values array) []) (nth f (values future_array) []));
      try contradiction.
    destruct m; reflexivity.
Qed.

Lemma independent_match_masked_rows_witness :
  let test := [[1%Z]] in
  let scores := [[PInf]; [Fin 1]] in
  NumpySpec numpy_stable /\
  rectangular two_rows /\ rectangular one_row /\
  ncols two_rows = ncols one_row /\ (1 <= ncols two_rows)%nat /\
  finite_frame two_rows /\ finite_frame one_row /\
  seasonal_independent_match_array (H := numpy_stable) two_rows one_row
    (length (values two_rows)) 1 "mae" true (Some [true; false]) = Ok (test, scores) /\
  exists m,
    metric_of_name "mae" = Some m /\
    (forall h j, (h < length (values two_rows))%nat ->
                 (j < length (values one_row))%nat ->
       (nth h [true; false] false = true -> nth j (nth h scores []) NaN = masked_score m) /\
       (nth h [true; false] false = false -> is_fin (nth j (nth h scores []) NaN))) /\
    ((1 <= length (unmasked_rows [true; false]))%nat ->
     forall row h, In row test -> nth h [true; false] false = true ->
                   (h < length (values two_rows))%nat -> ~ In (Z.of_nat h) row).
Proof.
  intros test scores.
  assert (H1 : rectangular two_rows) by (repeat constructor).
  assert (H2 : rectangular one_row) by (repeat constructor).
  assert (H3 : finite_frame two_rows) by (repeat constructor).
  assert (H4 : finite_frame one_row) by (repeat constructor).
  split; [exact numpy_stable_spec | split; [exact H1 | split; [exact H2 |]]].
  split; [reflexivity | split; [unfold ncols; simpl; lia |]].
  split; [exact H3 | split; [exact H4 | split; [vm_compute; reflexivity |]]].
  apply (independent_match_masked_rows numpy_stable numpy_stable_spec two_rows one_row
           1 "mae" true [true; false] test scores);
    [exact H1 | exact H2 | reflexivity | unfold ncols; simpl; lia | exact H3 | exact H4 |].
  vm_compute; reflexivity.
Defined.

(** C6 (counterexample). With the canberra metric, two history rows 1 and 2
    of which the first is masked, and the future row 1, the masked row
    scores [|inf - 1| / (|inf| + |1|) = inf / inf = nan], not [+inf]. *)
Lemma canberra_masked_row_is_nan : ~ masked_row_inf_claim.
Proof.
  intros Hclaim.
  assert (H := Hclaim numpy_stable numpy_stable_spec two_rows one_row 1%nat
                      "canberra"%string true [true; false] [[1%Z]]
                      [[NaN]; [Fin (1 # 3)]]
                      ltac:(repeat constructor) ltac:(repeat constructor)
                      eq_refl ltac:(unfold ncols; simpl; lia)
                      ltac:(repeat constructor) ltac:(repeat constructor)
                      ltac:(vm_compute; reflexivity)
                      0%nat 0%nat eq_refl ltac:(simpl; lia) ltac:(simpl; lia)).
  discriminate H.
Qed.

(* ================================================================== *)
(** * The engines on timestamps *)
(* ================================================================== *)

(** [create_seasonality_feature] hands back a ValueError object on a name it
    does not know; nothing is raised. *)
Lemma create_seasonality_feature_returns_error (N : Numpy) (C : Collaborators)
    (DTindex : list Z) (t : list num) (name : string) (history_days : option Z) :
  str_in name enumerated_names = false ->
  create_seasonality_feature DTindex t (SStr name) history_days
  = Ok (RException ValueError).
Proof.
  intros H. unfold enumerated_names, str_in in H. rewrite existsb_app in H.
  apply orb_false_iff in H. destruct H as [Hm Hc].
  unfold create_seasonality_feature, str_in. rewrite Hc, Hm. reflexivity.
Qed.

(** [seasonal_window_match] encodes the history and runs the engine on it. *)
Lemma seasonal_window_match_ok (N : Numpy) (C : Collaborators) (DTindex : list Z)
    (k ws fl : nat) (method : scheme) (name : string) (full_sort : bool)
    (r : list (list Z) * list (list num)) :
  seasonal_window_match DTindex k ws fl method name full_sort = Ok r <->
  exists array,
    date_part DTindex method true None None true = Ok array /\
    seasonal_window_match_array array (length DTindex) k ws fl name full_sort = Ok r.
Proof.
  unfold seasonal_window_match. split.
  - intros H. apply bind_ok in H. exact H.
  - intros (array & -> & H). exact H.
Qed.

(** With [k > 5] every offset returned for a history is the sentinel or an
    index into that history. *)
Lemma seasonal_window_match_large_k (N : Numpy) (C : Collaborators) (DTindex : list Z)
    (k ws fl : nat) (method : scheme) (name : string) (full_sort : bool)
    (test : list (list Z)) (scores : list (list num)) :
  (min_k < k)%nat ->
  seasonal_window_match DTindex k ws fl method name full_sort = Ok (test, scores) ->
  Forall (Forall (sentinel_or_index (length DTindex))) test.
Proof.
  intros Hk H. apply seasonal_window_match_ok in H. destruct H as (array & _ & H).
  apply seasonal_window_match_array_ok in H.
  destruct H as (metric & min_idx & _ & _ & _ & _ & Htest).
  destruct (Nat.ltb_spec min_k k) as [_ | Hle]; [| lia].
  subst test. apply fill_over_end_cells, window_offsets_cells.
  intros step c _ _. lia.
Qed.

(* ================================================================== *)
(** * Properties of the distance metrics *)
(* ================================================================== *)

Lemma Qabs_sub_sym (a b : Q) : Qabs (a + - b) = Qabs (b + - a).
Proof.
  destruct a as [an ad], b as [bn bd]. unfold Qabs, Qplus, Qopp. cbn [Qnum Qden].
  f_equal.
  - replace (an * Z.pos bd + - bn * Z.pos ad)%Z
      with (- (bn * Z.pos ad + - an * Z.pos bd))%Z by ring.
    apply Z.abs_opp.
  - apply Pos.mul_comm.
Qed.

Lemma nabs_nsub_sym (x y : num) : nabs (nsub x y) = nabs (nsub y x).
Proof.
  destruct x as [a | | |], y as [b | | |]; try reflexivity.
  unfold nsub, nneg, nadd, nabs. f_equal. apply Qabs_sub_sym.
Qed.

Lemma map2_sym {A C : Type} (f : A -> A -> C) (a b : list A) :
  (forall x y, f x y = f y x) -> map2 f a b = map2 f b a.
Proof.
  intros Hf. revert b. induction a as [| x a IH]; intros [| y b]; try reflexivity.
  unfold map2 in *. cbn [combine map fst snd]. rewrite Hf. f_equal. apply IH.
Qed.

Lemma abs_diff_sym (a b : list num) : abs_diff a b = abs_diff b a.
Proof. unfold abs_diff. apply map2_sym. intros x y. apply nabs_nsub_sym. Qed.

Lemma Qplus_sym_eq (a b : Q) : (a + b)%Q = (b + a)%Q.
Proof.
  destruct a as [an ad], b as [bn bd]. unfold Qplus. cbn [Qnum Qden].
  f_equal; [ring | apply Pos.mul_comm].
Qed.

Lemma nadd_sym (x y : num) : nadd x y = nadd y x.
Proof.
  destruct x as [a | | |], y as [b | | |]; try reflexivity.
  unfold nadd. f_equal. apply Qplus_sym_eq.
Qed.

Lemma square_sub_sym (x y : num) :
  nmul (nsub x y) (nsub x y) = nmul (nsub y x) (nsub y x).
Proof.
  destruct x as [a | | |], y as [b | | |]; try reflexivity.
  unfold nsub, nneg, nadd, nmul. f_equal.
  destruct a as [an ad], b as [bn bd]. unfold Qmult, Qplus, Qopp. cbn [Qnum Qden].
  f_equal; [ring | ].
  rewrite (Pos.mul_comm bd ad). reflexivity.
Qed.

Lemma map2_map_sq (a b : list num) :
  map (fun d => nmul d d) (map2 nsub a b) = map (fun d => nmul d d) (map2 nsub b a).
Proof.
  revert b. induction a as [| x a IH]; intros [| y b]; try reflexivity.
  unfold map2 in *. cbn [combine map fst snd]. rewrite square_sub_sym. f_equal. apply IH.
Qed.

Lemma metric_fun_sym (N : Numpy) (m : metric) (a b : list num) :
  metric_fun m a b = metric_fun m b a.
Proof.
  destruct m; cbn [metric_fun];
    unfold mae, canberra, minkowski, euclidean, chebyshev, mqae, mse.
  - rewrite abs_diff_sym. reflexivity.
  - rewrite abs_diff_sym.
    rewrite (map2_sym (fun x y => nadd (nabs x) (nabs y)) a b)
      by (intros; apply nadd_sym).
    reflexivity.
  - rewrite abs_diff_sym. reflexivity.
  - rewrite (map2_map_sq a b). reflexivity.
  - rewrite abs_diff_sym. reflexivity.
  - rewrite abs_diff_sym. reflexivity.
  - rewrite (map2_map_sq a b). reflexivity.
Qed.

(** Per-feature terms: what a metric reduces. *)
Lemma map2_cons {A B C : Type} (f : A -> B -> C) (x : A) (y : B) (a : list A) (b : list B) :
  map2 f (x :: a) (y :: b) = f x y :: map2 f a b.
Proof. reflexivity. Qed.

Lemma map2_terms (f : num -> num -> num) (a b : list num) :
  length a = length b -> Forall is_fin a -> Forall is_fin b ->
  (forall x y, is_fin x -> is_fin y ->
     exists t, f x y = Fin t /\ 0 <= t /\ (t == 0 <-> num_eqv x y)) ->
  Forall (fun c => exists t, c = Fin t /\ 0 <= t) (map2 f a b) /\
  (Forall (fun c => qval c == 0) (map2 f a b) <-> Forall2 num_eqv a b).
Proof.
  intros Hlen Ha Hb Hf. revert b Hlen Hb.
  induction Ha as [| x a Hx Ha IH]; intros [| y b] Hlen Hb; try discriminate.
  - split; [constructor | split; constructor].
  - inversion Hb as [| ? ? Hy Hb']; subst. injection Hlen as Hlen.
    destruct (IH b Hlen Hb') as [IH1 IH2].
    destruct (Hf x y Hx Hy) as (t & Et & Ht & Hz).
    rewrite map2_cons. split.
    + constructor; [exists t; auto | exact IH1].
    + split; intros H0.
      * inversion H0 as [| ? ? H1 H2]; subst. rewrite Et in H1. cbn in H1.
        constructor; [apply Hz, H1 | apply IH2, H2].
      * inversion H0 as [| ? ? ? ? H1 H2]; subst.
        constructor; [rewrite Et; cbn; apply Hz, H1 | apply IH2, H2].
Qed.

Lemma Qabs_zero (q : Q) : Qabs q == 0 <-> q == 0.
Proof.
  split; intros H0.
  - assert (H1 : Qabs q <= 0) by lra. apply Qabs_Qle_condition in H1. lra.
  - rewrite H0. reflexivity.
Qed.

Lemma abs_term (x y : num) :
  is_fin x -> is_fin y ->
  exists t, nabs (nsub x y) = Fin t /\ 0 <= t /\ (t == 0 <-> num_eqv x y).
Proof.
  destruct x as [a | | |], y as [b | | |];
    cbn [is_fin nsub nneg nadd nabs num_eqv]; try contradiction. intros _ _.
  exists (Qabs (a + - b)). split; [reflexivity | split; [apply Qabs_nonneg |]].
  split; intros H0.
  - apply (proj1 (Qabs_zero _)) in H0. lra.
  - apply (proj2 (Qabs_zero _)). lra.
Qed.

Lemma square_term (x y : num) :
  is_fin x -> is_fin y ->
  exists t, nmul (nsub x y) (nsub x y) = Fin t /\ 0 <= t /\ (t == 0 <-> num_eqv x y).
Proof.
  destruct x as [a | | |], y as [b | | |];
    cbn [is_fin nsub nneg nadd nmul num_eqv]; try contradiction. intros _ _.
  exists ((a + - b) * (a + - b)). split; [reflexivity |].
  assert (Hsq : forall d : Q, 0 <= d * d) by (intro d; nra).
  split; [apply Hsq |].
  split; intros H0.
  - destruct (Qmult_integral _ _ H0); lra.
  - assert (E : a + - b == 0) by lra. rewrite E. reflexivity.
Qed.

Lemma canberra_term (x y : num) :
  is_fin x -> is_fin y ->
  exists t,
    ndiv (nabs (nsub x y))
         (let d := nadd (nabs x) (nabs y) in if nis_zero d then Fin 1 else d) = Fin t /\
    0 <= t <= 1 /\ (t == 0 <-> num_eqv x y).
Proof.
  destruct x as [a | | |], y as [b | | |];
    cbn [is_fin nsub nneg nadd nabs num_eqv nis_zero]; try contradiction. intros _ _.
  assert (Ha := Qabs_nonneg a). assert (Hb := Qabs_nonneg b).
  assert (Hd := Qabs_nonneg (a + - b)).
  assert (Htri : Qabs (a + - b) <= Qabs a + Qabs b).
  { eapply Qle_trans; [apply Qabs_triangle |]. rewrite Qabs_opp. lra. }
  assert (Hz : Qabs (a + - b) == 0 <-> a == b).
  { rewrite Qabs_zero. split; intros; lra. }
  destruct (Qeqb (Qabs a + Qabs b) 0) eqn:E0.
  - apply Qeqb_true in E0. cbn [ndiv]. change (Qeqb 1 0) with false. cbn iota.
    exists (Qabs (a + - b) / 1). split; [reflexivity |].
    assert (E1 : Qabs (a + - b) == 0) by lra.
    split; [split; rewrite E1; [discriminate | discriminate] |].
    rewrite <- Hz. split; intros; [lra | rewrite E1; reflexivity].
  - cbn [ndiv]. rewrite E0. apply Qeqb_false in E0.
    exists (Qabs (a + - b) / (Qabs a + Qabs b)). split; [reflexivity |].
    assert (Hpos : 0 < Qabs a + Qabs b).
    { destruct (Qlt_le_dec 0 (Qabs a + Qabs b)); [assumption |].
      exfalso. apply E0. lra. }
    split; [split |].
    + apply Qle_shift_div_l; [exact Hpos | lra].
    + apply Qle_shift_div_r; [exact Hpos | lra].
    + rewrite <- Hz. split; intros H0.
      * apply (Qmult_inj_r _ _ (/ (Qabs a + Qabs b))).
        { intro E. apply E0. setoid_replace (Qabs a + Qabs b) with (/ / (Qabs a + Qabs b))
            by (symmetry; apply Qinv_involutive). rewrite E. reflexivity. }
        unfold Qdiv in H0. rewrite H0. lra.
      * unfold Qdiv. rewrite H0. lra.
Qed.

Lemma map2_forall (P : num -> Prop) (f : num -> num -> num) (a b : list num) :
  (forall x y, is_fin x -> is_fin y -> P (f x y)) ->
  Forall is_fin a -> Forall is_fin b -> Forall P (map2 f a b).
Proof.
  intros Hf Ha. revert b.
  induction Ha as [| x a Hx Ha IH]; intros b Hb; [constructor |].
  destruct Hb as [| y b Hy Hb]; [constructor |].
  rewrite map2_cons. constructor; [apply Hf; assumption | apply IH, Hb].
Qed.

(** The terms that [canberra] averages, feature by feature. *)
Lemma canberra_as_terms (a b : list num) :
  canberra a b
  = nmean (map2 (fun x y =>
                   ndiv (nabs (nsub x y))
                        (let d := nadd (nabs x) (nabs y) in
                         if nis_zero d then Fin 1 else d)) a b).
Proof.
  unfold canberra, abs_diff. f_equal.
  revert b. induction a as [| x a IH]; intros [| y b]; try reflexivity.
  rewrite !map2_cons. cbn [map]. rewrite !map2_cons. f_equal. apply IH.
Qed.

Lemma mse_as_terms (a b : list num) :
  mse a b = nmean (map2 (fun x y => nmul (nsub x y) (nsub x y)) a b).
Proof.
  unfold mse. f_equal.
  revert b. induction a as [| x a IH]; intros [| y b]; try reflexivity.
  rewrite !map2_cons. cbn [map]. f_equal. apply IH.
Qed.

Lemma terms_fin (l : list num) :
  Forall (fun c => exists t, c = Fin t /\ 0 <= t) l -> Forall is_fin l.
Proof.
  intros H. eapply Forall_impl; [| exact H].
  intros c (t & -> & _). exact I.
Qed.

Lemma nmean_unit (l : list num) :
  Forall (fun c => exists t, c = Fin t /\ 0 <= t <= 1) l -> (1 <= length l)%nat ->
  in_unit_interval (nmean l).
Proof.
  intros Hl Hlen.
  assert (Hf : Forall is_fin l).
  { eapply Forall_impl; [| exact Hl]. intros c (t & -> & _). exact I. }
  rewrite (nmean_fin l Hf Hlen). eexists. split; [reflexivity |].
  assert (Hpos := Qlen_pos l Hlen).
  assert (Hlo : Qlen (map qval l) * 0 <= Qsum (map qval l)).
  { apply Qsum_ge_len. apply Forall_map. eapply Forall_impl; [| exact Hl].
    intros c (t & -> & Ht). cbn. lra. }
  assert (Hhi : Qsum (map qval l) <= Qlen (map qval l) * 1).
  { apply Qsum_le_len. apply Forall_map. eapply Forall_impl; [| exact Hl].
    intros c (t & -> & Ht). cbn. lra. }
  rewrite Qlen_map in Hlo, Hhi. split.
  - apply Qle_shift_div_l; [exact Hpos | lra].
  - apply Qle_shift_div_r; [exact Hpos | lra].
Qed.

(** [np.max] of finite cells is one of them and bounds them all. *)
Lemma fold_nmax_fin (l : list num) (m : Q) :
  Forall is_fin l ->
  exists M, fold_left nmax l (Fin m) = Fin M /\ m <= M /\
            Forall (fun c => qval c <= M) l /\ (M = m \/ In (Fin M) l).
Proof.
  intros Hl. revert m. induction Hl as [| x l Hx Hl IH]; intros m.
  - exists m. cbn. repeat split; [lra | constructor | left; reflexivity].
  - destruct x as [q | | |]; try contradiction. cbn [fold_left nmax].
    destruct (Qle_bool m q) eqn:E.
    + apply Qle_bool_iff in E. destruct (IH q) as (M & EM & HqM & Hall & Hin).
      exists M. split; [exact EM |]. split; [lra |]. split.
      * constructor; [cbn; exact HqM | exact Hall].
      * right. destruct Hin as [-> | Hin]; [left; reflexivity | right; exact Hin].
    + assert (Hlt : q <= m).
      { destruct (Qlt_le_dec m q) as [Hc | Hc]; [| exact Hc].
        apply Qlt_le_weak, Qle_bool_iff in Hc. congruence. }
      destruct (IH m) as (M & EM & HmM & Hall & Hin).
      exists M. split; [exact EM |]. split; [exact HmM |]. split.
      * constructor; [cbn; lra | exact Hall].
      * destruct Hin as [-> | Hin]; [left; reflexivity | right; right; exact Hin].
Qed.

Lemma nmax_list_value (l : list num) :
  Forall is_fin l -> (1 <= length l)%nat ->
  exists M, nmax_list l = Fin M /\ Forall (fun c => qval c <= M) l /\ In (Fin M) l.
Proof.
  intros Hl Hlen. destruct l as [| x l]; [cbn in Hlen; lia |].
  inversion Hl as [| ? ? Hx Hl']; subst.
  destruct x as [q | | |]; try contradiction. cbn [nmax_list].
  destruct (fold_nmax_fin l q Hl') as (M & EM & HqM & Hall & Hin).
  exists M. split; [exact EM |]. split.
  - constructor; [cbn; exact HqM | exact Hall].
  - destruct Hin as [-> | Hin]; [left; reflexivity | right; exact Hin].
Qed.

(** On float64 cells every distance metric is symmetric in its two
    arguments, so that the scores of (history, future) are the transpose of
    those of (future, history). *)
Lemma pairwise_scores_transposed (N : Numpy) (m : metric) (F : nat)
    (A B : list (list num)) (h j : nat) :
  (h < length A)%nat -> (j < length B)%nat ->
  nth j (nth h (pairwise_scores (metric_fun m) F A B) []) NaN
  = nth h (nth j (pairwise_scores (metric_fun m) F B A) []) NaN.
Proof.
  intros Hh Hj. unfold pairwise_scores.
  rewrite (nth_map_in _ A h [] []) by exact Hh.
  rewrite (nth_map_in _ B j [] NaN) by exact Hj.
  rewrite (nth_map_in _ B j [] []) by exact Hj.
  rewrite (nth_map_in _ A h [] NaN) by exact Hh.
  apply metric_fun_sym.
Qed.

(** On finite float64 feature vectors of the same non-zero length the
    canberra score lies between 0 and 1: each term |x - y| / (|x| + |y|)
    does, the zero divisor of two zero features being replaced by 1. *)
Lemma canberra_unit (a b : list num) :
  reducible a b -> in_unit_interval (canberra a b).
Proof.
  intros (Hab & Hlen & Ha & Hb). rewrite canberra_as_terms.
  apply nmean_unit.
  - apply map2_forall; [| exact Ha | exact Hb].
    intros x y Hx Hy. destruct (canberra_term x y Hx Hy) as (t & Et & Ht & _).
    exists t. split; [exact Et | exact Ht].
  - rewrite map2_length. lia.
Qed.



Lemma mean_zero_exactly (f : num -> num -> num) (a b : list num) :
  reducible a b ->
  (forall x y, is_fin x -> is_fin y ->
     exists t, f x y = Fin t /\ 0 <= t /\ (t == 0 <-> num_eqv x y)) ->
  zero_exactly_when (Forall2 num_eqv a b) (nmean (map2 f a b)).
Proof.
  intros (Hab & Hlen & Ha & Hb) Hf.
  destruct (map2_terms f a b Hab Ha Hb Hf) as [Hterms Hzero].
  assert (Hl : (1 <= length (map2 f a b))%nat) by (rewrite map2_length; lia).
  destruct (nmean_nonneg _ Hterms Hl) as (M & EM & HM & HMz).
  exists M. split; [exact EM | split; [exact HM |]].
  rewrite HMz. exact Hzero.
Qed.

Lemma max_zero_exactly (a b : list num) :
  reducible a b -> zero_exactly_when (Forall2 num_eqv a b) (chebyshev a b).
Proof.
  intros (Hab & Hlen & Ha & Hb).
  destruct (map2_terms (fun x y => nabs (nsub x y)) a b Hab Ha Hb abs_term)
    as [Hterms Hzero].
  fold (abs_diff a b) in Hterms, Hzero.
  assert (Hf := abs_diff_fin a b Ha Hb).
  assert (Hl : (1 <= length (abs_diff a b))%nat).
  { unfold abs_diff. rewrite map2_length. lia. }
  destruct (nmax_list_value _ Hf Hl) as (M & EM & Hall & Hin).
  rewrite Forall_forall in Hterms, Hall.
  exists M. split; [exact EM |].
  destruct (Hterms _ Hin) as (t & Et & Ht). injection Et as <-.
  split; [exact Ht |]. rewrite <- Hzero. rewrite Forall_forall. split.
  - intros HM c Hc. destruct (Hterms c Hc) as (u & -> & Hu).
    specialize (Hall _ Hc). cbn in *. lra.
  - intros H0. apply (H0 _ Hin).
Qed.


Lemma metric_zero_iff_identical_part (N : Numpy) (a b : list num) :
  reducible a b ->
  forall m, separating m = true ->
    zero_exactly_when (Forall2 num_eqv a b) (metric_fun m a b).
Proof.
  intros Hred m Hm. destruct m; try discriminate; cbn [metric_fun].
  - apply (mean_zero_exactly _ a b Hred abs_term).
  - rewrite canberra_as_terms. apply (mean_zero_exactly _ a b Hred).
    intros x y Hx Hy. destruct (canberra_term x y Hx Hy) as (t & Et & Ht & Hz).
    exists t. split; [exact Et | split; [apply Ht | exact Hz]].
  - apply max_zero_exactly, Hred.
  - rewrite mse_as_terms. apply (mean_zero_exactly _ a b Hred square_term).
Qed.



(* ================================================================== *)
(** * Properties of the selection and of the independent engine *)
(* ================================================================== *)

Lemma independent_match_array_inv (N : Numpy) (array future_array : DataFrame)
    (len k : nat) (name : string) (full_sort : bool) (nan_array : option (list bool))
    (test : list (list Z)) (scores : list (list num)) :
  seasonal_independent_match_array array future_array len k name full_sort nan_array
    = Ok (test, scores) ->
  exists array' F metric min_idx_T,
    length (values array') = length (values array) /\
    broadcast_len (ncols array') (ncols future_array) = Ok F /\
    select_metric name F = Ok metric /\
    scores = pairwise_scores metric F (values array') (values future_array) /\
    (if full_sort then
       Ok (map (fun f => firstn k (argsort (column f scores)))
               (seq 0 (length (values future_array))))
     else
       kth <- check_kth (length (values array')) (Z.of_nat k - 1) ;;
       Ok (map (fun f => firstn k (argpartition (column f scores) kth))
               (seq 0 (length (values future_array))))) = Ok min_idx_T /\
    test = (if (min_k <? k)%nat
            then fill_over_end len (map (map Z.of_nat) min_idx_T)
            else map (map Z.of_nat) min_idx_T).
Proof.
  unfold seasonal_independent_match_array. intros H.
  apply bind_ok in H. destruct H as (array' & Hmask & H).
  apply bind_ok in H. destruct H as (F & HF & H).
  apply bind_ok in H. destruct H as (metric & Hmetric & H).
  apply bind_ok in H. destruct H as (_ & _ & H).
  apply bind_ok in H. destruct H as (_ & _ & H).
  apply bind_ok in H. destruct H as (min_idx_T & Hidx & H).
  injection H as <- <-.
  exists array', F, metric, min_idx_T. repeat split; try assumption.
  destruct nan_array as [mask |].
  - destruct (set_rows_inf_ok _ _ _ Hmask) as (Hm & _ & _ & Hv).
    rewrite Hv, map2_length. lia.
  - injection Hmask as <-. reflexivity.
Qed.

Lemma pairwise_scores_shape (metric : list num -> list num -> num) (F : nat)
    (a b : list (list num)) :
  length (pairwise_scores metric F a b) = length a /\
  Forall (fun r => length r = length b) (pairwise_scores metric F a b).
Proof.
  unfold pairwise_scores. split; [apply length_map |].
  apply Forall_forall. intros r Hr. apply in_map_iff in Hr.
  destruct Hr as (x & <- & _). apply length_map.
Qed.

Lemma fill_over_end_inside (len : nat) (rows : list (list nat)) :
  Forall (Forall (fun i => (i < len)%nat)) rows ->
  fill_over_end len (map (map Z.of_nat) rows) = map (map Z.of_nat) rows.
Proof.
  intros H. unfold fill_over_end. rewrite map_map. apply map_ext_in.
  intros row Hrow. rewrite map_map. apply map_ext_in. intros i Hi.
  rewrite Forall_forall in H. specialize (H row Hrow).
  rewrite Forall_forall in H. specialize (H i Hi).
  destruct (Z.leb_spec (Z.of_nat len) (Z.of_nat i)); [lia | reflexivity].
Qed.

(** The rows of the selection: prefixes of reorderings of [0 .. n-1]. *)
Lemma independent_selection_rows (N : Numpy) (HS : NumpySpec N)
    (scores : list (list num)) (n m k : nat) (full_sort : bool)
    (min_idx_T : list (list nat)) :
  length scores = n ->
  (if full_sort then
     Ok (map (fun f => firstn k (argsort (column f scores))) (seq 0 m))
   else
     kth <- check_kth n (Z.of_nat k - 1) ;;
     Ok (map (fun f => firstn k (argpartition (column f scores) kth)) (seq 0 m)))
  = Ok min_idx_T ->
  exists perm : nat -> list nat,
    (forall f, Permutation (perm f) (seq 0 n)) /\
    min_idx_T = map (fun f => firstn k (perm f)) (seq 0 m) /\
    (forall f, full_sort = true -> perm f = argsort (column f scores)) /\
    (forall f, full_sort = false ->
       exists kth, check_kth n (Z.of_nat k - 1) = Ok kth /\
                   perm f = argpartition (column f scores) kth).
Proof.
  intros Hn H.
  assert (Hcol : forall f, length (column f scores) = n).
  { intros f. unfold column. rewrite length_map. exact Hn. }
  destruct full_sort.
  - injection H as <-. exists (fun f => argsort (column f scores)).
    split; [| split; [reflexivity | split; [reflexivity | discriminate]]].
    intros f. rewrite <- (Hcol f). apply (argsort_ok (column f scores)).
  - apply bind_ok in H. destruct H as (kth & Hkth & H). injection H as <-.
    exists (fun f => argpartition (column f scores) kth).
    split; [| split; [reflexivity | split; [discriminate |]]].
    + intros f. rewrite <- (Hcol f).
      apply (argpartition_ok (column f scores) kth).
      rewrite Hcol. apply (check_kth_ok _ _ _ Hkth).
    + intros f _. exists kth. split; [exact Hkth | reflexivity].
Qed.

(** X5. Whenever the independent engine returns, the score matrix has one
    row per history row and one column per future row, the match matrix has
    one row per future row holding min(k, history length) cells, and every
    cell is a valid history index: the replacement by -1 that the engine
    performs for k > 5 never applies. *)
Theorem independent_match_shape (N : Numpy) (HS : NumpySpec N)
    (array future_array : DataFrame) (k : nat) (name : string) (full_sort : bool)
    (nan_array : option (list bool)) (test : list (list Z)) (scores : list (list num)) :
  seasonal_independent_match_array array future_array (length (values array)) k
                                   name full_sort nan_array = Ok (test, scores) ->
  length scores = length (values array) /\
  Forall (fun r => length r = length (values future_array)) scores /\
  length test = length (values future_array) /\
  Forall (fun row => length row = Nat.min k (length (values array))) test /\
  Forall (Forall (index_in_history (length (values array)))) test.
Proof.
  intros H.
  destruct (independent_match_array_inv N _ _ _ _ _ _ _ _ _ H)
    as (array' & F & metric & min_idx_T & Hlen & _ & _ & Hscores & Hidx & Htest).
  destruct (pairwise_scores_shape metric F (values array') (values future_array))
    as [Hs1 Hs2].
  rewrite <- Hscores in Hs1, Hs2. rewrite Hlen in Hs1.
  split; [exact Hs1 | split; [exact Hs2 |]].
  rewrite Hlen in Hidx.
  destruct (independent_selection_rows N HS scores _ _ k full_sort min_idx_T Hs1 Hidx)
    as (perm & Hperm & Erows & _).
  assert (Hin : Forall (Forall (fun i => (i < length (values array))%nat)) min_idx_T).
  { rewrite Erows. apply Forall_forall. intros row Hrow.
    apply in_map_iff in Hrow. destruct Hrow as (f & <- & _).
    apply Forall_firstn. apply Forall_forall. intros i Hi.
    apply (index_perm_facts _ _ (Hperm f)), Hi. }
  assert (Etest : test = map (map Z.of_nat) min_idx_T).
  { rewrite Htest. destruct (min_k <? k)%nat; [| reflexivity].
    apply fill_over_end_inside, Hin. }
  rewrite Etest. split; [| split].
  - rewrite length_map, Erows, length_map, length_seq. reflexivity.
  - apply Forall_forall. intros row Hrow. apply in_map_iff in Hrow.
    destruct Hrow as (r & <- & Hr). rewrite length_map.
    rewrite Erows in Hr. apply in_map_iff in Hr. destruct Hr as (f & <- & _).
    rewrite length_firstn.
    destruct (index_perm_facts _ _ (Hperm f)) as (-> & _). reflexivity.
  - apply Forall_forall. intros row Hrow. apply in_map_iff in Hrow.
    destruct Hrow as (r & <- & Hr). rewrite Forall_forall in Hin.
    specialize (Hin r Hr). apply Forall_forall. intros v Hv.
    apply in_map_iff in Hv. destruct Hv as (i & <- & Hi).
    rewrite Forall_forall in Hin. specialize (Hin i Hi).
    unfold index_in_history. lia.
Qed.

Lemma independent_match_shape_witness :
  let test := [[1%Z]] in
  let scores := [[PInf]; [Fin 1]] in
  NumpySpec numpy_stable /\
  seasonal_independent_match_array (H := numpy_stable) two_rows one_row
    (length (values two_rows)) 1 "mae" true (Some [true; false]) = Ok (test, scores) /\
  length scores = length (values two_rows) /\
  Forall (fun r => length r = length (values one_row)) scores /\
  length test = length (values one_row) /\
  Forall (fun row => length row = Nat.min 1 (length (values two_rows))) test /\
  Forall (Forall (index_in_history (length (values two_rows)))) test.
Proof.
  intros test scores.
  split; [exact numpy_stable_spec | split; [vm_compute; reflexivity |]].
  apply (independent_match_shape numpy_stable numpy_stable_spec two_rows one_row
           1 "mae" true (Some [true; false]) test scores).
  vm_compute; reflexivity.
Defined.

(** X6. Asking the top-k selector for more matches than there are
    candidates: the partial selection ([full_sort] false) raises, since
    [np.argpartition] rejects [kth = k - 1] as out of bounds; the full sort
    returns every candidate. *)
Theorem top_k_more_than_candidates (N : Numpy) (S : NumpySpec N)
    (scores : list num) (k : nat) :
  (length scores < k)%nat ->
  top_k scores k false = Raise ValueError /\
  top_k scores k true = Ok (argsort scores) /\
  Permutation (argsort scores) (seq 0 (length scores)).
Proof.
  intros Hk. destruct (argsort_ok scores) as [Hperm _].
  split; [| split; [| exact Hperm]].
  - unfold top_k, np_argpartition.
    rewrite check_kth_out_of_bounds by lia. reflexivity.
  - unfold top_k. rewrite firstn_all2; [reflexivity |].
    destruct (index_perm_facts _ _ Hperm) as (-> & _). lia.
Qed.

Lemma top_k_more_than_candidates_witness :
  NumpySpec numpy_stable /\
  (length [Fin 3; Fin 1] < 3)%nat /\
  top_k (H := numpy_stable) [Fin 3; Fin 1] 3 false = Raise ValueError /\
  top_k (H := numpy_stable) [Fin 3; Fin 1] 3 true
  = Ok (argsort (Numpy := numpy_stable) [Fin 3; Fin 1]) /\
  Permutation (argsort (Numpy := numpy_stable) [Fin 3; Fin 1])
              (seq 0 (length [Fin 3; Fin 1])).
Proof.
  split; [exact numpy_stable_spec | split; [simpl; lia |]].
  apply (top_k_more_than_candidates numpy_stable numpy_stable_spec). simpl; lia.
Defined.

Lemma select_metric_known (N : Numpy) (name : string) (F : nat) :
  (1 <= F)%nat ->
  select_metric name F
  = match metric_of_name name with
    | Some m => Ok (metric_fun m)
    | None => Raise ValueError
    end.
Proof.
  intros HF. unfold select_metric. destruct (metric_of_name name) as [m |]; [| reflexivity].
  destruct m; try reflexivity.
  destruct (Nat.eqb_spec F 0); [lia | reflexivity].
Qed.

Lemma broadcast_len_same (F : nat) : broadcast_len F F = Ok F.
Proof. unfold broadcast_len. rewrite Nat.eqb_refl. reflexivity. Qed.

(** The engine on aligned frames, stage by stage. *)
Lemma independent_match_aligned (N : Numpy) (array future_array : DataFrame)
    (len k : nat) (name : string) (full_sort : bool) :
  aligned array future_array ->
  seasonal_independent_match_array array future_array len k name full_sort None
  = match metric_of_name name with
    | None => Raise ValueError
    | Some m =>
        let scores := pairwise_scores (metric_fun m) (ncols array)
                                      (values array) (values future_array) in
        min_idx_T <- (if full_sort then
                        Ok (map (fun f => firstn k (argsort (column f scores)))
                                (seq 0 (length (values future_array))))
                      else
                        kth <- check_kth (length (values array)) (Z.of_nat k - 1) ;;
                        Ok (map (fun f => firstn k (argpartition (column f scores) kth))
                                (seq 0 (length (values future_array))))) ;;
        let test := map (map Z.of_nat) min_idx_T in
        Ok (if (min_k <? k)%nat then fill_over_end len test else test, scores)
    end.
Proof.
  intros (Hlay & Hcols & HF). unfold seasonal_independent_match_array.
  cbn [bind]. rewrite <- Hcols, broadcast_len_same. cbn [bind].
  rewrite (select_metric_known N name _ HF).
  destruct (metric_of_name name) as [m |]; [| reflexivity].
  cbn [bind]. unfold check_2d, check_numeric. rewrite Hlay. cbn [bind]. reflexivity.
Qed.

Lemma set_rows_inf_fits (array : DataFrame) (mask : list bool) :
  length mask = length (values array) ->
  exists array', set_rows_inf array mask = Ok array' /\
                 columns array' = columns array /\ layout_of array' = layout_of array /\
                 length (values array') = length (values array).
Proof.
  intros Hm. unfold set_rows_inf. rewrite Hm, Nat.eqb_refl.
  eexists. split; [reflexivity |]. cbn [columns layout_of values].
  split; [reflexivity | split; [reflexivity |]]. rewrite map2_length. lia.
Qed.

Lemma independent_match_masked_aligned (N : Numpy) (array future_array : DataFrame)
    (len k : nat) (name : string) (full_sort : bool) (mask : list bool) :
  seasonal_independent_match_array array future_array len k name full_sort (Some mask)
  = array' <- set_rows_inf array mask ;;
    seasonal_independent_match_array array' future_array len k name full_sort None.
Proof. reflexivity. Qed.

Lemma check_kth_feasible (n k : nat) :
  (k <= n)%nat -> (1 <= n)%nat -> exists kth, check_kth n (Z.of_nat k - 1) = Ok kth.
Proof.
  intros Hk Hn. destruct k as [| k].
  - eexists. apply check_kth_negative. lia.
  - eexists. apply check_kth_in_bounds. lia.
Qed.

Lemma check_kth_infeasible (n k : nat) :
  (n < k)%nat \/ n = 0%nat -> check_kth n (Z.of_nat k - 1) = Raise ValueError.
Proof. intros H. apply check_kth_out_of_bounds. lia. Qed.

Lemma independent_match_unmasked (N : Numpy) (array future_array : DataFrame)
    (len k : nat) (name : string) (full_sort : bool) :
  aligned array future_array ->
  let engine :=
    seasonal_independent_match_array array future_array len k name full_sort None in
  (metric_of_name name = None -> engine = Raise ValueError) /\
  (full_sort = false ->
   (length (values array) < k)%nat \/ length (values array) = 0%nat ->
   engine = Raise ValueError) /\
  (metric_of_name name <> None ->
   full_sort = true \/ (k <= length (values array))%nat /\ (1 <= length (values array))%nat ->
   exists test scores, engine = Ok (test, scores)).
Proof.
  intros Hal engine. unfold engine. rewrite (independent_match_aligned N _ _ _ _ _ _ Hal).
  split; [| split].
  - intros ->. reflexivity.
  - intros -> Hk. rewrite (check_kth_infeasible _ _ Hk).
    destruct (metric_of_name name); reflexivity.
  - intros Hm Hfeasible. destruct (metric_of_name name) as [m |]; [| congruence].
    destruct full_sort.
    + cbn [bind]. eexists _, _. reflexivity.
    + destruct Hfeasible as [Hc | [Hk Hn]]; [discriminate |].
      destruct (check_kth_feasible _ _ Hk Hn) as (kth & ->).
      cbn [bind]. eexists _, _. reflexivity.
Qed.

(** X7. On a history and a future encoded into 2-D numeric arrays of the
    same non-zero width, the independent engine returns exactly when the
    row mask (if any) has one entry per history row, the metric name is one
    of the seven and, for the partial selection, 1 <= history length and
    k <= history length; in every other case it raises ValueError. *)
Theorem independent_match_returns_iff (N : Numpy)
    (array future_array : DataFrame) (len k : nat) (name : string) (full_sort : bool)
    (nan_array : option (list bool)) :
  aligned array future_array ->
  let engine :=
    seasonal_independent_match_array array future_array len k name full_sort nan_array in
  (~ mask_fits array nan_array -> engine = Raise ValueError) /\
  (metric_of_name name = None -> engine = Raise ValueError) /\
  (full_sort = false ->
   (length (values array) < k)%nat \/ length (values array) = 0%nat ->
   engine = Raise ValueError) /\
  (mask_fits array nan_array -> metric_of_name name <> None ->
   full_sort = true \/ (k <= length (values array))%nat /\ (1 <= length (values array))%nat ->
   exists test scores, engine = Ok (test, scores)).
Proof.
  intros Hal engine. unfold engine. destruct nan_array as [mask |].
  - rewrite independent_match_masked_aligned. cbn [mask_fits].
    destruct (Nat.eq_dec (length mask) (length (values array))) as [Hfit | Hbad].
    + destruct (set_rows_inf_fits array mask Hfit) as (array' & -> & Hc & Hl & Hv).
      cbn [bind].
      assert (Hal' : aligned array' future_array).
      { destruct Hal as (H1 & H2 & H3). unfold aligned, ncols in *.
        rewrite Hc, Hl. auto. }
      destruct (independent_match_unmasked N array' future_array len k name full_sort Hal')
        as (H1 & H2 & H3).
      rewrite Hv in H2, H3.
      split; [intros Hn; contradiction | split; [exact H1 | split; [exact H2 |]]].
      intros _. exact H3.
    + assert (E : set_rows_inf array mask = Raise ValueError).
      { unfold set_rows_inf. destruct (Nat.eqb_spec (length mask) (length (values array)));
          [contradiction | reflexivity]. }
      rewrite E. cbn [bind].
      repeat split; try reflexivity. intros Hfit. contradiction.
  - destruct (independent_match_unmasked N array future_array len k name full_sort Hal)
      as (H1 & H2 & H3).
    split; [intros Hn; exfalso; apply Hn; exact I | split; [exact H1 | split; [exact H2 |]]].
    intros _. exact H3.
Qed.

Lemma independent_match_returns_iff_witness :
  aligned two_rows one_row /\
  let engine :=
    seasonal_independent_match_array (H := numpy_stable) two_rows one_row 2 3 "mae" false
                                     None in
  (~ mask_fits two_rows None -> engine = Raise ValueError) /\
  (metric_of_name "mae" = None -> engine = Raise ValueError) /\
  (false = false ->
   (length (values two_rows) < 3)%nat \/ length (values two_rows) = 0%nat ->
   engine = Raise ValueError) /\
  (mask_fits two_rows None -> metric_of_name "mae" <> None ->
   false = true \/ (3 <= length (values two_rows))%nat /\ (1 <= length (values two_rows))%nat ->
   exists test scores, engine = Ok (test, scores)).
Proof.
  assert (H : aligned two_rows one_row).
  { unfold aligned, ncols. cbn. repeat split; lia. }
  split; [exact H |].
  apply (independent_match_returns_iff numpy_stable two_rows one_row 2 3 "mae" false None H).
Defined.

Lemma k_smallest_unique_min (s : list num) (out : list nat) (i0 : nat) :
  k_smallest s 1 out -> (i0 < length s)%nat ->
  (forall j, (j < length s)%nat -> j <> i0 -> num_lt (key s i0) (key s j) = true) ->
  out = [i0].
Proof.
  intros (Hlen & _ & Hrange & Hmin) Hi Hstrict.
  destruct out as [| x [| y out]]; try discriminate. f_equal.
  destruct (Nat.eq_dec x i0) as [E | Hne]; [exact E | exfalso].
  inversion Hrange as [| ? ? Hx _]; subst.
  assert (Hle : num_le (key s x) (key s i0) = true).
  { apply Hmin; [left; reflexivity | exact Hi |]. intros [E | []]. congruence. }
  rewrite (num_lt_not_le _ _ (Hstrict x Hx Hne)) in Hle. discriminate.
Qed.

Lemma rows_reducible (array future_array : DataFrame) (h j : nat) :
  comparable array future_array ->
  (h < length (values array))%nat -> (j < length (values future_array))%nat ->
  reducible (nth h (values array) []) (nth j (values future_array) []) /\
  length (nth h (values array) []) = ncols array /\
  length (nth j (values future_array) []) = ncols array.
Proof.
  intros ((_ & Hcols & HF) & Hra & Hrf & Hfa & Hff) Hh Hj.
  unfold rectangular, finite_frame in *. rewrite Forall_forall in Hra, Hrf, Hfa, Hff.
  assert (Ha := nth_In (values array) [] Hh).
  assert (Hb := nth_In (values future_array) [] Hj).
  assert (La := Hra _ Ha). assert (Lb := Hrf _ Hb).
  split; [| split; [exact La | rewrite Lb; symmetry; exact Hcols]].
  unfold reducible. rewrite La, Lb.
  split; [exact Hcols | split; [exact HF | split; [apply Hfa, Ha | apply Hff, Hb]]].
Qed.

(** The selection of an exact analogue, for the two statements below. *)
Lemma exact_match_selected (N : Numpy) (HS : NumpySpec N)
    (array future_array : DataFrame) (name : string) (m : metric) (full_sort : bool)
    (h j : nat) :
  comparable array future_array ->
  metric_of_name name = Some m -> separating m = true ->
  (h < length (values array))%nat -> (j < length (values future_array))%nat ->
  Forall2 num_eqv (nth h (values array) []) (nth j (values future_array) []) ->
  (forall h', (h' < length (values array))%nat -> h' <> h ->
     ~ Forall2 num_eqv (nth h' (values array) []) (nth j (values future_array) [])) ->
  exists test scores,
    seasonal_independent_match_array array future_array (length (values array)) 1
                                     name full_sort None = Ok (test, scores) /\
    nth j test [] = [Z.of_nat h] /\
    num_eqv (nth j (nth h scores []) NaN) (Fin 0).
Proof.
  intros Hcmp Hname Hsep Hh Hj Hsame Hother.
  rewrite (independent_match_aligned N _ _ _ _ _ _ (proj1 Hcmp)), Hname.
  set (scores := pairwise_scores (metric_fun m) (ncols array)
                                 (values array) (values future_array)).
  assert (Hcell : forall h', (h' < length (values array))%nat ->
            key (column j scores) h'
            = metric_fun m (nth h' (values array) []) (nth j (values future_array) []) /\
            zero_exactly_when
              (Forall2 num_eqv (nth h' (values array) []) (nth j (values future_array) []))
              (metric_fun m (nth h' (values array) []) (nth j (values future_array) []))).
  { intros h' Hh'.
    destruct (rows_reducible array future_array h' j Hcmp Hh' Hj) as (Hred & La & Lb).
    split; [| apply (metric_zero_iff_identical_part N _ _ Hred m Hsep)].
    rewrite key_column by (unfold scores; rewrite (proj1 (pairwise_scores_shape _ _ _ _));
                           exact Hh').
    unfold scores, pairwise_scores.
    rewrite (nth_map_in _ (values array) h' [] []) by exact Hh'.
    rewrite (nth_map_in _ (values future_array) j [] NaN) by exact Hj.
    rewrite !stretch_same by assumption. reflexivity. }
  assert (Hlen : length (column j scores) = length (values array)).
  { unfold column. rewrite length_map. apply pairwise_scores_shape. }
  assert (Hmin : forall h', (h' < length (column j scores))%nat -> h' <> h ->
            num_lt (key (column j scores) h) (key (column j scores) h') = true).
  { intros h' Hh' Hne. rewrite Hlen in Hh'.
    destruct (Hcell h Hh) as (-> & q & -> & Hq & Hqz).
    destruct (Hcell h' Hh') as (-> & q' & -> & Hq' & Hqz').
    cbn [num_lt]. apply Qltb_true.
    assert (E0 : q == 0) by (apply Hqz, Hsame).
    assert (Hn0 : ~ q' == 0) by (intros E; apply (Hother h' Hh' Hne), Hqz', E).
    lra. }
  assert (Hsel : forall p, k_smallest (column j scores) 1 (firstn 1 p) ->
                           firstn 1 p = [h]).
  { intros p Hp. apply (k_smallest_unique_min _ _ _ Hp); [rewrite Hlen; exact Hh | exact Hmin]. }
  assert (Hscore : num_eqv (nth j (nth h scores []) NaN) (Fin 0)).
  { rewrite <- key_column by (unfold scores; rewrite (proj1 (pairwise_scores_shape _ _ _ _));
                              exact Hh).
    destruct (Hcell h Hh) as (-> & q & -> & _ & Hqz). cbn. apply Hqz, Hsame. }
  assert (Hnth : forall g : nat -> list nat,
            nth j (map (map Z.of_nat) (map g (seq 0 (length (values future_array))))) []
            = map Z.of_nat (g j)).
  { intros g. rewrite map_map.
    rewrite (nth_map_in _ (seq 0 (length (values future_array))) j 0%nat [])
      by (rewrite length_seq; exact Hj).
    rewrite seq_nth by exact Hj. reflexivity. }
  destruct full_sort.
  - cbn [bind]. eexists _, _. split; [reflexivity |]. split; [| exact Hscore].
    change (min_k <? 1)%nat with false. cbn iota.
    rewrite Hnth. fold scores.
    rewrite (Hsel (argsort (column j scores))); [reflexivity |].
    apply argsort_firstn; [apply argsort_ok | rewrite Hlen; lia].
  - rewrite (check_kth_in_bounds (length (values array)) (Z.of_nat 1 - 1)) by lia.
    cbn [bind]. eexists _, _. split; [reflexivity |]. split; [| exact Hscore].
    change (min_k <? 1)%nat with false. cbn iota.
    rewrite Hnth. fold scores.
    rewrite (Hsel (argpartition (column j scores) (Z.to_nat (Z.of_nat 1 - 1))));
      [reflexivity |].
    apply argpartition_firstn; [| rewrite Hlen; lia].
    apply argpartition_ok. rewrite Hlen. cbn. lia.
Qed.

(** X8. Exact analogue. When a future row holds the same features as
    history row [h] and as no other history row, the independent engine with
    k = 1 and one of the metrics mae, canberra, chebyshev, mse selects [h]
    for that future row, with score 0, under the full sort and under the
    partial selection alike. *)
Theorem independent_exact_match (N : Numpy) (HS : NumpySpec N)
    (array future_array : DataFrame) (name : string) (m : metric) (full_sort : bool)
    (h j : nat) :
  comparable array future_array ->
  metric_of_name name = Some m -> separating m = true ->
  (h < length (values array))%nat -> (j < length (values future_array))%nat ->
  Forall2 num_eqv (nth h (values array) []) (nth j (values future_array) []) ->
  (forall h', (h' < length (values array))%nat -> h' <> h ->
     ~ Forall2 num_eqv (nth h' (values array) []) (nth j (values future_array) [])) ->
  exists test scores,
    seasonal_independent_match_array array future_array (length (values array)) 1
                                     name full_sort None = Ok (test, scores) /\
    nth j test [] = [Z.of_nat h] /\
    num_eqv (nth j (nth h scores []) NaN) (Fin 0).
Proof.
  intros Hcmp Hname Hsep Hh Hj Hsame Hother.
  exact (exact_match_selected N HS array future_array name m full_sort h j
           Hcmp Hname Hsep Hh Hj Hsame Hother).
Qed.

Lemma independent_exact_match_witness :
  comparable three_rows future_row /\
  exists test scores,
    seasonal_independent_match_array (H := numpy_stable) three_rows future_row
      (length (values three_rows)) 1 "mae" false None = Ok (test, scores) /\
    nth 0 test [] = [Z.of_nat 1] /\
    num_eqv (nth 0 (nth 1 scores []) NaN) (Fin 0).
Proof.
  assert (H : comparable three_rows future_row).
  { unfold comparable, aligned, rectangular, finite_frame, ncols. cbn.
    repeat split; try lia; repeat constructor. }
  split; [exact H |].
  apply (independent_exact_match numpy_stable numpy_stable_spec three_rows future_row
           "mae" Mae false 1 0 H); try reflexivity; try (cbn; lia).
  - cbn. constructor; [reflexivity | constructor].
  - intros h' Hh' Hne Hsame. cbn in Hh'.
    destruct h' as [| [| [| h']]]; try lia; cbn in Hsame;
      inversion Hsame as [| ? ? ? ? E _]; subst; cbn in E; discriminate E.
Defined.

(* ================================================================== *)
(** * Properties of the calendar feature encoder *)
(* ================================================================== *)

Lemma prefix_in_prefixes (sub s : string) :
  String.prefix sub s = true -> In sub (prefixes s).
Proof.
  revert sub. induction s as [| c s IH]; intros [| a sub] H; cbn in *;
    try discriminate; try (left; reflexivity).
  right. destruct (ascii_dec a c) as [-> | _]; [| discriminate].
  apply in_map, IH, H.
Qed.

Lemma substring_in_substrings (sub s : string) :
  is_substring sub s = true -> In sub (substrings s).
Proof.
  induction s as [| c s IH]; cbn [is_substring substrings]; intros H.
  - destruct (String.prefix sub "") eqn:E; [| discriminate].
    apply in_or_app. left. apply prefix_in_prefixes, E.
  - apply in_or_app.
    destruct (String.prefix sub (String c s)) eqn:E.
    + left. apply prefix_in_prefixes, E.
    + right. apply IH, H.
Qed.

Lemma substrings_reach_expanded_binarized (name : string) :
  is_substring name "expanded_binarized" = true ->
  reaches_expanded_binarized name = true.
Proof.
  intros H. apply substring_in_substrings in H.
  assert (Hall : forallb reaches_expanded_binarized (substrings "expanded_binarized") = true)
    by (vm_compute; reflexivity).
  rewrite forallb_forall in Hall. apply Hall, H.
Qed.

Lemma date_part_named_expanded_binarized (N : Numpy) (C : Collaborators)
    (DTindex : list Z) (name : string) :
  is_substring name "expanded_binarized" = true ->
  is_substring "_poly" name = false /\
  date_part_named DTindex name = Ok (frame expanded_binarized_cols DTindex).
Proof.
  intros H. assert (Hr := substrings_reach_expanded_binarized name H).
  unfold reaches_expanded_binarized in Hr.
  repeat (apply andb_prop in Hr; destruct Hr as [Hr ?]).
  repeat match goal with
         | Hn : negb _ = true |- _ => apply negb_true_iff in Hn
         end.
  split; [assumption |].
  unfold date_part_named.
  repeat match goal with
         | Hn : ?c = false |- context [if ?c then _ else _] => rewrite Hn
         end.
  rewrite H. reflexivity.
Qed.

(** X9. A scheme name that is a substring of "expanded_binarized" is encoded
    as "expanded_binarized": [date_part] tests [method in "expanded_binarized"]
    on strings. In particular the documented scheme "expanded" never reaches
    its own branch: it gives the 58 columns of "expanded_binarized", without
    the columns "year" or "us_election_year". *)
Theorem expanded_name_is_binarized (N : Numpy) (C : Collaborators)
    (DTindex : list Z) (name : string) (set_index : bool)
    (polynomial_degree : option nat) (holiday_country : option string)
    (holiday_countries_used : bool) :
  is_substring name "expanded_binarized" = true ->
  date_part DTindex (SStr name) set_index polynomial_degree holiday_country
            holiday_countries_used
  = date_part DTindex (SStr "expanded_binarized") set_index polynomial_degree
              holiday_country holiday_countries_used /\
  exists df,
    date_part DTindex (SStr name) true None None true = Ok df /\
    ncols df = 58%nat /\
    ~ In "year"%string (columns df) /\ ~ In "us_election_year"%string (columns df).
Proof.
  intros H.
  destruct (date_part_named_expanded_binarized N C DTindex name H) as [Hp Hn].
  destruct (date_part_named_expanded_binarized N C DTindex "expanded_binarized" eq_refl)
    as [Hp' Hn'].
  cbn [date_part]. rewrite Hp, Hp', Hn, Hn'. split; [reflexivity |].
  eexists. split; [reflexivity |].
  cbn [bind date_part_finish]. unfold ncols, frame, frame_as. cbn [columns].
  split; [vm_compute; reflexivity |].
  split; intros Hin;
    match type of Hin with
    | In ?x ?l =>
        assert (E : existsb (String.eqb x) l = false) by (vm_compute; reflexivity);
        assert (E' : existsb (String.eqb x) l = true)
          by (apply existsb_exists; exists x; split; [exact Hin | apply String.eqb_refl]);
        congruence
    end.
Qed.

Lemma expanded_name_is_binarized_witness :
  is_substring "expanded" "expanded_binarized" = true /\
  date_part (H := numpy_stable) (H0 := no_collaborators) [DT.timestamp 2024 1 1]
            (SStr "expanded") true None None true
  = date_part (H := numpy_stable) (H0 := no_collaborators) [DT.timestamp 2024 1 1]
              (SStr "expanded_binarized") true None None true /\
  exists df,
    date_part (H := numpy_stable) (H0 := no_collaborators) [DT.timestamp 2024 1 1]
              (SStr "expanded") true None None true = Ok df /\
    ncols df = 58%nat /\
    ~ In "year"%string (columns df) /\ ~ In "us_election_year"%string (columns df).
Proof.
  split; [reflexivity |].
  apply (expanded_name_is_binarized numpy_stable no_collaborators
           [DT.timestamp 2024 1 1] "expanded" true None None true).
  reflexivity.
Defined.

(* ---------------------------------------------------------------- *)
(** ** Lists of schemes *)

Lemma drop_duplicated_columns_mask (df : DataFrame) :
  drop_duplicated_columns df
  = {| columns := pick_mask (first_occurrence_mask [] (columns df)) (columns df);
       values := map (pick_mask (first_occurrence_mask [] (columns df))) (values df);
       layout_of := layout_of df |}.
Proof. reflexivity. Qed.

Lemma str_in_In (x : string) (names : list string) :
  str_in x names = true <-> In x names.
Proof.
  unfold str_in. rewrite existsb_exists. split.
  - intros (y & Hy & E). apply String.eqb_eq in E. subst. exact Hy.
  - intros H. exists x. split; [exact H | apply String.eqb_refl].
Qed.

Lemma pick_mask_cons {A : Type} (b : bool) (keep : list bool) (x : A) (l : list A) :
  pick_mask (b :: keep) (x :: l) = if b then x :: pick_mask keep l else pick_mask keep l.
Proof. unfold pick_mask. cbn. destruct b; reflexivity. Qed.

Lemma picked_columns (seen cols : list string) :
  let out := pick_mask (first_occurrence_mask seen cols) cols in
  NoDup out /\
  (forall c, In c out <-> In c cols /\ ~ In c seen).
Proof.
  revert seen. induction cols as [| c cols IH]; intros seen; cbn zeta.
  - split; [constructor |]. intros c. cbn. tauto.
  - cbn [first_occurrence_mask]. rewrite pick_mask_cons.
    destruct (IH (c :: seen)) as [IH1 IH2].
    destruct (str_in c seen) eqn:E; cbn [negb].
    + apply str_in_In in E. split; [exact IH1 |].
      intros x. rewrite IH2. cbn [In]. split.
      * intros [Hx Hn]. split; [right; exact Hx | tauto].
      * intros [[-> | Hx] Hn]; [contradiction |]. split; [exact Hx |].
        intros [-> | Hs]; contradiction.
    + assert (Hn : ~ In c seen).
      { intros Hc. apply str_in_In in Hc. congruence. }
      split.
      * constructor; [| exact IH1]. rewrite IH2. cbn [In]. tauto.
      * intros x. cbn [In]. rewrite IH2. cbn [In]. split.
        -- intros [-> | [Hx Hs]]; [tauto |]. split; [right; exact Hx | tauto].
        -- intros [[-> | Hx] Hs]; [left; reflexivity |].
           destruct (string_dec c x) as [-> | Hne]; [left; reflexivity |].
           right. split; [exact Hx |]. intros [E' | Hs']; [congruence | contradiction].
Qed.

Lemma concat_labels_frames (unnamed : nat) (all_seas : list DataFrame) :
  Forall (fun d => layout_of d <> IndexSeries) all_seas ->
  concat_labels unnamed all_seas = concat (map columns all_seas).
Proof.
  induction 1 as [| d ds Hd _ IH]; [reflexivity |].
  cbn [concat_labels map concat]. rewrite IH.
  destruct (layout_of d); [reflexivity | reflexivity | congruence].
Qed.

Lemma date_part_list_inv (N : Numpy) (C : Collaborators) (DTindex : list Z)
    (l : list scheme) (set_index : bool) (holiday_countries_used : bool)
    (df : DataFrame) :
  date_part DTindex (SList l) set_index None None holiday_countries_used = Ok df ->
  exists all_seas,
    Forall2 (fun seas d => date_part DTindex seas true None None true = Ok d) l all_seas /\
    l <> [] /\
    df = drop_duplicated_columns
           {| columns := concat_labels 0 all_seas;
              values := map (fun i => concat (map (fun d => nth i (values d) []) all_seas))
                            (seq 0 (length DTindex));
              layout_of := Table |}.
Proof.
  cbn [date_part]. intros H.
  apply bind_ok in H. destruct H as (all_seas & Heach & H).
  apply bind_ok in H. destruct H as (df0 & Hcat & H).
  rewrite date_part_finish_default in H. injection H as <-.
  exists all_seas.
  assert (Hall : Forall2 (fun seas d => date_part DTindex seas true None None true = Ok d)
                         l all_seas).
  { clear Hcat. revert all_seas Heach. induction l as [| seas l IH]; intros all_seas Heach.
    - injection Heach as <-. constructor.
    - apply bind_ok in Heach. destruct Heach as (d & Hd & Heach).
      apply bind_ok in Heach. destruct Heach as (ds & Hds & Heach).
      injection Heach as <-. constructor; [exact Hd | apply IH, Hds]. }
  split; [exact Hall |].
  unfold concat_columns in Hcat. destruct all_seas as [| d ds]; [discriminate |].
  injection Hcat as <-. split; [| reflexivity].
  intros ->. inversion Hall.
Qed.

(** X10. For a list of schemes, [date_part] returns a frame whose column
    labels are pairwise distinct: of the labels of the concatenation (the
    columns of the frames, and the numbers 0, 1, ... given to the unnamed
    series of "days_from_epoch") it keeps the first occurrence of each, and
    loses no label; without such a series the labels are those of the
    concatenated frames. *)
Theorem list_scheme_columns_unique (N : Numpy) (C : Collaborators) (DTindex : list Z)
    (l : list scheme) (set_index : bool) (holiday_countries_used : bool)
    (df : DataFrame) :
  date_part DTindex (SList l) set_index None None holiday_countries_used = Ok df ->
  NoDup (columns df) /\
  exists all_seas,
    Forall2 (fun seas d => date_part DTindex seas true None None true = Ok d) l all_seas /\
    (forall c, In c (columns df) <-> In c (concat_labels 0 all_seas)) /\
    (Forall (fun d => layout_of d <> IndexSeries) all_seas ->
     forall c, In c (columns df) <-> exists d, In d all_seas /\ In c (columns d)).
Proof.
  intros H. destruct (date_part_list_inv N C _ _ _ _ _ H) as (all_seas & Hall & _ & ->).
  rewrite drop_duplicated_columns_mask. cbn [columns].
  destruct (picked_columns [] (concat_labels 0 all_seas)) as [Hnd Hin].
  split; [exact Hnd |]. exists all_seas. split; [exact Hall |].
  assert (Hlab : forall c, In c (pick_mask (first_occurrence_mask [] (concat_labels 0 all_seas))
                                           (concat_labels 0 all_seas))
                           <-> In c (concat_labels 0 all_seas)).
  { intros c. rewrite Hin. split; [intros [Hc _]; exact Hc | intros Hc; split; [exact Hc |]].
    intros []. }
  split; [exact Hlab |].
  intros Hframes c. rewrite Hlab, (concat_labels_frames 0 all_seas Hframes), in_concat.
  split.
  - intros (cs & Hcs & Hc). apply in_map_iff in Hcs.
    destruct Hcs as (d & <- & Hd). exists d. auto.
  - intros (d & Hd & Hc). exists (columns d). split; [apply in_map, Hd | exact Hc].
Qed.

Lemma list_scheme_columns_unique_witness :
  exists df,
    date_part (H := numpy_stable) (H0 := no_collaborators) [DT.timestamp 2024 1 6]
              (SList [SStr "weekend"; SStr "recurring"]) true None None true = Ok df /\
    NoDup (columns df) /\
    exists all_seas,
      Forall2 (fun seas d =>
                 date_part (H := numpy_stable) (H0 := no_collaborators)
                           [DT.timestamp 2024 1 6] seas true None None true = Ok d)
              [SStr "weekend"; SStr "recurring"] all_seas /\
      (forall c, In c (columns df) <-> In c (concat_labels 0 all_seas)) /\
      (Forall (fun d => layout_of d <> IndexSeries) all_seas ->
       forall c, In c (columns df) <-> exists d, In d all_seas /\ In c (columns d)).
Proof.
  destruct (date_part (H := numpy_stable) (H0 := no_collaborators) [DT.timestamp 2024 1 6]
              (SList [SStr "weekend"; SStr "recurring"]) true None None true)
    as [df | e] eqn:E; [| vm_compute in E; discriminate E].
  exists df. split; [reflexivity |].
  apply (list_scheme_columns_unique numpy_stable no_collaborators [DT.timestamp 2024 1 6]
           [SStr "weekend"; SStr "recurring"] true true df E).
Defined.

Lemma mask_all_new (seen cols : list string) :
  NoDup cols -> (forall c, In c cols -> ~ In c seen) ->
  first_occurrence_mask seen cols = repeat true (length cols).
Proof.
  intros Hnd. revert seen. induction Hnd as [| c cols Hc Hnd IH]; intros seen Hs;
    [reflexivity |].
  cbn [first_occurrence_mask length repeat].
  destruct (str_in c seen) eqn:E.
  - apply str_in_In in E. exfalso. apply (Hs c); [left; reflexivity | exact E].
  - cbn [negb]. f_equal. apply IH. intros x Hx [-> | Hin]; [contradiction |].
    apply (Hs x); [right; exact Hx | exact Hin].
Qed.

Lemma mask_all_seen (seen cols : list string) :
  (forall c, In c cols -> In c seen) ->
  first_occurrence_mask seen cols = repeat false (length cols).
Proof.
  revert seen. induction cols as [| c cols IH]; intros seen Hs; [reflexivity |].
  cbn [first_occurrence_mask length repeat].
  assert (E : str_in c seen = true) by (apply str_in_In, Hs; left; reflexivity).
  rewrite E. cbn [negb]. f_equal. apply IH. intros x Hx. right. apply Hs. right. exact Hx.
Qed.

Lemma mask_app (seen a b : list string) :
  first_occurrence_mask seen (a ++ b)
  = first_occurrence_mask seen a ++ first_occurrence_mask (rev a ++ seen) b.
Proof.
  revert seen. induction a as [| c a IH]; intros seen; [reflexivity |].
  cbn [app first_occurrence_mask rev]. f_equal. rewrite IH, <- app_assoc. reflexivity.
Qed.

Lemma pick_mask_true {A : Type} (keep : list bool) (r1 r2 : list A) :
  pick_mask (repeat true (length r1) ++ keep) (r1 ++ r2) = r1 ++ pick_mask keep r2.
Proof.
  induction r1 as [| x r1 IH]; [reflexivity |].
  cbn [length repeat app]. rewrite pick_mask_cons. f_equal. exact IH.
Qed.

Lemma pick_mask_false {A : Type} (r : list A) :
  pick_mask (repeat false (length r)) r = [].
Proof.
  induction r as [| x r IH]; [reflexivity |].
  cbn [length repeat]. rewrite pick_mask_cons. exact IH.
Qed.

Lemma pick_mask_all {A : Type} (r : list A) :
  pick_mask (repeat true (length r)) r = r.
Proof.
  induction r as [| x r IH]; [reflexivity |].
  cbn [length repeat]. rewrite pick_mask_cons. f_equal. exact IH.
Qed.

Lemma pick_mask_nil {A : Type} (keep : list bool) : pick_mask keep (@nil A) = [].
Proof. unfold pick_mask. destruct keep; reflexivity. Qed.

Lemma map_nth_seq {A : Type} (l : list A) (d : A) :
  map (fun i => nth i l d) (seq 0 (length l)) = l.
Proof.
  apply (nth_ext _ _ d d); [rewrite length_map, length_seq; reflexivity |].
  intros i Hi. rewrite length_map, length_seq in Hi.
  rewrite (nth_map_in _ (seq 0 (length l)) i 0%nat d) by (rewrite length_seq; exact Hi).
  rewrite seq_nth by exact Hi. reflexivity.
Qed.

(** X11. Listing a scheme twice changes nothing: when a scheme encodes to
    a frame (not to the unnamed series of "days_from_epoch", whose copies
    get the labels 0 and 1 and are both kept) with one complete row per
    timestamp and distinct column labels, the lists [[s]] and [[s, s]] both
    encode to its columns and its values. *)
Theorem list_scheme_repeat (N : Numpy) (C : Collaborators) (DTindex : list Z)
    (s : scheme) (df : DataFrame) :
  date_part DTindex s true None None true = Ok df ->
  layout_of df <> IndexSeries ->
  rectangular df -> length (values df) = length DTindex -> NoDup (columns df) ->
  exists df1 df2,
    date_part DTindex (SList [s]) true None None true = Ok df1 /\
    date_part DTindex (SList [s; s]) true None None true = Ok df2 /\
    columns df1 = columns df /\ values df1 = values df /\
    columns df2 = columns df /\ values df2 = values df.
Proof.
  intros H Hframe Hrect Hrows Hnd.
  assert (Hnew : first_occurrence_mask [] (columns df) = repeat true (length (columns df))).
  { apply mask_all_new; [exact Hnd | intros c _ []]. }
  assert (Hold : first_occurrence_mask (rev (columns df) ++ []) (columns df)
                 = repeat false (length (columns df))).
  { apply mask_all_seen. intros c Hc. rewrite app_nil_r, <- in_rev. exact Hc. }
  assert (Hrow : forall r, In r (values df) -> length r = length (columns df)).
  { intros r Hr. unfold rectangular in Hrect. rewrite Forall_forall in Hrect.
    apply Hrect, Hr. }
  cbn [date_part]. rewrite H. cbn [bind concat_columns]. rewrite !date_part_finish_default.
  eexists _, _. split; [reflexivity | split; [reflexivity |]].
  rewrite !drop_duplicated_columns_mask. cbn [columns values].
  rewrite !concat_labels_frames by (repeat constructor; exact Hframe).
  cbn [map concat]. rewrite !app_nil_r.
  rewrite mask_app, Hnew, Hold.
  assert (P1 : forall r : list num, length r = length (columns df) ->
                 pick_mask (repeat true (length (columns df))) r = r).
  { intros r Hr. rewrite <- Hr. apply pick_mask_all. }
  assert (P2 : forall r : list num, length r = length (columns df) ->
                 pick_mask (repeat true (length (columns df))
                            ++ repeat false (length (columns df))) (r ++ r) = r).
  { intros r Hr. rewrite <- Hr. rewrite pick_mask_true, pick_mask_false. apply app_nil_r. }
  assert (Pc : forall r : list string, length r = length (columns df) ->
                 pick_mask (repeat true (length (columns df))) r = r).
  { intros r Hr. rewrite <- Hr. apply pick_mask_all. }
  assert (Pc2 : forall r : list string, length r = length (columns df) ->
                 pick_mask (repeat true (length (columns df))
                            ++ repeat false (length (columns df))) (r ++ r) = r).
  { intros r Hr. rewrite <- Hr. rewrite pick_mask_true, pick_mask_false. apply app_nil_r. }
  rewrite (Pc _ eq_refl), (Pc2 _ eq_refl).
  split; [reflexivity |]. rewrite !map_map, <- Hrows.
  assert (Hnth : forall i, (i < length (values df))%nat ->
                   length (nth i (values df) []) = length (columns df)).
  { intros i Hi. apply Hrow, nth_In, Hi. }
  split; [| split; [reflexivity |]].
  - rewrite <- (map_nth_seq (values df) []) at 2. apply map_ext_in.
    intros i Hi. apply in_seq in Hi. rewrite app_nil_r. apply P1, Hnth. lia.
  - rewrite <- (map_nth_seq (values df) []) at 2. apply map_ext_in.
    intros i Hi. apply in_seq in Hi. rewrite app_nil_r. apply P2, Hnth. lia.
Qed.

Lemma list_scheme_repeat_witness :
  let DTindex := [DT.timestamp 2024 1 6] in
  let df := frame [flag_col "weekend" weekend] DTindex in
  date_part (H := numpy_stable) (H0 := no_collaborators) DTindex (SStr "weekend")
            true None None true = Ok df /\
  layout_of df <> IndexSeries /\
  rectangular df /\ length (values df) = length DTindex /\ NoDup (columns df) /\
  exists df1 df2,
    date_part (H := numpy_stable) (H0 := no_collaborators) DTindex
              (SList [SStr "weekend"]) true None None true = Ok df1 /\
    date_part (H := numpy_stable) (H0 := no_collaborators) DTindex
              (SList [SStr "weekend"; SStr "weekend"]) true None None true = Ok df2 /\
    columns df1 = columns df /\ values df1 = values df /\
    columns df2 = columns df /\ values df2 = values df.
Proof.
  intros DTindex df.
  assert (H1 : date_part (H := numpy_stable) (H0 := no_collaborators) DTindex
                 (SStr "weekend") true None None true = Ok df) by reflexivity.
  assert (H2 : rectangular df) by (repeat constructor).
  assert (H3 : length (values df) = length DTindex) by reflexivity.
  assert (H4 : NoDup (columns df)).
  { cbn. constructor; [intros [] | constructor]. }
  assert (H0 : layout_of df <> IndexSeries) by discriminate.
  split; [exact H1 | split; [exact H0 | split; [exact H2 | split; [exact H3 |
    split; [exact H4 |]]]]].
  apply (list_scheme_repeat numpy_stable no_collaborators DTindex (SStr "weekend") df
           H1 H0 H2 H3 H4).
Defined.

(* ---------------------------------------------------------------- *)
(** ** The ranges of the calendar attributes *)

Section Calendar.
Local Open Scope Z_scope.

Lemma yoe_doy (doe : Z) :
  0 <= doe < 146097 ->
  let yoe := (doe - doe / 1460 + doe / 36524 - doe / 146096) / 365 in
  0 <= yoe <= 399 /\ 0 <= doe - (365 * yoe + yoe / 4 - yoe / 100) <= 365.
Proof.
  intros H yoe. subst yoe. Z.div_mod_to_equations. lia.
Qed.

Lemma month_day_of_doy (doy : Z) :
  0 <= doy <= 365 ->
  let mp := (5 * doy + 2) / 153 in
  let dd := doy - (153 * mp + 2) / 5 + 1 in
  let m := if mp <? 10 then mp + 3 else mp - 9 in
  1 <= m <= 12 /\ 1 <= dd <= mdays_leap m /\ (m <= 2 <-> 306 <= doy).
Proof.
  intros H mp dd m.
  assert (Hmp : 0 <= mp <= 11) by (subst mp; Z.div_mod_to_equations; lia).
  assert (Hcases : mp = 0 \/ mp = 1 \/ mp = 2 \/ mp = 3 \/ mp = 4 \/ mp = 5 \/ mp = 6 \/
                   mp = 7 \/ mp = 8 \/ mp = 9 \/ mp = 10 \/ mp = 11) by lia.
  subst m dd.
  repeat (destruct Hcases as [E | Hcases]);
    try (rename Hcases into E);
    rewrite E;
    match goal with
    | |- context [mdays_leap ?x] =>
        let v := eval vm_compute in (mdays_leap x) in change (mdays_leap x) with v
    end;
    cbn; subst mp; Z.div_mod_to_equations; lia.
Qed.

Lemma day_number_shift (y e : Z) :
  DT.day_number (y + e * 400) 1 1 = DT.day_number y 1 1 + e * 146097.
Proof.
  unfold DT.day_number. change (1 <=? 2) with true. change (2 <? 1) with false.
  cbv iota zeta.
  replace (y + e * 400 - 1) with (y - 1 + e * 400) by ring.
  rewrite Z.div_add by lia.
  replace (y - 1 + e * 400 - ((y - 1) / 400 + e) * 400)
    with (y - 1 - (y - 1) / 400 * 400) by ring.
  ring.
Qed.

Lemma dayofyear_of_doe (doe era : Z) :
  0 <= doe < 146097 ->
  let yoe := (doe - doe / 1460 + doe / 36524 - doe / 146096) / 365 in
  let doy := doe - (365 * yoe + yoe / 4 - yoe / 100) in
  forall c, (c = 1 /\ 306 <= doy \/ c = 0 /\ doy < 306) ->
  1 <= era * 146097 + doe - 719468 - DT.day_number (yoe + era * 400 + c) 1 1 + 1 <= 366.
Proof.
  intros H yoe doy c Hc.
  replace (yoe + era * 400 + c) with (yoe + c + era * 400) by ring.
  rewrite day_number_shift.
  destruct (yoe_doy doe H) as [Hy Hd]. fold yoe in Hy, Hd. fold doy in Hd.
  unfold DT.day_number. change (1 <=? 2) with true. change (2 <? 1) with false.
  cbv iota zeta. change ((153 * (1 + 9) + 2) / 5) with 306.
  subst doy. clearbody yoe.
  Z.div_mod_to_equations. lia.
Qed.

Lemma calendar_ranges (ts : Z) :
  1 <= DT.month ts <= 12 /\
  1 <= DT.day ts <= mdays_leap (DT.month ts) /\
  1 <= DT.dayofyear ts <= 366 /\
  0 <= DT.weekday ts <= 6.
Proof.
  unfold DT.dayofyear, DT.year, DT.month, DT.day, DT.civil. cbv zeta. cbn [fst snd].
  set (z := DT.days ts + 719468).
  set (era := z / 146097).
  set (doe := z - era * 146097).
  set (yoe := (doe - doe / 1460 + doe / 36524 - doe / 146096) / 365).
  set (doy := doe - (365 * yoe + yoe / 4 - yoe / 100)).
  assert (Hdoe : 0 <= doe < 146097).
  { subst doe era. Z.div_mod_to_equations. lia. }
  destruct (yoe_doy doe Hdoe) as [Hy Hd]. fold yoe in Hy, Hd. fold doy in Hd.
  destruct (month_day_of_doy doy Hd) as (Hm & Hdd & Hc).
  split; [exact Hm | split; [exact Hdd | split]].
  - replace (DT.days ts) with (era * 146097 + doe - 719468) by (subst doe z; ring).
    apply (dayofyear_of_doe doe era Hdoe).
    fold yoe. fold doy.
    destruct (Z.leb_spec (if (5 * doy + 2) / 153 <? 10
                          then (5 * doy + 2) / 153 + 3
                          else (5 * doy + 2) / 153 - 9) 2) as [Hle | Hgt].
    + left. split; [reflexivity | apply Hc, Hle].
    + right. split; [reflexivity |]. destruct (Z.lt_ge_cases doy 306) as [Hlt | Hge];
        [exact Hlt | exfalso; apply Hc in Hge; lia].
  - unfold DT.weekday. assert (H7 := Z.mod_pos_bound (DT.days ts + 3) 7 ltac:(lia)). lia.
Qed.

End Calendar.

(* ---------------------------------------------------------------- *)
(** ** One-hot date parts *)

Lemma range_In (a b c : Z) : In c (range a b) <-> (a <= c < b)%Z.
Proof.
  unfold range. rewrite in_map_iff. split.
  - intros (i & <- & Hi). apply in_seq in Hi. lia.
  - intros Hc. exists (Z.to_nat (c - a)). split; [lia |]. apply in_seq. lia.
Qed.

Lemma NoDup_map_injective {A B : Type} (f : A -> B) (l : list A) :
  (forall x y, f x = f y -> x = y) -> NoDup l -> NoDup (map f l).
Proof.
  intros Hf. induction 1 as [| x l Hx Hl IH]; cbn [map]; constructor; [| exact IH].
  intros Hin. apply in_map_iff in Hin. destruct Hin as (y & E & Hy).
  apply Hf in E. subst. contradiction.
Qed.

Lemma range_NoDup (a b : Z) : NoDup (range a b).
Proof.
  unfold range. apply NoDup_map_injective; [| apply seq_NoDup].
  intros i j E. lia.
Qed.

Lemma unique_from_facts (seen l : list string) :
  NoDup (unique_from seen l) /\
  (forall x, In x (unique_from seen l) <-> In x l /\ ~ In x seen).
Proof.
  revert seen. induction l as [| c l IH]; intros seen.
  - split; [constructor |]. intros x. cbn. tauto.
  - cbn [unique_from]. destruct (str_in c seen) eqn:E.
    + apply str_in_In in E. destruct (IH seen) as [IH1 IH2].
      split; [exact IH1 |]. intros x. rewrite IH2. cbn [In]. split.
      * intros [Hx Hn]. split; [right; exact Hx | exact Hn].
      * intros [[-> | Hx] Hn]; [contradiction | split; assumption].
    + assert (Hn : ~ In c seen).
      { intros Hc. apply str_in_In in Hc. congruence. }
      destruct (IH (c :: seen)) as [IH1 IH2]. split.
      * constructor; [| exact IH1]. rewrite IH2. cbn [In]. tauto.
      * intros x. cbn [In]. rewrite IH2. cbn [In]. split.
        -- intros [-> | [Hx Hs]]; [tauto |]. split; [right; exact Hx | tauto].
        -- intros [[-> | Hx] Hs]; [left; reflexivity |].
           destruct (string_dec c x) as [-> | Hne]; [left; reflexivity |].
           right. split; [exact Hx |]. intros [E' | Hs']; [congruence | contradiction].
Qed.

(** A row of indicator cells over distinct categories, one of which is the
    value, is one-hot. *)
Lemma indicator_row_one_hot {A : Type} (eqb : A -> A -> bool) (cats : list A) (v : A) :
  (forall x y, eqb x y = true <-> x = y) ->
  NoDup cats -> In v cats ->
  one_hot (map (fun c => if eqb v c then Fin 1 else Fin 0) cats).
Proof.
  intros Heqb Hnd Hin.
  destruct (In_nth _ _ v Hin) as (i & Hi & Ei).
  exists i. rewrite length_map. split; [exact Hi |]. intros j Hj.
  rewrite (nth_map_in _ cats j v NaN) by exact Hj.
  destruct (Nat.eqb_spec j i) as [-> | Hne].
  - rewrite Ei. rewrite (proj2 (Heqb v v) eq_refl). reflexivity.
  - destruct (eqb v (nth j cats v)) eqn:E; [| reflexivity].
    apply Heqb in E. exfalso. apply Hne.
    apply (proj1 (NoDup_nth cats v) Hnd j i Hj Hi). congruence.
Qed.

Lemma get_dummies_row (prefix : string) (cats : list Z) (f : Z -> Z) (ts : Z) :
  map (fun c : feature => snd c ts) (get_dummies prefix cats f)
  = map (fun c => if (f ts =? c)%Z then Fin 1 else Fin 0) cats.
Proof. unfold get_dummies. rewrite map_map. reflexivity. Qed.

Lemma get_dummies_str_row (prefix : string) (cats : list string) (f : Z -> string) (ts : Z) :
  map (fun c : feature => snd c ts) (get_dummies_str prefix cats f)
  = map (fun c => if String.eqb (f ts) c then Fin 1 else Fin 0) cats.
Proof. unfold get_dummies_str. rewrite map_map. reflexivity. Qed.

Lemma dummies_one_hot (prefix : string) (a b : Z) (f : Z -> Z) (DTindex : list Z) :
  (forall ts, (a <= f ts < b)%Z) ->
  Forall one_hot (values (frame (get_dummies prefix (range a b) f) DTindex)).
Proof.
  intros Hf. cbn [frame frame_as values]. apply Forall_forall. intros r Hr.
  apply in_map_iff in Hr. destruct Hr as (ts & <- & _). rewrite get_dummies_row.
  apply (indicator_row_one_hot Z.eqb); [apply Z.eqb_eq | apply range_NoDup |].
  apply range_In, Hf.
Qed.

Lemma dummies_str_one_hot (prefix : string) (l : list string) (f : Z -> string)
    (DTindex : list Z) :
  (forall ts, In (f ts) (unique_from [] l)) ->
  Forall one_hot (values (frame (get_dummies_str prefix (unique_from [] l) f) DTindex)).
Proof.
  intros Hf. cbn [frame frame_as values]. apply Forall_forall. intros r Hr.
  apply in_map_iff in Hr. destruct Hr as (ts & <- & _). rewrite get_dummies_str_row.
  apply (indicator_row_one_hot String.eqb);
    [apply String.eqb_eq | apply unique_from_facts | apply Hf].
Qed.

Lemma forallb_In {A : Type} (f : A -> bool) (l : list A) (x : A) :
  forallb f l = true -> In x l -> f x = true.
Proof. intros H. apply forallb_forall, H. Qed.

(** Every month with every week of the month and weekday, resp. every day
    of a leap year, has its category among those drawn from the year 2020. *)
Lemma monweek_is_covered :
  let cats := unique_from [] (map month_monweek cat_index) in
  forallb (fun m =>
    forallb (fun w =>
      forallb (fun wd =>
        str_in (str_Z m ++ str_Z (if (10 * w + wd <=? 50)%Z then (10 * w + wd)%Z else 50%Z))
               cats)
      (range 0 7)) (range 1 6)) (range 1 13) = true.
Proof. vm_compute. reflexivity. Qed.

Lemma month_day_is_covered :
  let cats := unique_from [] (map month_day cat_index) in
  forallb (fun m =>
    forallb (fun d => str_in (str_Z m ++ str_Z d) cats)
            (range 1 (mdays_leap m + 1))) (range 1 13) = true.
Proof. vm_compute. reflexivity. Qed.

Lemma day_range (ts : Z) : (1 <= DT.day ts <= 31)%Z.
Proof.
  destruct (calendar_ranges ts) as (Hm & Hd & _).
  assert (H31 : (mdays_leap (DT.month ts) <= 31)%Z).
  { assert (Hc : In (DT.month ts) (range 1 13)) by (apply range_In; lia).
    revert Hc. generalize (DT.month ts). intros m Hm'.
    repeat (destruct Hm' as [<- | Hm']; [vm_compute; discriminate |]). destruct Hm'. }
  lia.
Qed.

Lemma weekdayofmonth_range (ts : Z) : (1 <= weekdayofmonth ts <= 5)%Z.
Proof.
  assert (Hd := day_range ts). unfold weekdayofmonth. Z.div_mod_to_equations. lia.
Qed.

Lemma month_monweek_in_cats (ts : Z) :
  In (month_monweek ts) (unique_from [] (map month_monweek cat_index)).
Proof.
  destruct (calendar_ranges ts) as (Hm & _ & _ & Hw).
  assert (Hwom := weekdayofmonth_range ts).
  assert (I1 : In (DT.month ts) (range 1 13)) by (apply range_In; lia).
  assert (I2 : In (weekdayofmonth ts) (range 1 6)) by (apply range_In; lia).
  assert (I3 : In (DT.weekday ts) (range 0 7)) by (apply range_In; lia).
  assert (H := monweek_is_covered). cbv zeta in H.
  rewrite forallb_forall in H. specialize (H _ I1). cbv beta in H.
  rewrite forallb_forall in H. specialize (H _ I2). cbv beta in H.
  rewrite forallb_forall in H. specialize (H _ I3). cbv beta in H.
  apply str_in_In in H. exact H.
Qed.

Lemma month_day_in_cats (ts : Z) :
  In (month_day ts) (unique_from [] (map month_day cat_index)).
Proof.
  destruct (calendar_ranges ts) as (Hm & Hd & _).
  assert (I1 : In (DT.month ts) (range 1 13)) by (apply range_In; lia).
  assert (I2 : In (DT.day ts) (range 1 (mdays_leap (DT.month ts) + 1)))
    by (apply range_In; lia).
  assert (H := month_day_is_covered). cbv zeta in H.
  rewrite forallb_forall in H. specialize (H _ I1). cbv beta in H.
  rewrite forallb_forall in H. specialize (H _ I2). cbv beta in H.
  apply str_in_In in H. exact H.
Qed.

Lemma frame_rows (cols : list feature) (DTindex : list Z) :
  length (values (frame cols DTindex)) = length DTindex.
Proof. cbn [frame frame_as values]. apply length_map. Qed.

(** X12. The date parts "dayofweek", "month", "day", "weekdayofmonth",
    "quarter", "dayofyear", "weekdaymonthofyear" and "dayofmonthofyear"
    encode every timestamp as a one-hot row: exactly one cell is 1 and the
    others are 0, whatever the timestamp (unlike "hour", whose domain 1..24
    leaves hour 0 out). *)
Theorem covering_components_one_hot (N : Numpy) (C : Collaborators)
    (DTindex : list Z) (name : string) :
  In name covering_components ->
  exists df,
    create_datepart_components DTindex name = Ok df /\
    date_part DTindex (SStr name) true None None true = Ok df /\
    length (values df) = length DTindex /\
    Forall one_hot (values df).
Proof.
  intros Hin. cbn [covering_components In] in Hin.
  assert (R := calendar_ranges).
  assert (Hq : forall ts, (1 <= DT.quarter ts < 5)%Z).
  { intros ts. destruct (R ts) as (Hm & _). unfold DT.quarter.
    Z.div_mod_to_equations. lia. }
  assert (Hd31 : forall ts, (1 <= DT.day ts < 32)%Z).
  { intros ts. assert (Hd := day_range ts). lia. }
  assert (Hnum : forall (prefix : string) (a b : Z) (f : Z -> Z),
            (forall ts, (a <= f ts < b)%Z) ->
            create_datepart_components DTindex prefix
            = Ok (frame (get_dummies prefix (range a b) f) DTindex) ->
            date_part DTindex (SStr prefix) true None None true
            = Ok (frame (get_dummies prefix (range a b) f) DTindex) ->
            exists df,
              create_datepart_components DTindex prefix = Ok df /\
              date_part DTindex (SStr prefix) true None None true = Ok df /\
              length (values df) = length DTindex /\ Forall one_hot (values df)).
  { intros prefix a b f Hf E1 E2. eexists. split; [exact E1 | split; [exact E2 |]].
    split; [apply frame_rows | apply dummies_one_hot, Hf]. }
  assert (Hstr : forall (prefix : string) (l : list string) (f : Z -> string),
            (forall ts, In (f ts) (unique_from [] l)) ->
            create_datepart_components DTindex prefix
            = Ok (frame (get_dummies_str prefix (unique_from [] l) f) DTindex) ->
            date_part DTindex (SStr prefix) true None None true
            = Ok (frame (get_dummies_str prefix (unique_from [] l) f) DTindex) ->
            exists df,
              create_datepart_components DTindex prefix = Ok df /\
              date_part DTindex (SStr prefix) true None None true = Ok df /\
              length (values df) = length DTindex /\ Forall one_hot (values df)).
  { intros prefix l f Hf E1 E2. eexists. split; [exact E1 | split; [exact E2 |]].
    split; [apply frame_rows | apply dummies_str_one_hot, Hf]. }
  destruct Hin as [<- | [<- | [<- | [<- | [<- | [<- | [<- | [<- | []]]]]]]]].
  - apply (Hnum _ 0%Z 7%Z DT.weekday); [| reflexivity | reflexivity].
    intros ts. destruct (R ts) as (_ & _ & _ & Hw). lia.
  - apply (Hnum _ 1%Z 13%Z DT.month); [| reflexivity | reflexivity].
    intros ts. destruct (R ts) as (Hm & _). lia.
  - apply (Hnum _ 1%Z 32%Z DT.day); [exact Hd31 | reflexivity | reflexivity].
  - apply (Hnum _ 1%Z 6%Z weekdayofmonth); [| reflexivity | reflexivity].
    intros ts. assert (Hw := weekdayofmonth_range ts). lia.
  - apply (Hnum _ 1%Z 5%Z DT.quarter); [exact Hq | reflexivity | reflexivity].
  - apply (Hnum _ 1%Z 367%Z DT.dayofyear); [| reflexivity | reflexivity].
    intros ts. destruct (R ts) as (_ & _ & Hy & _). lia.
  - apply (Hstr _ (map month_monweek cat_index) month_monweek);
      [exact month_monweek_in_cats | reflexivity | reflexivity].
  - apply (Hstr _ (map month_day cat_index) month_day);
      [exact month_day_in_cats | reflexivity | reflexivity].
Qed.

Lemma covering_components_one_hot_witness :
  In "month"%string covering_components /\
  exists df,
    create_datepart_components [DT.timestamp 2024 2 29] "month" = Ok df /\
    date_part (H := numpy_stable) (H0 := no_collaborators) [DT.timestamp 2024 2 29]
              (SStr "month") true None None true = Ok df /\
    length (values df) = length [DT.timestamp 2024 2 29] /\
    Forall one_hot (values df).
Proof.
  assert (H : In "month"%string covering_components) by (right; left; reflexivity).
  split; [exact H |].
  apply (covering_components_one_hot numpy_stable no_collaborators
           [DT.timestamp 2024 2 29] "month" H).
Defined.

(** X13. The date part "dayofmonthofyear" labels a day by the month and the
    day written one after the other, with no separator, so that two
    timestamps with the same label encode to the same row: January 10 + d and
    November d, and January 20 + d and December d, for d = 1..9. The frame
    has 348 columns, not 366. *)
Theorem dayofmonthofyear_collisions (DTindex : list Z) (i1 i2 : nat) (ts1 ts2 : Z) (d : Z) :
  nth_error DTindex i1 = Some ts1 -> nth_error DTindex i2 = Some ts2 ->
  (1 <= d <= 9)%Z ->
  (DT.month ts1 = 1%Z /\ DT.day ts1 = (10 + d)%Z /\ DT.month ts2 = 11%Z /\ DT.day ts2 = d) \/
  (DT.month ts1 = 1%Z /\ DT.day ts1 = (20 + d)%Z /\ DT.month ts2 = 12%Z /\ DT.day ts2 = d) ->
  exists df,
    create_datepart_components DTindex "dayofmonthofyear" = Ok df /\
    ncols df = 348%nat /\
    nth_error (values df) i1 = nth_error (values df) i2.
Proof.
  intros H1 H2 Hd Hcase.
  exists (frame (get_dummies_str "dayofmonthofyear"
                   (unique_from [] (map month_day cat_index)) month_day) DTindex).
  split; [reflexivity |]. split.
  - unfold ncols, frame, frame_as, get_dummies_str. cbn [columns].
    rewrite !length_map. vm_compute. reflexivity.
  - rewrite (frame_row _ _ _ _ H1), (frame_row _ _ _ _ H2). f_equal.
    rewrite !get_dummies_str_row.
    assert (E : month_day ts1 = month_day ts2).
    { unfold month_day.
      assert (Hc : (d = 1 \/ d = 2 \/ d = 3 \/ d = 4 \/ d = 5 \/ d = 6 \/ d = 7 \/ d = 8 \/
                    d = 9)%Z) by lia.
      destruct Hcase as [(-> & -> & -> & ->) | (-> & -> & -> & ->)];
        repeat (destruct Hc as [-> | Hc]; [reflexivity |]); subst d; reflexivity. }
    rewrite E. reflexivity.
Qed.

Lemma dayofmonthofyear_collisions_witness :
  let DTindex := [DT.timestamp 2024 1 11; DT.timestamp 2024 11 1] in
  nth_error DTindex 0 = Some (DT.timestamp 2024 1 11) /\
  nth_error DTindex 1 = Some (DT.timestamp 2024 11 1) /\
  (1 <= 1 <= 9)%Z /\
  (DT.month (DT.timestamp 2024 1 11) = 1%Z /\ DT.day (DT.timestamp 2024 1 11) = (10 + 1)%Z /\
   DT.month (DT.timestamp 2024 11 1) = 11%Z /\ DT.day (DT.timestamp 2024 11 1) = 1%Z) /\
  exists df,
    create_datepart_components DTindex "dayofmonthofyear" = Ok df /\
    ncols df = 348%nat /\
    nth_error (values df) 0 = nth_error (values df) 1.
Proof.
  intros DTindex.
  assert (Hm : DT.month (DT.timestamp 2024 1 11) = 1%Z /\
               DT.day (DT.timestamp 2024 1 11) = (10 + 1)%Z /\
               DT.month (DT.timestamp 2024 11 1) = 11%Z /\
               DT.day (DT.timestamp 2024 11 1) = 1%Z)
    by (vm_compute; repeat split; reflexivity).
  split; [reflexivity | split; [reflexivity | split; [lia | split; [exact Hm |]]]].
  apply (dayofmonthofyear_collisions DTindex 0 1 (DT.timestamp 2024 1 11)
           (DT.timestamp 2024 11 1) 1 eq_refl eq_refl); [lia | left; exact Hm].
Defined.

(* ---------------------------------------------------------------- *)
(** ** Fourier features *)

Lemma fourier_series_row_length (N : Numpy) (t p : num) (n : nat) :
  length (fourier_series_row t p n) = (2 * n)%nat.
Proof.
  unfold fourier_series_row. rewrite length_app, !length_map, length_seq. lia.
Qed.

Lemma fourier_block_sized (N : Numpy) (t : Z -> num) (p : Q) (n : nat) :
  well_sized (fourier_block t p n).
Proof. intros ts. apply fourier_series_row_length. Qed.

Lemma block_product_sized (N : Numpy) (f g : block) :
  well_sized f -> well_sized g -> fst f = fst g -> well_sized (block_product f g).
Proof.
  intros Hf Hg E ts. unfold block_product. cbn [fst snd].
  rewrite map2_length, Hf, Hg, E. apply Nat.min_id.
Qed.

Lemma concat_sized (N : Numpy) (L : list block) (ts : Z) :
  Forall well_sized L ->
  length (concat (map (fun b : block => snd b ts) L)) = fold_right Nat.add 0%nat (map fst L).
Proof.
  induction 1 as [| b L Hb HL IH]; [reflexivity |].
  cbn [map concat fold_right]. rewrite length_app, Hb, IH. reflexivity.
Qed.

(** The frame of "common_fourier": a list of well-sized blocks chosen by the
    cadence of the index, rounded, with the epoch column for the "_rw" kind. *)
Lemma common_fourier_form (N : Numpy) (DTindex : list Z) (rw : bool) :
  exists (L : list block) (epoch : Z -> num),
    Forall well_sized L /\
    In (fold_right Nat.add 0%nat (map fst L)) common_fourier_widths /\
    ((length DTindex <= 1)%nat -> fold_right Nat.add 0%nat (map fst L) = 36%nat) /\
    columns (common_fourier DTindex rw)
    = map (fun x => ("seasonalitycommonfourier_" ++ str_nat x)%string)
          (seq 0 (fold_right Nat.add 0%nat (map fst L)))
      ++ (if rw then ["epoch"%string] else []) /\
    values (common_fourier DTindex rw)
    = map (fun ts => map round6 (concat (map (fun b : block => snd b ts) L))
                     ++ (if rw then [epoch ts] else [])) DTindex.
Proof.
  unfold common_fourier. cbv zeta.
  destruct (Nat.leb_spec (length DTindex) 1) as [Hone | Hmany].
  - change (Qltb 1 (75 # 100)) with false. change (Qltb 1 (35 # 10)) with true.
    cbv iota. eexists _, _. split; [| split; [| split; [| split; reflexivity]]].
    + repeat (apply Forall_cons || apply Forall_nil);
        first [ apply block_product_sized;
                [apply fourier_block_sized | apply fourier_block_sized | reflexivity]
              | apply fourier_block_sized ].
    + cbn. tauto.
    + intros _. reflexivity.
  - set (ratio := inject_Z (DT.days (DT.max DTindex - DT.min DTindex) + 1)
                  / inject_Z (Z.of_nat (length DTindex))).
    destruct (Qltb ratio (75 # 100));
      [| destruct (Qltb ratio (35 # 10));
         [| destruct (Qltb ratio 12); [| destruct (Qltb ratio 182)]]];
      (eexists _, _; split; [| split; [| split; [| split; reflexivity]]];
       [ repeat (apply Forall_cons || apply Forall_nil);
         first [ apply block_product_sized;
                 [apply fourier_block_sized | apply fourier_block_sized | reflexivity]
               | apply fourier_block_sized ]
       | cbn; tauto
       | intros Hle; lia ]).
Qed.

(** X14. The "common_fourier" schemes always give a complete frame: one row
    per timestamp, every row as wide as the column labels, and 52, 36, 28,
    26 or 20 Fourier columns according to the cadence of the index (plus
    "epoch" for "common_fourier_rw"); an index of at most one timestamp is
    treated as daily and gets 36. *)
Theorem common_fourier_shape (N : Numpy) (C : Collaborators) (DTindex : list Z)
    (rw : bool) :
  let df := common_fourier DTindex rw in
  date_part DTindex (SStr (if rw then "common_fourier_rw" else "common_fourier"))
            true None None true = Ok df /\
  rectangular df /\ length (values df) = length DTindex /\
  In (ncols df - (if rw then 1 else 0))%nat common_fourier_widths /\
  ((length DTindex <= 1)%nat -> ncols df = (36 + (if rw then 1 else 0))%nat).
Proof.
  intros df. subst df.
  destruct (common_fourier_form N DTindex rw) as (L & epoch & HL & Hw & H1 & Hc & Hv).
  split; [destruct rw; reflexivity |].
  assert (Hn : ncols (common_fourier DTindex rw)
               = (fold_right Nat.add 0 (map fst L) + (if rw then 1 else 0))%nat).
  { unfold ncols. rewrite Hc, length_app, length_map, length_seq. destruct rw; reflexivity. }
  split; [| split; [| split]].
  - unfold rectangular. rewrite Hn, Hv. apply Forall_forall. intros r Hr.
    apply in_map_iff in Hr. destruct Hr as (ts & <- & _).
    rewrite length_app, length_map, (concat_sized N L ts HL). destruct rw; reflexivity.
  - rewrite Hv. apply length_map.
  - rewrite Hn. destruct rw; [rewrite Nat.add_sub | rewrite Nat.add_0_r, Nat.sub_0_r];
      exact Hw.
  - intros Hle. rewrite Hn, (H1 Hle). reflexivity.
Qed.

Lemma common_fourier_layout (N : Numpy) (DTindex : list Z) (rw : bool) :
  layout_of (common_fourier DTindex rw) = Table.
Proof. reflexivity. Qed.

(** One step down the chain of branches of the encoder: the branch taken
    returns a 2-D frame, unless it is the one of "days_from_epoch". *)
Ltac branch_step :=
  cbv zeta;
  match goal with
  | |- (if ?b then _ else _) = Ok _ -> _ => destruct b eqn:?; cbv iota
  | |- Ok _ = Ok _ -> _ =>
      let E := fresh "E" in
      let L := fresh "L" in
      intros E L;
      first [ apply String.eqb_eq; assumption
            | apply (f_equal layout_returned) in E;
              cbn [layout_returned layout_of frame frame_as] in E;
              rewrite ?common_fourier_layout in E; congruence ]
  | |- Raise _ = Ok _ -> _ => discriminate
  end.

(** Only "days_from_epoch" is encoded to a 1-D date part. *)
Lemma date_part_named_series (N : Numpy) (C : Collaborators) (DTindex : list Z)
    (name : string) (df : DataFrame) :
  date_part_named DTindex name = Ok df -> layout_of df = IndexSeries ->
  name = "days_from_epoch"%string.
Proof.
  unfold date_part_named, create_datepart_components.
  destruct (str_in name datepart_components); repeat branch_step.
Qed.

(** [date_part] returns on a name unless it is asked to expand the 1-D
    date part into polynomial features. *)
Lemma date_part_name_ok (N : Numpy) (C : Collaborators) (DTindex : list Z)
    (name : string) (set_index : bool) (polynomial_degree : option nat)
    (holiday_country : option string) (holiday_countries_used : bool) :
  (if is_substring "_poly" name then replace "_poly" "" name else name)
  <> "days_from_epoch"%string \/
  (is_substring "_poly" name = false /\ polynomial_degree = None) ->
  exists df, date_part DTindex (SStr name) set_index polynomial_degree holiday_country
                       holiday_countries_used = Ok df.
Proof.
  intros H. cbn [date_part].
  destruct (is_substring "_poly" name).
  - destruct (date_part_named_ok N C DTindex (replace "_poly" "" name)) as (df & E).
    rewrite E. cbn [bind]. apply date_part_finish_ok. left. intros L.
    destruct H as [H | [H _]]; [| discriminate H].
    apply H, (date_part_named_series N C DTindex _ df E L).
  - destruct (date_part_named_ok N C DTindex name) as (df & E).
    rewrite E. cbn [bind]. apply date_part_finish_ok.
    destruct H as [H | [_ H]]; [left | right; exact H].
    intros L. apply H, (date_part_named_series N C DTindex _ df E L).
Qed.

(** Every name of [date_part_methods] is accepted, "simple_binarized_poly"
    through the polynomial expansion of a 2-D frame. *)
Lemma date_part_method_ok (N : Numpy) (C : Collaborators) (DTindex : list Z)
    (name : string) (set_index : bool) (polynomial_degree : option nat)
    (holiday_country : option string) (holiday_countries_used : bool) :
  In name (date_part_methods ++ ["simple_poly"%string]) ->
  exists df, date_part DTindex (SStr name) set_index polynomial_degree holiday_country
                       holiday_countries_used = Ok df.
Proof.
  intros Hin. apply date_part_name_ok. left.
  unfold date_part_methods in Hin. cbn [app In] in Hin.
  repeat (destruct Hin as [<- | Hin]; [vm_compute; discriminate |]). contradiction.
Qed.

Lemma fourier_series_shape (N : Numpy) (t : list num) (p : num) (n : nat) :
  length (fourier_series t p n) = length t /\
  Forall (fun r => length r = (2 * n)%nat) (fourier_series t p n).
Proof.
  unfold fourier_series. split; [apply length_map |].
  apply Forall_forall. intros r Hr. apply in_map_iff in Hr.
  destruct Hr as (ti & <- & _). apply fourier_series_row_length.
Qed.

Lemma fourier_df_given (N : Numpy) (DTindex : list Z) (seasonality : Q) (label : string)
    (order : nat) (t : list num) (h : Z) :
  (h = 0%Z -> fourier_df DTindex seasonality label order (Some t) (Some h)
              = Raise ZeroDivisionError) /\
  (h <> 0%Z ->
   exists df, fourier_df DTindex seasonality label order (Some t) (Some h) = Ok df /\
              ncols df = (2 * order)%nat /\ length (values df) = length t /\
              rectangular df).
Proof.
  unfold fourier_df. cbn [nis_zero Z_num]. split.
  - intros ->. reflexivity.
  - intros Hh. destruct (Qeqb (inject_Z h) 0) eqn:E.
    + apply Qeqb_true in E. exfalso. apply Hh.
      unfold Qeq in E. cbn in E. lia.
    + eexists. split; [reflexivity |].
      destruct (fourier_series_shape N t (ndiv (Fin seasonality) (Fin (inject_Z h))) order)
        as [H1 H2].
      unfold rectangular, ncols. cbn [columns values].
      rewrite length_map, length_seq. split; [reflexivity | split; [exact H1 | exact H2]].
Qed.

(** X15. [create_seasonality_feature] never raises on a name: it hands
    back a frame exactly for the names of [datepart_components] and
    [date_part_methods], and otherwise returns (does not raise) a ValueError
    object. For a number with [t] and [history_days] given it raises
    ZeroDivisionError when [history_days] is 0 and otherwise returns a
    complete frame of 20 columns with one row per entry of [t], whatever
    the index. A list is in neither list of names and gets the ValueError
    object as well. *)
Theorem create_seasonality_feature_outcomes (N : Numpy) (C : Collaborators)
    (DTindex : list Z) (t : list num) :
  (forall name history_days,
     exists r, create_seasonality_feature DTindex t (SStr name) history_days = Ok r /\
               ((exists df, r = RFrame df) <-> str_in name enumerated_names = true) /\
               (str_in name enumerated_names = false -> r = RException ValueError)) /\
  (forall seasonality, is_numeric seasonality ->
     create_seasonality_feature DTindex t seasonality (Some 0%Z) = Raise ZeroDivisionError /\
     forall h, h <> 0%Z ->
       exists df,
         create_seasonality_feature DTindex t seasonality (Some h) = Ok (RFrame df) /\
         ncols df = 20%nat /\ length (values df) = length t /\ rectangular df /\
         forall DTindex',
           create_seasonality_feature DTindex' t seasonality (Some h) = Ok (RFrame df)) /\
  (forall l history_days,
     create_seasonality_feature DTindex t (SList l) history_days
     = Ok (RException ValueError)).
Proof.
  split; [| split; [| reflexivity]].
  - intros name history_days.
    assert (Henum : str_in name enumerated_names
                    = str_in name date_part_methods || str_in name datepart_components).
    { unfold enumerated_names, str_in. apply existsb_app. }
    unfold create_seasonality_feature.
    destruct (str_in name datepart_components) eqn:Ec.
    + destruct (create_datepart_components_listed DTindex name Ec) as (df & ->).
      eexists. split; [reflexivity |]. rewrite Henum, orb_true_r.
      split; [split; [reflexivity | intros _; eexists; reflexivity] | discriminate].
    + destruct (str_in name date_part_methods) eqn:Em.
      * destruct (date_part_method_ok N C DTindex name false None None true) as (df & ->);
          [apply in_or_app; left; apply str_in_In, Em |].
        eexists. split; [reflexivity |]. rewrite Henum. cbn [orb].
        split; [split; [reflexivity | intros _; eexists; reflexivity] | discriminate].
      * eexists. split; [reflexivity |]. rewrite Henum. cbn [orb].
        split; [split; [intros (df & E); discriminate E | discriminate] | reflexivity].
  - intros seasonality Hnum.
    destruct seasonality as [s | z | q | l]; try contradiction;
      cbn [create_seasonality_feature].
    + split.
      * rewrite (proj1 (fourier_df_given N DTindex _ _ 10 t 0%Z) eq_refl). reflexivity.
      * intros h Hh.
        destruct (proj2 (fourier_df_given N DTindex (inject_Z z) (str_Z z) 10 t h) Hh)
          as (df & E & H1 & H2 & H3).
        exists df. rewrite E. split; [reflexivity |].
        split; [exact H1 | split; [exact H2 | split; [exact H3 |]]].
        intros D'. unfold fourier_df in E |- *. rewrite E. reflexivity.
    + split.
      * rewrite (proj1 (fourier_df_given N DTindex _ _ 10 t 0%Z) eq_refl). reflexivity.
      * intros h Hh.
        destruct (proj2 (fourier_df_given N DTindex q (float_repr q) 10 t h) Hh)
          as (df & E & H1 & H2 & H3).
        exists df. rewrite E. split; [reflexivity |].
        split; [exact H1 | split; [exact H2 | split; [exact H3 |]]].
        intros D'. unfold fourier_df in E |- *. rewrite E. reflexivity.
Qed.

(* ---------------------------------------------------------------- *)
(** ** The independent engine on the "month" date part *)

Lemma Forall2_map_pointwise {A : Type} (g1 g2 : A -> num) (cats : list A) :
  Forall2 num_eqv (map g1 cats) (map g2 cats) <->
  forall c, In c cats -> num_eqv (g1 c) (g2 c).
Proof.
  induction cats as [| c cats IH]; cbn [map].
  - split; [intros _ c [] | constructor].
  - split.
    + intros H. inversion H as [| ? ? ? ? Hc Hrest]; subst.
      intros x [<- | Hx]; [exact Hc | apply IH; assumption].
    + intros H. constructor; [apply H; left; reflexivity |].
      apply IH. intros x Hx. apply H. right. exact Hx.
Qed.

Lemma dummies_rows_same (cats : list Z) (v1 v2 : Z) :
  In v2 cats ->
  (Forall2 num_eqv (map (fun c => if (v1 =? c)%Z then Fin 1 else Fin 0) cats)
                   (map (fun c => if (v2 =? c)%Z then Fin 1 else Fin 0) cats)
   <-> v1 = v2).
Proof.
  intros Hin. rewrite Forall2_map_pointwise. split.
  - intros H. specialize (H v2 Hin). rewrite Z.eqb_refl in H.
    destruct (Z.eqb_spec v1 v2) as [E | _]; [exact E |]. cbn in H. discriminate H.
  - intros -> c _. apply num_eqv_refl.
Qed.

Lemma nth_of_nth_error {A : Type} (l : list A) (i : nat) (x d : A) :
  nth_error l i = Some x -> nth i l d = x /\ (i < length l)%nat.
Proof.
  intros H. split; [apply nth_error_nth, H |].
  apply nth_error_Some. rewrite H. discriminate.
Qed.

Lemma dummies_frame_comparable (prefix : string) (a b : Z) (f : Z -> Z)
    (D D' : list Z) :
  (a < b)%Z ->
  comparable (frame (get_dummies prefix (range a b) f) D)
             (frame (get_dummies prefix (range a b) f) D').
Proof.
  intros Hab.
  assert (Hrect : forall X, rectangular (frame (get_dummies prefix (range a b) f) X) /\
                            finite_frame (frame (get_dummies prefix (range a b) f) X)).
  { intros X. unfold rectangular, finite_frame, ncols. cbn [frame frame_as values columns].
    split; apply Forall_forall; intros r Hr; apply in_map_iff in Hr;
      destruct Hr as (ts & <- & _).
    - rewrite !length_map. reflexivity.
    - rewrite get_dummies_row. apply Forall_forall. intros x Hx.
      apply in_map_iff in Hx. destruct Hx as (c & <- & _).
      destruct (f ts =? c)%Z; exact I. }
  unfold comparable, aligned. repeat split; try apply Hrect.
  unfold ncols. cbn [frame frame_as columns]. unfold get_dummies, range.
  rewrite !length_map, length_seq. lia.
Qed.

(** X16. The independent engine on the scheme "month" with the metric mae
    and k = 1: a future timestamp whose month is the month of history row
    [h], and of no other history row, is matched to [h], under the full
    sort and under the partial selection alike. *)
Theorem independent_match_month (N : Numpy) (HS : NumpySpec N) (C : Collaborators)
    (DTindex DTindex_future : list Z) (full_sort : bool) (h j : nat) (tsh tsj : Z) :
  nth_error DTindex h = Some tsh -> nth_error DTindex_future j = Some tsj ->
  DT.month tsh = DT.month tsj ->
  (forall h' ts', nth_error DTindex h' = Some ts' -> h' <> h ->
                  DT.month ts' <> DT.month tsj) ->
  exists test scores,
    seasonal_independent_match DTindex DTindex_future 1 (SStr "month") "mae"
                               full_sort None = Ok (test, scores) /\
    nth j test [] = [Z.of_nat h].
Proof.
  intros Hh Hj Hsame Hother.
  set (cols := get_dummies "month" (range 1 13) DT.month).
  assert (Hcmp : comparable (frame cols DTindex) (frame cols DTindex_future))
    by (apply dummies_frame_comparable; lia).
  assert (Hrow : forall X i ts, nth_error X i = Some ts ->
            nth i (values (frame cols X)) []
            = map (fun c => if (DT.month ts =? c)%Z then Fin 1 else Fin 0) (range 1 13) /\
            (i < length (values (frame cols X)))%nat).
  { intros X i ts Hi. apply nth_of_nth_error.
    rewrite (frame_row cols X i ts Hi). unfold cols. rewrite get_dummies_row. reflexivity. }
  assert (Hin : In (DT.month tsj) (range 1 13)).
  { apply range_In. destruct (calendar_ranges tsj) as (Hm & _). lia. }
  destruct (Hrow _ _ _ Hh) as [Eh Lh]. destruct (Hrow _ _ _ Hj) as [Ej Lj].
  destruct (exact_match_selected N HS (frame cols DTindex) (frame cols DTindex_future)
              "mae" Mae full_sort h j Hcmp eq_refl eq_refl Lh Lj)
    as (test & scores & E & Hsel & _).
  - rewrite Eh, Ej. apply dummies_rows_same; assumption.
  - intros h' Hh' Hne. rewrite frame_rows in Hh'.
    destruct (nth_error DTindex h') as [ts' |] eqn:E';
      [| apply nth_error_None in E'; lia].
    destruct (Hrow _ _ _ E') as [E1 _]. rewrite E1, Ej.
    rewrite dummies_rows_same by exact Hin. apply (Hother h' ts' E' Hne).
  - exists test, scores. split; [| exact Hsel].
    rewrite frame_rows in E. unfold seasonal_independent_match.
    change (date_part DTindex (SStr "month") true None None true)
      with (Ok (frame cols DTindex)).
    change (date_part DTindex_future (SStr "month") true None None true)
      with (Ok (frame cols DTindex_future)).
    cbn [bind]. exact E.
Qed.

Lemma independent_match_month_witness :
  let DTindex := [DT.timestamp 2024 1 15; DT.timestamp 2024 2 15; DT.timestamp 2024 3 15] in
  let DTindex_future := [DT.timestamp 2025 2 1] in
  NumpySpec numpy_stable /\
  nth_error DTindex 1 = Some (DT.timestamp 2024 2 15) /\
  nth_error DTindex_future 0 = Some (DT.timestamp 2025 2 1) /\
  DT.month (DT.timestamp 2024 2 15) = DT.month (DT.timestamp 2025 2 1) /\
  (forall h' ts', nth_error DTindex h' = Some ts' -> h' <> 1%nat ->
                  DT.month ts' <> DT.month (DT.timestamp 2025 2 1)) /\
  exists test scores,
    seasonal_independent_match (H := numpy_stable) (H0 := no_collaborators)
      DTindex DTindex_future 1 (SStr "month") "mae" false None = Ok (test, scores) /\
    nth 0 test [] = [Z.of_nat 1].
Proof.
  intros DTindex DTindex_future.
  assert (Hm : DT.month (DT.timestamp 2024 2 15) = DT.month (DT.timestamp 2025 2 1))
    by (vm_compute; reflexivity).
  assert (Ho : forall h' ts', nth_error DTindex h' = Some ts' -> h' <> 1%nat ->
                 DT.month ts' <> DT.month (DT.timestamp 2025 2 1)).
  { intros h' ts' E Hne. destruct h' as [| [| [| h']]]; try congruence;
      cbn [nth_error DTindex] in E; try (destruct h'; discriminate E);
      injection E as <-; vm_compute; discriminate. }
  split; [exact numpy_stable_spec |].
  split; [reflexivity | split; [reflexivity | split; [exact Hm | split; [exact Ho |]]]].
  apply (independent_match_month numpy_stable numpy_stable_spec no_collaborators
           DTindex DTindex_future false 1 0 _ _ eq_refl eq_refl Hm Ho).
Defined.

(** ** The default scheme of the independent engine *)

Lemma frame_comparable (cols : list feature) (D D' : list Z) :
  cols <> [] -> Forall (fun c => forall ts, is_fin (snd c ts)) cols ->
  comparable (frame cols D) (frame cols D').
Proof.
  intros Hne Hfin.
  assert (Hrect : forall X, rectangular (frame cols X) /\ finite_frame (frame cols X)).
  { intros X. unfold rectangular, finite_frame, ncols. cbn [frame frame_as values columns].
    split; apply Forall_forall; intros r Hr; apply in_map_iff in Hr;
      destruct Hr as (ts & <- & _).
    - rewrite !length_map. reflexivity.
    - apply Forall_map. eapply Forall_impl; [| exact Hfin]. intros c Hc. apply Hc. }
  unfold comparable, aligned. repeat split; try apply Hrect.
  unfold ncols. cbn [frame frame_as columns]. rewrite length_map.
  destruct cols; [congruence | cbn [length]; lia].
Qed.

Lemma simple_binarized_comparable (D D' : list Z) :
  comparable (frame simple_binarized_cols D) (frame simple_binarized_cols D').
Proof.
  apply frame_comparable; [discriminate |].
  unfold simple_binarized_cols, month_dummies, weekday_dummies, epoch_julian.
  repeat (apply Forall_app; split).
  - repeat constructor; intros ts; cbn [snd int_col flag_col float_col Z_num];
      try exact I. destruct (weekend ts); exact I.
  - apply Forall_forall. intros c Hc. unfold get_dummies in Hc.
    apply in_map_iff in Hc. destruct Hc as (v & <- & _). intros ts. cbn [snd].
    destruct (DT.month ts =? v)%Z; exact I.
  - apply Forall_forall. intros c Hc. unfold get_dummies in Hc.
    apply in_map_iff in Hc. destruct Hc as (v & <- & _). intros ts. cbn [snd].
    destruct (DT.weekday ts =? v)%Z; exact I.
Qed.

(** The scores of the independent engine under its default scheme. *)
Lemma default_scheme_scores (N : Numpy) (C : Collaborators) (D D' : list Z) (k : nat)
    (name : string) (full_sort : bool) (test : list (list Z)) (scores : list (list num)) :
  seasonal_independent_match D D' k (SStr "simple_binarized") name full_sort None
  = Ok (test, scores) ->
  exists m,
    metric_of_name name = Some m /\
    scores = pairwise_scores (metric_fun m) (ncols (frame simple_binarized_cols D))
                             (values (frame simple_binarized_cols D))
                             (values (frame simple_binarized_cols D')).
Proof.
  unfold seasonal_independent_match.
  change (date_part D (SStr "simple_binarized") true None None true)
    with (Ok (frame simple_binarized_cols D)).
  change (date_part D' (SStr "simple_binarized") true None None true)
    with (Ok (frame simple_binarized_cols D')).
  cbn [bind].
  destruct (simple_binarized_comparable D D') as (Hal & _).
  rewrite (independent_match_aligned N _ _ (length D) k name full_sort Hal).
  destruct (metric_of_name name) as [m |]; [| discriminate].
  intros H. apply bind_ok in H. destruct H as (min_idx_T & _ & H).
  injection H as _ <-. exists m. split; reflexivity.
Qed.

(** X1. Under the default scheme "simple_binarized", whose array numpy
    holds as float64, the independent engine scores a history row against a
    future row as it scores them with the two indexes swapped, for every
    metric: the score matrix of (future, history) is the transpose of the
    one of (history, future). *)
Theorem default_scheme_scores_transposed (N : Numpy) (C : Collaborators)
    (DTindex DTindex_future : list Z) (k k' : nat) (distance_metric : string)
    (full_sort full_sort' : bool) (test test' : list (list Z))
    (scores scores' : list (list num)) :
  seasonal_independent_match DTindex DTindex_future k (SStr "simple_binarized")
                             distance_metric full_sort None = Ok (test, scores) ->
  seasonal_independent_match DTindex_future DTindex k' (SStr "simple_binarized")
                             distance_metric full_sort' None = Ok (test', scores') ->
  forall h j, (h < length DTindex)%nat -> (j < length DTindex_future)%nat ->
    nth j (nth h scores []) NaN = nth h (nth j scores' []) NaN.
Proof.
  intros H H' h j Hh Hj.
  destruct (default_scheme_scores N C _ _ _ _ _ _ _ H) as (m & Hm & ->).
  destruct (default_scheme_scores N C _ _ _ _ _ _ _ H') as (m' & Hm' & ->).
  assert (m' = m) by congruence. subst m'.
  apply (pairwise_scores_transposed N m); rewrite frame_rows; assumption.
Qed.

Lemma default_scheme_scores_transposed_witness :
  let DTindex := [DT.timestamp 2024 1 15; DT.timestamp 2024 2 15] in
  let DTindex_future := [DT.timestamp 2025 2 1] in
  exists test scores test' scores',
    seasonal_independent_match (H := numpy_stable) (H0 := no_collaborators)
      DTindex DTindex_future 1 (SStr "simple_binarized") "mae" true None
    = Ok (test, scores) /\
    seasonal_independent_match (H := numpy_stable) (H0 := no_collaborators)
      DTindex_future DTindex 1 (SStr "simple_binarized") "mae" true None
    = Ok (test', scores') /\
    forall h j, (h < length DTindex)%nat -> (j < length DTindex_future)%nat ->
      nth j (nth h scores []) NaN = nth h (nth j scores' []) NaN.
Proof.
  intros DTindex DTindex_future.
  destruct (seasonal_independent_match (H := numpy_stable) (H0 := no_collaborators)
              DTindex DTindex_future 1 (SStr "simple_binarized") "mae" true None)
    as [[test scores] | e] eqn:E; [| vm_compute in E; discriminate E].
  destruct (seasonal_independent_match (H := numpy_stable) (H0 := no_collaborators)
              DTindex_future DTindex 1 (SStr "simple_binarized") "mae" true None)
    as [[test' scores'] | e] eqn:E'; [| vm_compute in E'; discriminate E'].
  exists test, scores, test', scores'. split; [reflexivity | split; [reflexivity |]].
  apply (default_scheme_scores_transposed numpy_stable no_collaborators DTindex
           DTindex_future 1 1 "mae" true true test test' scores scores' E E').
Defined.

(** X2. Under the defaults of the independent engine, the scheme
    "simple_binarized" (a float64 array) and the metric canberra, every score
    lies between 0 and 1: each term |x - y| / (|x| + |y|) does, the zero
    divisor of two zero features being replaced by 1. *)
Theorem default_canberra_unit_interval (N : Numpy) (C : Collaborators)
    (DTindex DTindex_future : list Z) (k : nat) (full_sort : bool)
    (test : list (list Z)) (scores : list (list num)) :
  seasonal_independent_match DTindex DTindex_future k (SStr "simple_binarized")
                             "canberra" full_sort None = Ok (test, scores) ->
  forall h j, (h < length DTindex)%nat -> (j < length DTindex_future)%nat ->
    in_unit_interval (nth j (nth h scores []) NaN).
Proof.
  intros H h j Hh Hj.
  destruct (default_scheme_scores N C _ _ _ _ _ _ _ H) as (m & Hm & ->).
  injection Hm as <-.
  assert (Hcmp := simple_binarized_comparable DTindex DTindex_future).
  rewrite <- (frame_rows simple_binarized_cols) in Hh, Hj.
  destruct (rows_reducible _ _ h j Hcmp Hh Hj) as (Hred & La & Lb).
  unfold pairwise_scores.
  rewrite (nth_map_in _ _ h [] []) by exact Hh.
  rewrite (nth_map_in _ _ j [] NaN) by exact Hj.
  rewrite !stretch_same by assumption.
  apply canberra_unit, Hred.
Qed.

Lemma default_canberra_unit_interval_witness :
  let DTindex := [DT.timestamp 2024 1 15; DT.timestamp 2024 2 15] in
  let DTindex_future := [DT.timestamp 2025 2 1] in
  exists test scores,
    seasonal_independent_match (H := numpy_stable) (H0 := no_collaborators)
      DTindex DTindex_future 1 (SStr "simple_binarized") "canberra" false None
    = Ok (test, scores) /\
    forall h j, (h < length DTindex)%nat -> (j < length DTindex_future)%nat ->
      in_unit_interval (nth j (nth h scores []) NaN).
Proof.
  intros DTindex DTindex_future.
  destruct (seasonal_independent_match (H := numpy_stable) (H0 := no_collaborators)
              DTindex DTindex_future 1 (SStr "simple_binarized") "canberra" false None)
    as [[test scores] | e] eqn:E; [| vm_compute in E; discriminate E].
  exists test, scores. split; [reflexivity |].
  apply (default_canberra_unit_interval numpy_stable no_collaborators DTindex
           DTindex_future 1 false test scores E).
Defined.

(* ================================================================== *)
(** * The random pickers *)
(* ================================================================== *)

Lemma choose_in {A : Type} (population : list A) (default : A) (draw : nat) :
  population <> [] -> In (choose population default draw) population.
Proof.
  intros Hne. unfold choose. apply nth_In.
  apply Nat.mod_upper_bound. destruct population; [congruence | discriminate].
Qed.

Lemma seasonal_lag_drawn (d : nat) :
  choose seasonal_lags 0%Z d = (-1)%Z \/
  (1 <= choose seasonal_lags 0%Z d <= 1440)%Z.
Proof.
  assert (H : In (choose seasonal_lags 0%Z d) seasonal_lags)
    by (apply choose_in; discriminate).
  revert H. generalize (choose seasonal_lags 0%Z d). intros lag H.
  cbn in H. repeat (destruct H as [<- | H]; [lia |]). destruct H.
Qed.

Lemma randint_range (a b : Z) (d : nat) : (a <= b)%Z -> (a <= randint a b d <= b)%Z.
Proof.
  intros Hab. unfold randint.
  assert (H := Z.mod_pos_bound (Z.of_nat d) (b - a + 1) ltac:(lia)). lia.
Qed.

Lemma while_over_result (call : list nat -> option (Z * list nat)) (Q : Z -> Prop)
    (n : nat) (lag0 : Z) (draws : list nat) (lag : Z) (rest : list nat) :
  (forall ds l r, call ds = Some (l, r) -> Q l) ->
  while_over call n lag0 draws = Some (lag, rest) ->
  (lag <= 30)%Z /\ (lag = lag0 \/ Q lag).
Proof.
  intros Hcall. revert lag0 draws. induction n as [| n IH]; intros lag0 draws H;
    cbn [while_over] in H; destruct (Z.ltb_spec 30 lag0) as [Hgt | Hle].
  - discriminate.
  - injection H as <- <-. split; [exact Hle | left; reflexivity].
  - destruct (call draws) as [[l r] |] eqn:E; [| discriminate].
    destruct (IH l r H) as [H30 [-> | HQ]]; (split; [exact H30 | right]).
    + apply (Hcall draws l r E).
    + exact HQ.
  - injection H as <- <-. split; [exact Hle | left; reflexivity].
Qed.

Lemma seasonal_int_within (fuel : nat) (include_one small very_small : bool)
    (draws : list nat) (lag : Z) (rest : list nat) :
  seasonal_int fuel include_one small very_small draws = Some (lag, rest) ->
  lag_within include_one small very_small lag.
Proof.
  revert include_one small very_small draws lag rest.
  induction fuel as [| fuel IH]; intros io sm vs draws lag rest H; [discriminate |].
  cbn [seasonal_int] in H. destruct draws as [| d draws]; [discriminate |].
  cbv zeta in H.
  (* the first draw, and the random integer that replaces -1 *)
  assert (Hfirst : forall lag1 ds,
            (if (choose seasonal_lags 0%Z d =? -1)%Z
             then match draws with
                  | [] => None
                  | d' :: draws' => Some (randint 2 100 d', draws')
                  end
             else Some (choose seasonal_lags 0%Z d, draws)) = Some (lag1, ds) ->
            (1 <= lag1 <= 1440)%Z).
  { intros lag1 ds E. destruct (Z.eqb_spec (choose seasonal_lags 0%Z d) (-1)) as [Em | Hne].
    - destruct draws as [| d' draws']; [discriminate |].
      assert (E' : lag1 = randint 2 100 d') by congruence.
      assert (Hr := randint_range 2 100 d' ltac:(lia)). rewrite E'. clear - Hr. lia.
    - assert (E' : lag1 = choose seasonal_lags 0%Z d) by congruence. rewrite E'.
      destruct (seasonal_lag_drawn d); [contradiction | assumption]. }
  destruct (if (choose seasonal_lags 0%Z d =? -1)%Z then _ else _) as [[lag1 ds1] |] eqn:E1;
    [| discriminate].
  specialize (Hfirst lag1 ds1 eq_refl).
  (* the draw of 1 that is drawn again *)
  assert (Hsecond : forall lag2 ds,
            (if negb io && (lag1 =? 1)%Z then seasonal_int fuel io sm vs ds1
             else Some (lag1, ds1)) = Some (lag2, ds) ->
            (1 <= lag2 <= 1440)%Z /\ (io = false -> (2 <= lag2)%Z)).
  { intros lag2 ds E. destruct io; cbn [negb andb] in E.
    - injection E as <- <-. split; [exact Hfirst | discriminate].
    - destruct (Z.eqb_spec lag1 1) as [-> | Hne].
      + destruct (IH _ _ _ _ _ _ E) as (H1 & H2 & _). split; [exact H1 | exact H2].
      + injection E as <- <-. split; [exact Hfirst | intros _; lia]. }
  destruct (if negb io && (lag1 =? 1)%Z then _ else _) as [[lag2 ds2] |] eqn:E2;
    [| discriminate].
  destruct (Hsecond lag2 ds2 eq_refl) as [Hr2 Hone].
  set (lag3 := if sm then (if (lag2 <? 364)%Z then lag2 else 364%Z) else lag2) in H.
  assert (H3 : lag_within io sm false lag3).
  { unfold lag_within, lag3. destruct sm; [destruct (Z.ltb_spec lag2 364) |];
      repeat split; try discriminate; try lia; intros Hio; specialize (Hone Hio); lia. }
  destruct vs.
  - apply (while_over_result _ (lag_within io false true)) in H;
      [| intros ds l r E; apply (IH _ _ _ _ _ _ E)].
    destruct H as [H30 [-> | (Ha & Hb & _ & _)]].
    + destruct H3 as (Ha & Hb & Hc & _). unfold lag_within. repeat split; try lia; auto.
    + unfold lag_within. repeat split; try lia; auto.
  - injection H as <- <-. exact H3.
Qed.

Lemma seasonal_int_returns (fuel : nat) (small : bool) (d d' : nat) (draws : list nat) :
  exists lag rest,
    seasonal_int (S fuel) true small false (d :: d' :: draws) = Some (lag, rest).
Proof.
  cbn [seasonal_int]. cbv zeta.
  destruct (choose seasonal_lags 0%Z d =? -1)%Z; cbn [negb andb]; eexists _, _; reflexivity.
Qed.

(** X17. Whatever the random draws, a value that [seasonal_int] returns
    lies in 1..1440, is not 1 unless [include_one], is at most 364 under
    [small] and at most 30 under [very_small]; these bounds are attained (the
    docstring's "below 364" and "below 30" include 364 and 30). With
    [include_one] and without [very_small] the call returns after at most two
    draws. *)
Theorem seasonal_int_bounds :
  (forall fuel include_one small very_small draws lag rest,
     seasonal_int fuel include_one small very_small draws = Some (lag, rest) ->
     lag_within include_one small very_small lag) /\
  (forall fuel small d d' draws,
     exists lag rest,
       seasonal_int (S fuel) true small false (d :: d' :: draws) = Some (lag, rest)) /\
  seasonal_int 1 true true false [12%nat] = Some (364%Z, []) /\
  seasonal_int 1 false false true [0%nat; 28%nat] = Some (30%Z, []) /\
  seasonal_int 1 true false false [13%nat] = Some (1440%Z, []).
Proof.
  split; [exact seasonal_int_within | split; [exact seasonal_int_returns |]].
  repeat split; reflexivity.
Qed.

Lemma fourier_df_spanning (N : Numpy) (DTindex : list Z) (seasonality : Q)
    (label : string) :
  DT.days (DT.max DTindex - DT.min DTindex) <> 0%Z ->
  exists df, fourier_df DTindex seasonality label 6 None None = Ok df /\
             layout_of df = Table.
Proof.
  intros Hspan. unfold fourier_df.
  destruct DTindex as [| ts D]; [exfalso; apply Hspan; reflexivity |].
  cbn [nis_zero Z_num].
  destruct (Qeqb (inject_Z (DT.days (DT.max (ts :: D) - DT.min (ts :: D)))) 0) eqn:E.
  - apply Qeqb_true in E. exfalso. apply Hspan. unfold Qeq, inject_Z in E.
    cbn [Qnum Qden] in E. clear - E. lia.
  - eexists. split; reflexivity.
Qed.

(** A name without "_poly" or a number, as an item of a list. *)
Lemma item_accepted (N : Numpy) (C : Collaborators) (DTindex : list Z) (s : scheme) :
  DT.days (DT.max DTindex - DT.min DTindex) <> 0%Z ->
  match s with
  | SStr name => is_substring "_poly" name = false \/
                 In name (date_part_methods ++ ["simple_poly"%string])
  | SInt _ | SFloat _ => True
  | SList _ => False
  end ->
  exists df, date_part DTindex s true None None true = Ok df.
Proof.
  intros Hspan Hs. destruct s as [name | z | q | l]; [| | | contradiction].
  - destruct Hs as [Hs | Hs]; [| apply date_part_method_ok, Hs].
    apply date_part_name_ok. right. split; [exact Hs | reflexivity].
  - cbn [date_part].
    destruct (fourier_df_spanning N DTindex (inject_Z z) (str_Z z) Hspan) as (df & -> & _).
    cbn [bind]. rewrite date_part_finish_default. eexists. reflexivity.
  - cbn [date_part].
    destruct (fourier_df_spanning N DTindex q (float_repr q) Hspan) as (df & -> & _).
    cbn [bind]. rewrite date_part_finish_default. eexists. reflexivity.
Qed.

Lemma list_scheme_accepted (N : Numpy) (C : Collaborators) (DTindex : list Z)
    (l : list scheme) (set_index : bool) (polynomial_degree : option nat)
    (holiday_country : option string) (holiday_countries_used : bool) :
  l <> [] ->
  Forall (fun s => exists df, date_part DTindex s true None None true = Ok df) l ->
  exists df, date_part DTindex (SList l) set_index polynomial_degree holiday_country
                       holiday_countries_used = Ok df.
Proof.
  intros Hne Hall. cbn [date_part].
  assert (Heach : exists dfs,
            (fix each (l0 : list scheme) : result (list DataFrame) :=
               match l0 with
               | [] => Ok []
               | seas :: l' =>
                   df <- date_part DTindex seas true None None true ;;
                   dfs <- each l' ;; Ok (df :: dfs)
               end) l = Ok dfs /\ length dfs = length l).
  { clear Hne. induction Hall as [| s l (df & Hs) Hl (dfs & IH & Hlen)].
    - exists []. split; reflexivity.
    - exists (df :: dfs). rewrite Hs. cbn [bind]. rewrite IH. cbn [bind length].
      split; [reflexivity | congruence]. }
  destruct Heach as (dfs & -> & Hlen). cbn [bind].
  destruct dfs as [| d dfs]; [destruct l; [congruence | discriminate] |].
  cbn [concat_columns bind]. apply date_part_finish_ok. left.
  rewrite drop_duplicated_columns_mask. discriminate.
Qed.

Lemma choose_forall {A : Type} (P : A -> Prop) (population : list A) (default : A)
    (draw : nat) :
  population <> [] -> Forall P population -> P (choose population default draw).
Proof.
  intros Hne Hall. rewrite Forall_forall in Hall. apply Hall, choose_in, Hne.
Qed.

(** What [random_datepart] draws: a listed option, a single method in a
    list, or two components in a list. *)
Lemma random_datepart_cases (draws : list nat) (s : scheme) (rest : list nat) :
  random_datepart draws = Some (s, rest) ->
  (In s datepart_options /\ is_other s = false) \/
  (exists m, In m date_part_methods /\ s = SList [SStr m]) \/
  (exists c1 c2, In c1 comp_opts /\ In c2 comp_opts /\ s = SList [c1; c2]).
Proof.
  unfold random_datepart. destruct draws as [| d draws]; [discriminate |]. cbv zeta.
  destruct (is_other (choose datepart_options (SStr "other") d)) eqn:Eo.
  - destruct draws as [| d1 draws]; [discriminate |].
    destruct (choose [true; false] true d1).
    + destruct draws as [| d2 draws]; [discriminate |]. intros H. injection H as <- <-.
      right. left. eexists. split; [| reflexivity]. apply choose_in. discriminate.
    + destruct draws as [| d2 [| d3 draws]]; try discriminate.
      intros H. injection H as <- <-.
      right. right. do 2 eexists.
      split; [apply choose_in; discriminate | split; [apply choose_in; discriminate |]].
      reflexivity.
  - intros H. injection H as <- <-. left. split; [| exact Eo].
    apply choose_in. discriminate.
Qed.

Lemma random_datepart_drawable (draws : list nat) (s : scheme) (rest : list nat) :
  random_datepart draws = Some (s, rest) -> drawable s.
Proof.
  intros H. destruct (random_datepart_cases draws s rest H)
    as [[Hin Ho] | [(m & _ & ->) | (c1 & c2 & H1 & H2 & ->)]].
  - split; [exact Ho |]. unfold datepart_options in Hin. cbn [In] in Hin.
    repeat (destruct Hin as [<- | Hin];
            [first [ left; exact I
                   | right; eexists; split; [reflexivity |];
                     split; [discriminate | repeat constructor] ] |]).
    contradiction.
  - split; [reflexivity |]. right. eexists. split; [reflexivity |].
    split; [discriminate | repeat constructor].
  - assert (Hflat : forall c, In c comp_opts -> flat_scheme c).
    { intros c Hc. unfold comp_opts, datepart_components in Hc. cbn [map app In] in Hc.
      repeat (destruct Hc as [<- | Hc]; [exact I |]). contradiction. }
    split; [reflexivity |]. right. eexists. split; [reflexivity |].
    split; [discriminate |]. repeat constructor; apply Hflat; assumption.
Qed.

(** X18. Whatever the random draws, [random_datepart] returns a name or a
    number, or a non-empty list of names and numbers, never the placeholder
    "other"; and [date_part] accepts what it returns on every index that
    spans at least one day. *)
Theorem random_datepart_accepted (N : Numpy) (C : Collaborators)
    (draws : list nat) (s : scheme) (rest : list nat) :
  random_datepart draws = Some (s, rest) ->
  drawable s /\
  forall DTindex set_index polynomial_degree holiday_country holiday_countries_used,
    DT.days (DT.max DTindex - DT.min DTindex) <> 0%Z ->
    exists df, date_part DTindex s set_index polynomial_degree holiday_country
                         holiday_countries_used = Ok df.
Proof.
  intros H. split; [exact (random_datepart_drawable draws s rest H) |].
  intros DTindex set_index polynomial_degree holiday_country holiday_countries_used Hspan.
  assert (Hitem := item_accepted N C DTindex).
  destruct (random_datepart_cases draws s rest H)
    as [[Hin Ho] | [(m & Hm & ->) | (c1 & c2 & H1 & H2 & ->)]].
  - unfold datepart_options in Hin. cbn [In] in Hin.
    repeat (destruct Hin as [<- | Hin];
            [first [ apply date_part_method_ok; cbn; tauto
                   | apply list_scheme_accepted; [discriminate |];
                     repeat constructor; apply Hitem; first [exact Hspan | exact I
                       | left; reflexivity | right; cbn; tauto]
                   | discriminate Ho ] |]).
    contradiction.
  - apply list_scheme_accepted; [discriminate |]. repeat constructor.
    apply Hitem; [exact Hspan |]. right. apply in_or_app. left. exact Hm.
  - assert (Hcomp : forall c, In c comp_opts ->
              exists df, date_part DTindex c true None None true = Ok df).
    { intros c Hc. apply Hitem; [exact Hspan |].
      unfold comp_opts, datepart_components in Hc. cbn [map app In] in Hc.
      repeat (destruct Hc as [<- | Hc]; [first [exact I | left; reflexivity] |]).
      contradiction. }
    apply list_scheme_accepted; [discriminate |]. repeat constructor; apply Hcomp; assumption.
Qed.

Lemma random_datepart_accepted_witness :
  random_datepart [12%nat; 1%nat; 0%nat; 17%nat]
  = Some (SList [SStr "dayofweek"; SFloat (36525 # 100)], []) /\
  drawable (SList [SStr "dayofweek"; SFloat (36525 # 100)]) /\
  forall DTindex set_index polynomial_degree holiday_country holiday_countries_used,
    DT.days (DT.max DTindex - DT.min DTindex) <> 0%Z ->
    exists df, date_part (H := numpy_stable) (H0 := no_collaborators) DTindex
                         (SList [SStr "dayofweek"; SFloat (36525 # 100)])
                         set_index polynomial_degree holiday_country
                         holiday_countries_used = Ok df.
Proof.
  assert (H : random_datepart [12%nat; 1%nat; 0%nat; 17%nat]
              = Some (SList [SStr "dayofweek"; SFloat (36525 # 100)], []))
    by reflexivity.
  split; [exact H |].
  apply (random_datepart_accepted numpy_stable no_collaborators _ _ _ H).
Defined.

(* ================================================================== *)
(** * Forecast index and constraints *)
(* ================================================================== *)

Lemma pandas_daily_spec : Base.PandasSpec Base.pandas_daily.
Proof.
  constructor. intros start periods Hp. cbn [Base.date_range Base.pandas_daily].
  rewrite String.eqb_refl. cbn [andb].
  destruct (0 <=? periods)%Z eqn:E; [reflexivity | apply Z.leb_gt in E; lia].
Qed.

Lemma tl_date_range (start : Z) (n : nat) :
  tl (DT.date_range start (S n))
  = map (fun i => (start + Z.of_nat (S i) * DT.ns_per_day)%Z) (seq 0 n).
Proof.
  unfold DT.date_range. cbn [seq map tl]. rewrite <- seq_shift, map_map. reflexivity.
Qed.

Lemma create_forecast_index_daily (P : Base.Pandas) (PS : Base.PandasSpec P)
    (forecast_length train_last_date : Z) (last_date : option Z) :
  (0 <= forecast_length)%Z ->
  Base.create_forecast_index "D" forecast_length train_last_date last_date
  = Base.Return
      (map (fun i => ((match last_date with None => train_last_date | Some d => d end)
                      + Z.of_nat (S i) * DT.ns_per_day)%Z)
           (seq 0 (Z.to_nat forecast_length))).
Proof.
  intros Hn. unfold Base.create_forecast_index. cbn [String.eqb Ascii.eqb Bool.eqb].
  rewrite Base.date_range_daily by lia. cbn [Base.and_then].
  replace (Z.to_nat (forecast_length + 1)) with (S (Z.to_nat forecast_length)) by lia.
  rewrite tl_date_range. reflexivity.
Qed.

(** X19. The forecast index of a model object. Before [fit_data] the
    call raises AttributeError, whatever the frequency (the ValueError that
    advises to run [basic_profile] first is not what a fresh object gives).
    [fit_data] raises ValueError exactly on a training frame with no row or
    no column. After [fit_data] on a daily model the index holds the
    [forecast_length] days that follow the last training date, that date
    excluded. *)
Theorem forecast_index_after_fit (P : Base.Pandas) (PS : Base.PandasSpec P)
    (name : string) (df : Base.Training) (future_regressor : option DataFrame)
    (forecast_length : Z) :
  (0 <= forecast_length)%Z ->
  (forall frequency last_date,
     Base.self_create_forecast_index (Base.init name frequency) forecast_length last_date
     = Base.Throw Base.AttributeError) /\
  (Base.index df = [] \/ ncols (Base.data df) = 0%nat ->
   forall self, Base.fit_data self df future_regressor = Base.Throw Base.ValueError) /\
  (Base.index df <> [] -> ncols (Base.data df) <> 0%nat ->
   exists self,
     Base.fit_data (Base.init name "D") df future_regressor = Base.Return self /\
     Base.self_create_forecast_index self forecast_length None
     = Base.Return (map (fun i => (last (Base.index df) 0 + Z.of_nat (S i) * DT.ns_per_day)%Z)
                        (seq 0 (Z.to_nat forecast_length)))).
Proof.
  intros Hn. split; [reflexivity |]. split.
  - intros Hempty self. unfold Base.fit_data, Base.basic_profile. cbn [fst snd].
    destruct Hempty as [E | E]; rewrite E; cbn [length Nat.eqb orb];
      [| rewrite orb_true_r]; reflexivity.
  - intros Hrows Hcols. unfold Base.fit_data, Base.basic_profile. cbn [fst snd].
    destruct (Base.index df) as [| ts idx] eqn:Ei; [congruence |].
    destruct (ncols (Base.data df)) as [| c] eqn:Ec; [congruence |].
    cbn [length Nat.eqb orb Base.and_then].
    eexists. split; [reflexivity |].
    destruct future_regressor;
      unfold Base.self_create_forecast_index;
      cbn [Base.train_last_date Base.frequency Base.init String.eqb Ascii.eqb Bool.eqb];
      apply (create_forecast_index_daily P PS forecast_length _ None Hn).
Qed.

Lemma forecast_index_after_fit_witness :
  let df := {| Base.index := DT.date_range (DT.timestamp 2024 1 1) 3;
               Base.data := {| columns := ["a"%string];
                               values := [[Fin 1]; [Fin 2]; [Fin 3]];
                               layout_of := Table |} |} in
  (0 <= 2)%Z /\
  (forall frequency last_date,
     Base.self_create_forecast_index (H := Base.pandas_daily) (Base.init "m" frequency)
                                     2 last_date
     = Base.Throw Base.AttributeError) /\
  (Base.index df = [] \/ ncols (Base.data df) = 0%nat ->
   forall self, Base.fit_data (H := Base.pandas_daily) self df None
                = Base.Throw Base.ValueError) /\
  (Base.index df <> [] -> ncols (Base.data df) <> 0%nat ->
   exists self,
     Base.fit_data (H := Base.pandas_daily) (Base.init "m" "D") df None = Base.Return self /\
     Base.self_create_forecast_index (H := Base.pandas_daily) self 2 None
     = Base.Return (map (fun i => (last (Base.index df) 0 + Z.of_nat (S i) * DT.ns_per_day)%Z)
                        (seq 0 (Z.to_nat 2)))).
Proof.
  intros df. split; [lia |].
  apply (forecast_index_after_fit Base.pandas_daily pandas_daily_spec "m" df None 2). lia.
Defined.

(** X20. [create_forecast_index] raises ValueError on the frequency
    "infer" whatever the dates. With the daily frequency it returns the
    [forecast_length] days that follow [last_date], or [train_last_date] when
    [last_date] is None: one stamp per step, each one day after the one
    before, all later than the starting date; a length of 0 or of -1 gives an
    empty index. *)
Theorem create_forecast_index_days (P : Base.Pandas) (PS : Base.PandasSpec P)
    (forecast_length train_last_date : Z) (last_date : option Z) :
  let start := match last_date with None => train_last_date | Some d => d end in
  Base.create_forecast_index "infer" forecast_length train_last_date last_date
  = Base.Throw Base.ValueError /\
  ((-1 <= forecast_length)%Z ->
   exists idx,
     Base.create_forecast_index "D" forecast_length train_last_date last_date
     = Base.Return idx /\
     Z.of_nat (length idx) = Z.max 0 forecast_length /\
     forall i, (i < length idx)%nat ->
               nth i idx 0%Z = (start + (Z.of_nat i + 1) * DT.ns_per_day)%Z /\
               (start < nth i idx 0)%Z).
Proof.
  intros start. split; [reflexivity |]. intros Hn.
  destruct (Z.eq_dec forecast_length (-1)) as [-> | Hne].
  - exists []. split; [| split; [reflexivity | cbn [length]; intros i Hi; lia]].
    unfold Base.create_forecast_index. cbn [String.eqb Ascii.eqb Bool.eqb].
    rewrite Base.date_range_daily by lia. reflexivity.
  - eexists. split; [apply (create_forecast_index_daily P PS); lia |].
    rewrite length_map, length_seq. split; [lia |].
    intros i Hi. fold start.
    rewrite (nth_indep _ 0%Z (start + Z.of_nat (S 0) * DT.ns_per_day)%Z)
      by (rewrite length_map, length_seq; exact Hi).
    rewrite (map_nth (fun i => (start + Z.of_nat (S i) * DT.ns_per_day)%Z)), seq_nth
      by exact Hi.
    cbn [Nat.add]. unfold DT.ns_per_day, DT.ns_per_second. split; lia.
Qed.

Lemma create_forecast_index_days_witness :
  let start := DT.timestamp 2024 2 28 in
  Base.create_forecast_index (H := Base.pandas_daily) "infer" 2 (DT.timestamp 2024 1 1)
                             (Some start)
  = Base.Throw Base.ValueError /\
  ((-1 <= 2)%Z ->
   exists idx,
     Base.create_forecast_index (H := Base.pandas_daily) "D" 2 (DT.timestamp 2024 1 1)
                                (Some start) = Base.Return idx /\
     Z.of_nat (length idx) = Z.max 0 2 /\
     forall i, (i < length idx)%nat ->
               nth i idx 0%Z = (start + (Z.of_nat i + 1) * DT.ns_per_day)%Z /\
               (start < nth i idx 0)%Z).
Proof.
  exact (create_forecast_index_days Base.pandas_daily pandas_daily_spec 2
           (DT.timestamp 2024 1 1) (Some (DT.timestamp 2024 2 28))).
Defined.

Lemma adjust_none (f : num -> num -> num) (df : DataFrame) :
  Base.adjust f None df = Base.Return df.
Proof. reflexivity. Qed.

Lemma apply_constraints_unconstrained (P : Base.Pandas)
    (forecast lower_forecast upper_forecast : DataFrame) (constraint_method : string)
    (constraint_regularization : Q) (bounds : bool) (df_train : option DataFrame) :
  Base.thresholds constraint_method None None df_train = Base.Return (None, None) ->
  Base.apply_constraints forecast lower_forecast upper_forecast constraint_method
                         constraint_regularization None None bounds df_train
  = Base.Return (forecast, lower_forecast, upper_forecast).
Proof.
  intros Ht. unfold Base.apply_constraints. rewrite Ht. cbn [Base.and_then].
  destruct (Qeq_bool constraint_regularization 1), bounds; reflexivity.
Qed.

(** X21. What [apply_constraints] asks of its arguments. A method other
    than "stdev_min", "stdev", "absolute" and "quantile" raises ValueError.
    Without [df_train] the two stdev methods raise AttributeError even when
    both constraints are None, and "quantile" does as soon as one constraint
    is given: so do the defaults of [PredictionObject.apply_constraints]
    ("quantile", 0.5, 1.0, 0.0, no [df_train]). With both constraints None
    the three frames come back unchanged, whatever the regularization and
    [bounds], for "absolute" and "quantile" without [df_train] too. *)
Theorem apply_constraints_requirements (P : Base.Pandas)
    (forecast lower_forecast upper_forecast : DataFrame)
    (constraint_regularization : Q) (bounds : bool) :
  (forall constraint_method upper_constraint lower_constraint df_train,
     str_in constraint_method ["stdev_min"; "stdev"; "absolute"; "quantile"]%string = false ->
     Base.apply_constraints forecast lower_forecast upper_forecast constraint_method
                            constraint_regularization upper_constraint lower_constraint
                            bounds df_train
     = Base.Throw Base.ValueError) /\
  (forall constraint_method upper_constraint lower_constraint,
     str_in constraint_method ["stdev_min"; "stdev"]%string = true ->
     Base.apply_constraints forecast lower_forecast upper_forecast constraint_method
                            constraint_regularization upper_constraint lower_constraint
                            bounds None
     = Base.Throw Base.AttributeError) /\
  (forall upper_constraint lower_constraint,
     upper_constraint <> None \/ lower_constraint <> None ->
     Base.apply_constraints forecast lower_forecast upper_forecast "quantile"
                            constraint_regularization upper_constraint lower_constraint
                            bounds None
     = Base.Throw Base.AttributeError) /\
  Base.apply_constraints forecast lower_forecast upper_forecast "quantile" (1 # 2)
                         (Some (Base.Float (Fin 1))) (Some (Base.Float (Fin 0))) true None
  = Base.Throw Base.AttributeError /\
  (forall constraint_method df_train,
     str_in constraint_method ["absolute"; "quantile"]%string = true \/
     str_in constraint_method ["stdev_min"; "stdev"]%string = true /\ df_train <> None ->
     Base.apply_constraints forecast lower_forecast upper_forecast constraint_method
                            constraint_regularization None None bounds df_train
     = Base.Return (forecast, lower_forecast, upper_forecast)).
Proof.
  split; [| split; [| split; [| split]]].
  - intros m up lo d Hm. unfold Base.apply_constraints, Base.thresholds.
    rewrite (str_in_false _ _ Hm "stdev_min"%string) by (cbn; tauto).
    rewrite (str_in_false _ _ Hm "stdev"%string) by (cbn; tauto).
    rewrite (str_in_false _ _ Hm "absolute"%string) by (cbn; tauto).
    rewrite (str_in_false _ _ Hm "quantile"%string) by (cbn; tauto).
    reflexivity.
  - intros m up lo Hm. apply str_in_In in Hm.
    destruct Hm as [<- | [<- | []]]; reflexivity.
  - intros up lo Hc. unfold Base.apply_constraints, Base.thresholds.
    cbn [String.eqb Ascii.eqb Bool.eqb].
    destruct lo as [lo |]; [reflexivity |].
    destruct up as [up |]; [reflexivity | destruct Hc; congruence].
  - reflexivity.
  - intros m d Hm. apply apply_constraints_unconstrained.
    destruct Hm as [Hm | [Hm Hd]]; apply str_in_In in Hm.
    + destruct Hm as [<- | [<- | []]]; reflexivity.
    + destruct d as [d |]; [| congruence].
      destruct Hm as [<- | [<- | []]]; reflexivity.
Qed.

(** ** The thresholds, column by column *)

Lemma nth_thresholds (t : nat -> Q) (n j : nat) :
  (j < n)%nat -> nth j (map (fun j => Fin (t j)) (seq 0 n)) NaN = Fin (t j).
Proof.
  intros Hj. rewrite (nth_indep _ NaN (Fin (t 0%nat))) by (rewrite length_map, length_seq; exact Hj).
  rewrite (map_nth (fun j => Fin (t j))), seq_nth by exact Hj. reflexivity.
Qed.

Lemma per_column_values (df : DataFrame) (b : Base.bound) (t : nat -> Q) :
  threshold_values df b t ->
  Base.per_column df b = Base.Return (map (fun j => Fin (t j)) (seq 0 (ncols df))).
Proof.
  intros [Hfit Hat]. destruct b as [x | l]; cbn [Base.per_column].
  - f_equal. apply (nth_ext _ _ NaN NaN).
    + rewrite repeat_length, length_map, length_seq. reflexivity.
    + intros j Hj. rewrite repeat_length in Hj. rewrite nth_thresholds by exact Hj.
      rewrite nth_repeat_lt by exact Hj. apply (Hat j Hj).
  - rewrite Hfit, Nat.eqb_refl. f_equal. apply (nth_ext _ _ NaN NaN).
    + rewrite length_map, length_seq. exact Hfit.
    + intros j Hj. rewrite Hfit in Hj. rewrite nth_thresholds by exact Hj. apply (Hat j Hj).
Qed.

Lemma adjust_values (f : num -> num -> num) (df : DataFrame) (b : Base.bound)
    (t : nat -> Q) :
  threshold_values df b t -> Base.adjust f (Some b) df = Base.Return (adjusted f t df).
Proof.
  intros H. unfold Base.adjust. rewrite (per_column_values df b t H). reflexivity.
Qed.

Lemma threshold_values_ncols (a b : DataFrame) (c : Base.bound) (t : nat -> Q) :
  ncols b = ncols a -> threshold_values a c t -> threshold_values b c t.
Proof. unfold threshold_values. intros ->. trivial. Qed.

Lemma ncols_adjusted (f : num -> num -> num) (t : nat -> Q) (df : DataFrame) :
  ncols (adjusted f t df) = ncols df.
Proof. reflexivity. Qed.

(** The frames that a call with both thresholds returns. *)
Lemma apply_constraints_band (P : Base.Pandas)
    (forecast lower_forecast upper_forecast : DataFrame) (constraint_method : string)
    (r : Q) (upper_constraint lower_constraint : option Base.bound) (bounds : bool)
    (df_train : option DataFrame) (train_min train_max : Base.bound) (lo hi : nat -> Q) :
  Base.thresholds constraint_method upper_constraint lower_constraint df_train
  = Base.Return (Some train_min, Some train_max) ->
  threshold_values forecast train_min lo -> threshold_values forecast train_max hi ->
  (bounds = true ->
   ncols lower_forecast = ncols forecast /\ ncols upper_forecast = ncols forecast) ->
  let below := if Qeq_bool r 1 then Base.clip_lower else Base.where_ge r in
  let above := if Qeq_bool r 1 then Base.clip_upper else Base.where_le r in
  let band := fun df => adjusted above hi (adjusted below lo df) in
  Base.apply_constraints forecast lower_forecast upper_forecast constraint_method r
                         upper_constraint lower_constraint bounds df_train
  = Base.Return (band forecast,
                 if bounds then band lower_forecast else lower_forecast,
                 if bounds then band upper_forecast else upper_forecast).
Proof.
  intros Ht Hlo Hhi Hb below above band. unfold Base.apply_constraints.
  rewrite Ht. cbn [Base.and_then].
  assert (Hband : forall df, ncols df = ncols forecast ->
            forall f g, Base.adjust f (Some train_min) df = Base.Return (adjusted f lo df) /\
                        Base.adjust g (Some train_max) (adjusted f lo df)
                        = Base.Return (adjusted g hi (adjusted f lo df))).
  { intros df Hn f g. split; apply adjust_values.
    - exact (threshold_values_ncols forecast df _ _ Hn Hlo).
    - apply (threshold_values_ncols forecast); [rewrite ncols_adjusted; exact Hn | exact Hhi]. }
  subst band below above.
  destruct (Qeq_bool r 1).
  - destruct (Hband forecast eq_refl Base.clip_lower Base.clip_upper) as [-> E].
    cbn [Base.and_then]. rewrite E. cbn [Base.and_then].
    destruct bounds; [| reflexivity]. destruct (Hb eq_refl) as [Hl Hu].
    destruct (Hband lower_forecast Hl Base.clip_lower Base.clip_upper) as [-> El].
    cbn [Base.and_then].
    destruct (Hband upper_forecast Hu Base.clip_lower Base.clip_upper) as [-> Eu].
    cbn [Base.and_then]. rewrite El. cbn [Base.and_then]. rewrite Eu. reflexivity.
  - destruct (Hband forecast eq_refl (Base.where_ge r) (Base.where_le r)) as [-> E].
    cbn [Base.and_then]. rewrite E. cbn [Base.and_then].
    destruct bounds; [| reflexivity]. destruct (Hb eq_refl) as [Hl Hu].
    destruct (Hband lower_forecast Hl (Base.where_ge r) (Base.where_le r)) as [-> El].
    cbn [Base.and_then].
    destruct (Hband upper_forecast Hu (Base.where_ge r) (Base.where_le r)) as [-> Eu].
    cbn [Base.and_then]. rewrite El. cbn [Base.and_then]. rewrite Eu. reflexivity.
Qed.

Lemma Forall2_map_same_r {A B : Type} (R : A -> B -> Prop) (g : A -> B) (l : list A) :
  Forall (fun x => R x (g x)) l -> Forall2 R l (map g l).
Proof. induction 1; cbn [map]; constructor; assumption. Qed.

Lemma adjusted_cells (f : num -> num -> num) (t : nat -> Q) (df : DataFrame) :
  rectangular df ->
  cells_related (fun j x x' => x' = f (Fin (t j)) x) df (adjusted f t df) /\
  rectangular (adjusted f t df).
Proof.
  intros Hrect.
  assert (Hlen : forall r, length r = ncols df ->
            length (map2 f (map (fun j => Fin (t j)) (seq 0 (ncols df))) r) = length r).
  { intros r Hr. rewrite map2_length, length_map, length_seq, Hr. apply Nat.min_id. }
  split.
  - split; [reflexivity | split; [reflexivity |]]. cbn [values adjusted].
    apply Forall2_map_same_r. unfold rectangular in Hrect.
    eapply Forall_impl; [| exact Hrect]. intros r Hr. cbv beta in Hr |- *.
    split; [apply Hlen, Hr |]. intros j Hj.
    rewrite (map2_nth f _ _ j NaN NaN NaN)
      by (rewrite ?length_map, ?length_seq; lia).
    rewrite nth_thresholds by lia. reflexivity.
  - unfold rectangular in *. cbn [values adjusted]. rewrite ncols_adjusted.
    apply Forall_map. eapply Forall_impl; [| exact Hrect].
    intros r Hr. cbv beta in Hr |- *. rewrite Hlen; exact Hr.
Qed.

Lemma cells_related_trans (R1 R2 R : nat -> num -> num -> Prop) (a b c : DataFrame) :
  (forall j x y z, R1 j x y -> R2 j y z -> R j x z) ->
  cells_related R1 a b -> cells_related R2 b c -> cells_related R a c.
Proof.
  intros HR (Hc1 & Hl1 & H1) (Hc2 & Hl2 & H2).
  split; [congruence | split; [congruence |]].
  revert H2. generalize (values c). clear Hc1 Hl1 Hc2 Hl2.
  induction H1 as [| r r' ra rb (Hlen & Hr) _ IH]; intros rc H2; inversion H2; subst.
  - constructor.
  - constructor; [| apply IH; assumption].
    match goal with H : _ /\ _ |- _ => destruct H as (Hlen' & Hr') end.
    split; [congruence |]. intros j Hj.
    apply (HR j _ (nth j r' NaN)); [apply Hr; exact Hj | apply Hr'; lia].
Qed.

Lemma band_cells (f g : num -> num -> num) (lo hi : nat -> Q) (df : DataFrame) :
  rectangular df ->
  cells_related (fun j x x' => x' = g (Fin (hi j)) (f (Fin (lo j)) x)) df
                (adjusted g hi (adjusted f lo df)).
Proof.
  intros Hrect. destruct (adjusted_cells f lo df Hrect) as [H1 Hrect'].
  destruct (adjusted_cells g hi _ Hrect') as [H2 _].
  refine (cells_related_trans _ _ _ _ _ _ _ H1 H2).
  intros j x y z -> ->. reflexivity.
Qed.

Lemma cells_related_impl (R R' : nat -> num -> num -> Prop) (a b : DataFrame) :
  rectangular a ->
  (forall j x x', (j < ncols a)%nat -> R j x x' -> R' j x x') ->
  cells_related R a b -> cells_related R' a b.
Proof.
  intros Hrect HR (Hc & Hl & H). split; [exact Hc | split; [exact Hl |]].
  unfold rectangular in Hrect. induction H as [| r r' ra rb (Hlen & Hr) _ IH].
  - constructor.
  - inversion Hrect; subst. constructor; [| apply IH; assumption].
    split; [exact Hlen |]. intros j Hj. apply HR; [lia | apply Hr; exact Hj].
Qed.

(** ** One cell *)

Lemma clip_cell (lo hi : Q) (x : num) :
  clipped lo hi x (Base.clip_upper (Fin hi) (Base.clip_lower (Fin lo) x)).
Proof.
  destruct x as [p | | |]; cbn [clipped Base.clip_lower Base.clip_upper num_lt].
  - destruct (Qltb p lo) eqn:E1; cbn [Base.clip_upper num_lt].
    + apply Qltb_true in E1. destruct (Qltb hi lo) eqn:E2.
      * apply Qltb_true in E2. exists hi. repeat split; try lra.
        intros p' Hp' Hin. lra.
      * apply Qltb_false in E2. exists lo. repeat split; try lra.
        intros p' Hp' Hin. injection Hp' as <-. lra.
    + apply Qltb_false in E1. destruct (Qltb hi p) eqn:E2.
      * apply Qltb_true in E2. exists hi. repeat split; try lra.
        intros p' Hp' Hin. injection Hp' as <-. lra.
      * apply Qltb_false in E2. exists p. repeat split; try lra.
  - exists hi. repeat split; try lra. intros p Hp. discriminate Hp.
  - destruct (Qltb hi lo) eqn:E2.
    + apply Qltb_true in E2. exists hi. repeat split; try lra.
      intros p Hp. discriminate Hp.
    + apply Qltb_false in E2. exists lo. repeat split; try lra.
      intros p Hp. discriminate Hp.
  - reflexivity.
Qed.






(** X22. The hard cutoff ([constraint_regularization] = 1) with both
    thresholds finite, for any of the four methods: every cell of the
    returned forecast that was not missing is finite and not above the upper
    threshold of its column, not below the lower one when the two thresholds
    are in order, and unchanged when it was between them; infinite cells are
    brought to a threshold, missing cells stay missing. With [bounds] the
    same holds of the lower and upper forecasts, without it they are returned
    as they were given, whatever their shape. *)
Theorem hard_cutoff_within_thresholds (P : Base.Pandas)
    (forecast lower_forecast upper_forecast : DataFrame) (constraint_method : string)
    (upper_constraint lower_constraint : option Base.bound) (bounds : bool)
    (df_train : option DataFrame) (train_min train_max : Base.bound) (lo hi : nat -> Q) :
  Base.thresholds constraint_method upper_constraint lower_constraint df_train
  = Base.Return (Some train_min, Some train_max) ->
  threshold_values forecast train_min lo -> threshold_values forecast train_max hi ->
  rectangular forecast ->
  (bounds = true ->
   (ncols lower_forecast = ncols forecast /\ ncols upper_forecast = ncols forecast) /\
   rectangular lower_forecast /\ rectangular upper_forecast) ->
  exists forecast' lower_forecast' upper_forecast',
    Base.apply_constraints forecast lower_forecast upper_forecast constraint_method 1
                           upper_constraint lower_constraint bounds df_train
    = Base.Return (forecast', lower_forecast', upper_forecast') /\
    cells_related (fun j => clipped (lo j) (hi j)) forecast forecast' /\
    if bounds
    then cells_related (fun j => clipped (lo j) (hi j)) lower_forecast lower_forecast' /\
         cells_related (fun j => clipped (lo j) (hi j)) upper_forecast upper_forecast'
    else lower_forecast' = lower_forecast /\ upper_forecast' = upper_forecast.
Proof.
  intros Ht Hlo Hhi Hrect Hb.
  assert (Hcells : forall df, rectangular df ->
            cells_related (fun j => clipped (lo j) (hi j)) df
                          (adjusted Base.clip_upper hi (adjusted Base.clip_lower lo df))).
  { intros df Hdf.
    refine (cells_related_impl _ _ _ _ Hdf _ (band_cells _ _ lo hi df Hdf)).
    intros j x x' _ ->. apply clip_cell. }
  do 3 eexists. split.
  - apply (apply_constraints_band P forecast lower_forecast upper_forecast constraint_method
             1 upper_constraint lower_constraint bounds df_train train_min train_max lo hi
             Ht Hlo Hhi).
    intros E. apply (Hb E).
  - change (Qeq_bool 1 1) with true. cbv iota. split; [apply Hcells, Hrect |].
    destruct bounds; [| split; reflexivity].
    destruct (Hb eq_refl) as (_ & Hl & Hu). split; apply Hcells; assumption.
Qed.

Lemma hard_cutoff_within_thresholds_witness :
  let forecast := {| columns := ["a"; "b"]%string;
                     values := [[Fin 5; PInf]; [NaN; Fin (-3)]]; layout_of := Table |} in
  let empty := {| columns := []; values := []; layout_of := Table |} in
  let lo := fun j : nat => if (j =? 0)%nat then 10 else 0 in
  let hi := fun j : nat => if (j =? 0)%nat then 20 else 1 in
  Base.thresholds (H := Base.pandas_daily) "absolute" (Some (Base.Array [Fin 20; Fin 1]))
                  (Some (Base.Array [Fin 10; Fin 0])) None
  = Base.Return (Some (Base.Array [Fin 10; Fin 0]), Some (Base.Array [Fin 20; Fin 1])) /\
  threshold_values forecast (Base.Array [Fin 10; Fin 0]) lo /\
  threshold_values forecast (Base.Array [Fin 20; Fin 1]) hi /\
  rectangular forecast /\
  exists forecast' lower_forecast' upper_forecast',
    Base.apply_constraints (H := Base.pandas_daily) forecast empty empty "absolute" 1
                           (Some (Base.Array [Fin 20; Fin 1]))
                           (Some (Base.Array [Fin 10; Fin 0])) false None
    = Base.Return (forecast', lower_forecast', upper_forecast') /\
    cells_related (fun j => clipped (lo j) (hi j)) forecast forecast' /\
    lower_forecast' = empty /\ upper_forecast' = empty.
Proof.
  intros forecast empty lo hi.
  assert (Ht : Base.thresholds (H := Base.pandas_daily) "absolute"
                 (Some (Base.Array [Fin 20; Fin 1])) (Some (Base.Array [Fin 10; Fin 0])) None
               = Base.Return (Some (Base.Array [Fin 10; Fin 0]),
                              Some (Base.Array [Fin 20; Fin 1]))) by reflexivity.
  assert (Hlo : threshold_values forecast (Base.Array [Fin 10; Fin 0]) lo).
  { split; [reflexivity |]. intros [| [| j]] Hj; [reflexivity | reflexivity |].
    cbn in Hj. lia. }
  assert (Hhi : threshold_values forecast (Base.Array [Fin 20; Fin 1]) hi).
  { split; [reflexivity |]. intros [| [| j]] Hj; [reflexivity | reflexivity |].
    cbn in Hj. lia. }
  assert (Hrect : rectangular forecast) by (repeat constructor).
  split; [exact Ht |]. split; [exact Hlo |]. split; [exact Hhi |]. split; [exact Hrect |].
  apply (hard_cutoff_within_thresholds Base.pandas_daily forecast empty empty "absolute"
           (Some (Base.Array [Fin 20; Fin 1])) (Some (Base.Array [Fin 10; Fin 0])) false None
           (Base.Array [Fin 10; Fin 0]) (Base.Array [Fin 20; Fin 1]) lo hi Ht Hlo Hhi Hrect).
  intros E. discriminate E.
Defined.





(** The forecast 5 inside the band from 4 to 6, cut at the lower threshold
    10 without [bounds]: it comes back as 10, above the upper forecast 6. *)
Lemma point_forecast_leaves_band :
  let one := fun x : Q => {| columns := ["a"]%string; values := [[Fin x]];
                             layout_of := Table |} in
  Base.apply_constraints (H := Base.pandas_daily) (one 5) (one 4) (one 6) "absolute" 1
                         (Some (Base.Float (Fin 20))) (Some (Base.Float (Fin 10)))
                         false None
  = Base.Return (one 10, one 4, one 6).
Proof. reflexivity. Qed.
